(** * Rag_1: the adaptive retrieval-augmented query pipeline

    A shallow embedding of [src/Rag_test]: [config.py], [utils/file_tracker.py],
    [utils/pdf_processor.py], [utils/image_extractor.py], [utils/embeddings.py],
    [utils/web_search.py] and [main.py], followed by the properties of the
    pipeline that the specification states.

    Conventions.
    - A Python [str] is a [string]; characters are 8-bit code points.
    - A Python [int] that is an index or a count is a [nat]; one that may be
      negative (a slice bound) is a [Z].
    - A Python [float] (a distance, the similarity threshold, a coordinate
      of an embedding) is a binary64 [float], with the rounding of IEEE 754
      where the program computes with it.
    - A [dict] used as a map is a [gmap]; a value that [json.load] returns is
      a [json_value], which need not be a [dict].
    - Code that mutates module-level objects ([collection], [file_tracker],
      [processing_status]) or may raise runs in the monad [M]: a state
      transformer over [State] whose result is an exception or a value.  As in
      Python, the mutations made before an exception is raised persist.
    - The services behind the program (hashlib, json, the PDF decoders, Ollama,
      the search providers, the vector search) are the fields of type classes;
      the functions of the program are parameterised by them. *)

From Stdlib Require Import ZArith Ascii String.
From Stdlib Require Import PrimFloat.
From Stdlib Require Uint63.
From stdpp Require Import gmap strings list fin_maps pretty.

Open Scope string_scope.
Open Scope list_scope.
Open Scope nat_scope.

(** A decimal float literal denotes the nearest binary64 float, as it does
    in Python. *)
Set Warnings "-inexact-float".

(** * Python values *)

Module Py.

(** ** Exceptions *)

Inductive exn : Type :=
| ValueError (msg : string)
| OSError (msg : string)
| TypeError (msg : string)
| KeyError (key : string)
| HTTPException (status_code : nat) (detail : string)
| Exception (msg : string).

(** [str(e)] *)
Definition str_exn (e : exn) : string :=
  match e with
  | ValueError msg | OSError msg | TypeError msg | Exception msg => msg
  | KeyError key => "'" +:+ key +:+ "'"
  | HTTPException _ detail => detail
  end.

Definition is_HTTPException (e : exn) : bool :=
  match e with HTTPException _ _ => true | _ => false end.

(** A computation without side effects that may raise. *)
Definition result (A : Type) : Type := exn + A.

(** [bytes] *)
Definition bytes : Type := list Byte.byte.

(** ** Strings *)

Definition nl : string := String (ascii_of_nat 10) EmptyString.

(** Truth value of a [str]: non-empty. *)
Definition truthy (s : string) : bool :=
  match s with EmptyString => false | String _ _ => true end.

(** Truth value of a list: non-empty. *)
Definition nonempty {A} (l : list A) : bool :=
  match l with [] => false | _ :: _ => true end.

(** [c.isspace()] for a code point below 256. *)
Definition isspace (c : ascii) : bool :=
  let n := nat_of_ascii c in
  ((9 <=? n) && (n <=? 13)) || ((28 <=? n) && (n <=? 32))
  || (n =? 133) || (n =? 160).

Fixpoint lstrip (s : string) : string :=
  match s with
  | EmptyString => EmptyString
  | String c s' => if isspace c then lstrip s' else s
  end.

Fixpoint rstrip (s : string) : string :=
  match s with
  | EmptyString => EmptyString
  | String c s' =>
      match rstrip s' with
      | EmptyString => if isspace c then EmptyString else String c EmptyString
      | r => String c r
      end
  end.

(** [s.strip()] *)
Definition strip (s : string) : string := lstrip (rstrip s).

(** [s[:n]] and [s[n:]] for [n >= 0] *)
Fixpoint str_take (n : nat) (s : string) : string :=
  match n, s with
  | S n', String c s' => String c (str_take n' s')
  | _, _ => EmptyString
  end.

Fixpoint str_drop (n : nat) (s : string) : string :=
  match n, s with
  | S n', String _ s' => str_drop n' s'
  | _, _ => s
  end.

(** [s[i:j]] for [0 <= i <= j] *)
Definition slice (s : string) (i j : nat) : string :=
  str_take (j - i) (str_drop i s).

(** [s.endswith(suffix)] *)
Definition endswith (s suffix : string) : bool :=
  String.eqb (str_drop (String.length s - String.length suffix) s) suffix
  && (String.length suffix <=? String.length s).

(** [needle in s] on two strings *)
Fixpoint occurs (needle s : string) : bool :=
  String.prefix needle s
  || match s with
     | EmptyString => false
     | String _ s' => occurs needle s'
     end.

(** [sep.join(l)] *)
Definition join (sep : string) (l : list string) : string :=
  String.concat sep l.

(** ** Sequences *)

(** [range(start, stop, step)] for a positive [step]; the list has at most
    [stop - start] elements. *)
Fixpoint range_from (fuel start stop step : nat) : list nat :=
  match fuel with
  | 0 => []
  | S fuel' =>
      if start <? stop
      then start :: range_from fuel' (start + step) stop step
      else []
  end.

Definition range (start stop step : nat) : list nat :=
  range_from (stop - start) start stop step.

(** [enumerate(l)] *)
Definition enumerate {A} (l : list A) : list (nat * A) :=
  zip (seq 0 (length l)) l.

(** [l[start:]], where a negative [start] counts from the end *)
Definition slice_from {A} (start : Z) (l : list A) : list A :=
  let len := Z.of_nat (length l) in
  let lo := if (start <? 0)%Z then Z.max (len + start) 0 else Z.min start len in
  drop (Z.to_nat lo) l.

(** ** Floats *)

(** [float(n)] for a length [n] *)
Definition float_of_len (n : nat) : float :=
  PrimFloat.of_uint63 (Uint63.of_Z (Z.of_nat n)).

(** [sum(l) / len(l)] for a non-empty list of floats: the binary64 additions
    of [sum], from left to right and starting from 0, and one division.
    (From version 3.12 on CPython's [sum] also carries the rounding error of
    the running total along; the last bit of a mean may then differ.) *)
Definition mean (l : list float) : float :=
  PrimFloat.div (fold_left PrimFloat.add l PrimFloat.zero)
                (float_of_len (length l)).

(** ** Values read from JSON *)

(** What [json.load] can return. *)
#[warnings="-register-all"]
Inductive json_value : Type :=
| JNull
| JBool (b : bool)
| JInt (n : Z)
| JFloat (x : float)
| JString (s : string)
| JArray (items : list json_value)
| JObject (members : gmap string json_value).

(** [type(v).__name__] *)
Definition type_name (v : json_value) : string :=
  match v with
  | JNull => "NoneType"
  | JBool _ => "bool"
  | JInt _ => "int"
  | JFloat _ => "float"
  | JString _ => "str"
  | JArray _ => "list"
  | JObject _ => "dict"
  end.

(** [v == s] for a [str] [s] *)
Definition eq_str (v : json_value) (s : string) : bool :=
  match v with
  | JString t => String.eqb t s
  | _ => false
  end.

(** [key in v] for a [str] [key]: a key of a dict, an element of a list, a
    substring of a string; the other values are not iterable. *)
Definition contains (v : json_value) (key : string) : result bool :=
  match v with
  | JObject members =>
      inr (match members !! key with Some _ => true | None => false end)
  | JArray items => inr (existsb (fun item => eq_str item key) items)
  | JString s => inr (occurs key s)
  | _ => inl (TypeError ("argument of type '" +:+ type_name v
                         +:+ "' is not iterable"))
  end.

(** [v[key]] for a [str] [key] *)
Definition getitem (v : json_value) (key : string) : result json_value :=
  match v with
  | JObject members =>
      match members !! key with
      | Some x => inr x
      | None => inl (KeyError key)
      end
  | JArray _ => inl (TypeError "list indices must be integers or slices, not str")
  | JString _ => inl (TypeError "string indices must be integers, not 'str'")
  | _ => inl (TypeError ("'" +:+ type_name v +:+ "' object is not subscriptable"))
  end.

(** [v[key] = x] for a [str] [key]; the value after the assignment *)
Definition setitem (v : json_value) (key : string) (x : json_value)
  : result json_value :=
  match v with
  | JObject members => inr (JObject (<[key := x]> members))
  | JArray _ => inl (TypeError "list indices must be integers or slices, not str")
  | _ => inl (TypeError ("'" +:+ type_name v
                         +:+ "' object does not support item assignment"))
  end.

End Py.

Import Py.

(** * config.py *)

Module config.

(** The API keys are read from the process environment. *)
Class Environ := {
  BRAVE_API_KEY : string;
  TAVILY_API_KEY : string
}.

Definition CHUNK_SIZE : nat := 500.
Definition MIN_IMAGE_SIZE : nat := 100.
Definition MAX_CHAT_HISTORY : Z := 6.

Definition WEB_SEARCH_ENABLED : bool := true.
(** [0.7]: the binary64 float nearest to 7/10, 0x1.6666666666666p-1 *)
Definition SIMILARITY_THRESHOLD : float := 0.7%float.

Definition WEB_SEARCH_PROVIDER `{Environ} : option string :=
  if truthy BRAVE_API_KEY then Some "brave"
  else if truthy TAVILY_API_KEY then Some "tavily"
  else None.

End config.

Import config.

(** * The state of the server process *)

Module Runtime.

(** Metadata stored with an entry of the collection. *)
Record Metadata := {
  filename : string;
  page : nat;
  type : string
}.

(** An entry of the vector collection, without its id. *)
Record DocumentRecord := {
  document : string;
  embedding : list float;
  metadata : Metadata
}.

(** [processing_status] of main.py *)
Record ProcessingStatus := {
  is_processing : bool;
  current : nat;
  total : nat;
  current_file : string
}.

(** What the tracking file PROCESSED_FILES_JSON is on disk. *)
Inductive file_state : Type :=
| Missing
| Unreadable
| Contents (text : string).

(** Calls that leave the process on the query path, in the order made. *)
Inductive call : Type :=
| SearchWeb (query : string) (num_results : nat)
| ProviderRequest (provider query : string) (num_results : nat)
| Generate (prompt : string).

Record State := {
  collection : gmap string DocumentRecord;
  processed_files : json_value;
  tracking_file : file_state;
  processing_status : ProcessingStatus;
  calls : list call
}.

Definition set_collection (c : gmap string DocumentRecord) (s : State) : State :=
  {| collection := c; processed_files := processed_files s;
     tracking_file := tracking_file s;
     processing_status := processing_status s; calls := calls s |}.

Definition set_processed_files (d : json_value) (s : State) : State :=
  {| collection := collection s; processed_files := d;
     tracking_file := tracking_file s;
     processing_status := processing_status s; calls := calls s |}.

Definition set_tracking_file (f : file_state) (s : State) : State :=
  {| collection := collection s; processed_files := processed_files s;
     tracking_file := f;
     processing_status := processing_status s; calls := calls s |}.

Definition set_processing_status (p : ProcessingStatus) (s : State) : State :=
  {| collection := collection s; processed_files := processed_files s;
     tracking_file := tracking_file s;
     processing_status := p; calls := calls s |}.

Definition set_calls (l : list call) (s : State) : State :=
  {| collection := collection s; processed_files := processed_files s;
     tracking_file := tracking_file s;
     processing_status := processing_status s; calls := l |}.

(** ** The monad of stateful code that may raise *)

Definition M (A : Type) : Type := State -> result A * State.

Definition ret {A} (a : A) : M A := fun s => (inr a, s).

Definition raise {A} (e : exn) : M A := fun s => (inl e, s).

Definition bind {A B} (m : M A) (k : A -> M B) : M B :=
  fun s =>
    match m s with
    | (inl e, s') => (inl e, s')
    | (inr a, s') => k a s'
    end.

(** [try: m  except Exception as e: h e] *)
Definition try_except {A} (m : M A) (h : exn -> M A) : M A :=
  fun s =>
    match m s with
    | (inl e, s') => h e s'
    | (inr a, s') => (inr a, s')
    end.

(** [try: m  finally: f] *)
Definition try_finally {A} (m : M A) (f : M unit) : M A :=
  fun s =>
    match m s with
    | (r, s') =>
        match f s' with
        | (inl e, s'') => (inl e, s'')
        | (inr _, s'') => (r, s'')
        end
    end.

Definition lift {A} (r : result A) : M A := fun s => (r, s).

Definition gets {A} (f : State -> A) : M A := fun s => (inr (f s), s).

Definition modify (f : State -> State) : M unit := fun s => (inr tt, f s).

Definition record (c : call) : M unit :=
  modify (fun s => set_calls (calls s ++ [c]) s).

(** [for x in l: body x] *)
Fixpoint for_each {A} (l : list A) (body : A -> M unit) : M unit :=
  match l with
  | [] => ret tt
  | x :: l' => bind (body x) (fun _ => for_each l' body)
  end.

End Runtime.

Import Runtime.

Notation "x <- m ;; k" := (bind m (fun x => k))
  (at level 89, m at level 88, right associativity).
Notation "m ;;; k" := (bind m (fun _ => k))
  (at level 89, right associativity).

(** * utils/file_tracker.py *)

Module file_tracker.

Class Hashlib := md5_hexdigest : bytes -> string.

(** [json.load] on the text of the tracking file ([inl]: the text is not
    JSON) and [json.dump] of the ledger. *)
Class Json := {
  json_load : string -> result json_value;
  json_dump : json_value -> string
}.

(** The watched directory PDF_DIR as the process sees it: the names of its
    entries in the order in which the operating system enumerates them, the
    bytes of each entry ([inl]: [open] or [read] raises), and whether the
    tracking file can be opened for writing. *)
Class Disk := {
  listdir : list string;
  read_bytes : string -> result (bytes);
  tracking_writable : bool
}.

(** A [Path] below PDF_DIR is its final component. *)
Abbreviation Path := string (only parsing).
Definition name (p : Path) : string := p.

(** [pdf_dir.glob(pattern)] for the pattern [*suffix] *)
Definition glob `{Disk} (suffix : string) : list Path :=
  filter (fun n => endswith n suffix = true) listdir.

Section FileTracker.
Context `{Hashlib} `{Json} `{Disk}.

Definition exists_ (f : file_state) : bool :=
  match f with Missing => false | _ => true end.

Definition open_read (f : file_state) : M string :=
  match f with
  | Contents text => ret text
  | _ => raise (OSError "cannot open tracking file")
  end.

Definition _load : M json_value :=
  f <- gets tracking_file ;;
  if exists_ f then
    try_except
      (text <- open_read f ;; lift (json_load text))
      (fun e => ret (JObject ∅))
  else ret (JObject ∅).

Definition __init__ : M unit :=
  d <- _load ;; modify (set_processed_files d).

Definition _save : M unit :=
  try_except
    (if tracking_writable
     then d <- gets processed_files ;;
          modify (set_tracking_file (Contents (json_dump d)))
     else raise (OSError "cannot write tracking file"))
    (fun e => ret tt).

Definition calculate_hash (file_path : Path) : M string :=
  content <- lift (read_bytes file_path) ;;
  ret (md5_hexdigest content).

Definition is_processed (file_path : Path) : M bool :=
  let file_name := name file_path in
  d <- gets processed_files ;;
  present <- lift (contains d file_name) ;;
  if negb present then ret false
  else
    current_hash <- calculate_hash file_path ;;
    stored <- lift (getitem d file_name) ;;
    ret (eq_str stored current_hash).

Definition mark_processed (file_path : Path) : M unit :=
  let file_name := name file_path in
  file_hash <- calculate_hash file_path ;;
  d <- gets processed_files ;;
  d' <- lift (setitem d file_name (JString file_hash)) ;;
  modify (set_processed_files d') ;;;
  _save.

Fixpoint get_unprocessed_loop (files unprocessed : list Path) : M (list Path) :=
  match files with
  | [] => ret unprocessed
  | pdf_file :: files' =>
      p <- is_processed pdf_file ;;
      get_unprocessed_loop files'
        (if negb p then unprocessed ++ [pdf_file] else unprocessed)
  end.

Definition get_unprocessed_files : M (list Path) :=
  get_unprocessed_loop (glob ".pdf") [].

Definition clear : M unit :=
  modify (set_processed_files (JObject ∅)) ;;; _save.

End FileTracker.

End file_tracker.

Import file_tracker.

(** * utils/pdf_processor.py *)

Module pdf_processor.

(** A chunk dictionary; [image_index] and [dimensions] are present on image
    chunks only. *)
Record Chunk := {
  text : string;
  chunk_page : nat;
  chunk_type : string;
  image_index : option nat;
  dimensions : option string
}.

(** What [page.extract_text()] does on one page. *)
Inductive page_text : Type :=
| ExtractRaises (e : exn)
| Extracted (text : string).

(** [PyPDF2.PdfReader(io.BytesIO(pdf_bytes)).pages]; [inl]: the reader
    raises. *)
Class PyPDF2 := PdfReader_pages : bytes -> result (list page_text).

(** The windows [text[i:i + chunk_size]] for [i] in
    [range(0, len(text), chunk_size)]. *)
Definition windows (chunk_size : nat) (text : string) : list string :=
  map (fun i => slice text i (i + chunk_size))
      (range 0 (String.length text) chunk_size).

(** The inner loop of the text pass on one page. *)
Definition split_page (chunk_size page_num : nat) (text : string) : list Chunk :=
  flat_map
    (fun chunk =>
       if truthy (strip chunk)
       then [ {| text := strip chunk; chunk_page := page_num + 1;
                 chunk_type := "text";
                 image_index := None; dimensions := None |} ]
       else [])
    (windows chunk_size text).

(** The body of the loop over the pages. *)
Definition page_chunks (chunk_size page_num : nat) (p : page_text) : list Chunk :=
  match p with
  | ExtractRaises _ => []
  | Extracted text =>
      if negb (truthy text) || negb (truthy (strip text)) then []
      else split_page chunk_size page_num text
  end.

Definition extract_text_from_pdf_bytes `{PyPDF2} (pdf_bytes : bytes)
  : result (list Chunk) :=
  match PdfReader_pages pdf_bytes with
  | inl e => inl e
  | inr pages =>
      inr (flat_map (fun '(page_num, p) => page_chunks CHUNK_SIZE page_num p)
                    (enumerate pages))
  end.

(** [extract_text_from_pdf]: the same pass on a file of the directory, which
    is opened first ([inl]: [open] raises). *)
Definition extract_text_from_pdf `{Disk} `{PyPDF2} (pdf_path : Path)
  : result (list Chunk) :=
  match read_bytes pdf_path with
  | inl e => inl e
  | inr file =>
      match PdfReader_pages file with
      | inl e => inl e
      | inr pages =>
          inr (flat_map (fun '(page_num, p) => page_chunks CHUNK_SIZE page_num p)
                        (enumerate pages))
      end
  end.

End pdf_processor.

Import pdf_processor.

(** * utils/embeddings.py *)

Module embeddings.

(** The Ollama client: [ollama.embeddings] ([inr None]: the response has no
    field [embedding]), [ollama.chat] with one image and [ollama.generate]
    ([inl]: the call raises). *)
Class Ollama := {
  ollama_embeddings : string -> result (option (list float));
  ollama_chat : bytes -> result string;
  ollama_generate : string -> result string
}.

Definition generate_embedding `{Ollama} (text : string) : result (list float) :=
  let body : result (list float) :=
    if negb (truthy text) || negb (truthy (strip text))
    then inl (ValueError "Cannot generate embedding for empty text")
    else
      match ollama_embeddings text with
      | inl e => inl e
      | inr None => inl (ValueError "Ollama response missing 'embedding' field")
      | inr (Some embedding) =>
          if negb (nonempty embedding) || (length embedding =? 0)
          then inl (ValueError "Ollama returned empty embedding")
          else inr embedding
      end in
  match body with
  | inl e => inl (ValueError ("Error generating embedding: " +:+ str_exn e))
  | inr embedding => inr embedding
  end.

Definition generate_embeddings_batch `{Ollama} (texts : list string)
  : list (list float) :=
  fold_left
    (fun embeddings text =>
       match generate_embedding text with
       | inr embedding => embeddings ++ [embedding]
       | inl _ => embeddings
       end)
    texts [].

End embeddings.

Import embeddings.

(** * utils/image_extractor.py *)

Module image_extractor.

(** An embedded raster image as PyMuPDF and PIL deliver it. *)
Record RawImage := {
  image : bytes;
  width : nat;
  height : nat
}.

(** [fitz.open(stream=pdf_bytes)]: for each page the images of
    [page.get_images(full=True)], each one decoded ([inl]: extracting or
    opening the image raises); [inl] at the top: the document cannot be
    opened. *)
Class Fitz := fitz_page_images : bytes -> result (list (list (result RawImage))).

Definition describe_image_with_llava `{Ollama} (image_bytes : bytes) : string :=
  match ollama_chat image_bytes with
  | inr description => "[IMAGE DESCRIPTION] " +:+ description
  | inl _ => "[IMAGE] Troubleshooting screenshot (description unavailable)"
  end.

(** The body of the loop over the images of one page. *)
Definition image_chunk `{Ollama} (page_num img_index : nat) (img : result RawImage)
  : list Chunk :=
  match img with
  | inl _ => []
  | inr im =>
      if (width im <? MIN_IMAGE_SIZE) || (height im <? MIN_IMAGE_SIZE) then []
      else
        let description := describe_image_with_llava (image im) in
        if truthy description
        then [ {| text := description; chunk_page := page_num + 1;
                  chunk_type := "image";
                  image_index := Some img_index;
                  dimensions := Some (pretty (width im) +:+ "x" +:+ pretty (height im)) |} ]
        else []
  end.

Definition extract_images_from_pdf_bytes `{Fitz} `{Ollama} (pdf_bytes : bytes)
  : result (list Chunk) :=
  match fitz_page_images pdf_bytes with
  | inl e => inl e
  | inr pdf_document =>
      inr (flat_map
             (fun '(page_num, image_list) =>
                flat_map (fun '(img_index, img) => image_chunk page_num img_index img)
                         (enumerate image_list))
             (enumerate pdf_document))
  end.

(** [extract_images_from_pdf]: the same pass on a file of the directory. *)
Definition extract_images_from_pdf `{Disk} `{Fitz} `{Ollama} (pdf_path : Path)
  : result (list Chunk) :=
  match read_bytes pdf_path with
  | inl e => inl e
  | inr file =>
      match fitz_page_images file with
      | inl e => inl e
      | inr pdf_document =>
          inr (flat_map
                 (fun '(page_num, image_list) =>
                    flat_map (fun '(img_index, img) => image_chunk page_num img_index img)
                             (enumerate image_list))
                 (enumerate pdf_document))
      end
  end.

End image_extractor.

Import image_extractor.

(** * utils/web_search.py *)

Module web_search.

(** One hit of a provider, after the [item.get(key, "")] defaults; the field
    [description] is Tavily's [content]. *)
Record SearchHit := {
  title : string;
  description : string;
  url : string
}.

(** The dictionary the search functions return. *)
Record WebResults := {
  context : string;
  sources : list string;
  results : list SearchHit
}.

(** The HTTP interfaces of the providers.  Brave: the decoded response
    ([inr None]: it has no [web.results]); Tavily: [response.get("results", [])].
    [inl]: the request or the decoding raises. *)
Class Providers := {
  brave_request : string -> nat -> result (option (list SearchHit));
  tavily_search : string -> nat -> result (list SearchHit)
}.

Definition no_results : WebResults :=
  {| context := ""; sources := []; results := [] |}.

Section WebSearch.
Context `{Environ} `{Providers}.

Definition format_hit (label : string) (r : SearchHit) : string :=
  "Title: " +:+ title r +:+ nl +:+ label +:+ ": " +:+ description r +:+ nl
  +:+ "URL: " +:+ url r.

Definition search_brave (query : string) (num_results : nat) : M WebResults :=
  if negb (truthy BRAVE_API_KEY)
  then raise (ValueError "Brave API key not configured. Set BRAVE_API_KEY in config.py or environment.")
  else
    try_except
      (record (ProviderRequest "brave" query num_results) ;;;
       data <- lift (brave_request query num_results) ;;
       let results :=
         match data with
         | Some items => take num_results items
         | None => []
         end in
       let sources := map url results in
       let context := join (nl +:+ nl) (map (format_hit "Description") results) in
       ret {| context := context; sources := sources; results := results |})
      (fun e => ret no_results).

Definition search_tavily (query : string) (num_results : nat) : M WebResults :=
  if negb (truthy TAVILY_API_KEY)
  then raise (ValueError "Tavily API key not configured. Set TAVILY_API_KEY in config.py or environment.")
  else
    try_except
      (record (ProviderRequest "tavily" query num_results) ;;;
       response <- lift (tavily_search query num_results) ;;
       let results := take num_results response in
       let sources := map url results in
       let context := join (nl +:+ nl) (map (format_hit "Content") results) in
       ret {| context := context; sources := sources; results := results |})
      (fun e => ret no_results).

Definition search_web (query : string) (num_results : nat)
    (provider : option string) : M WebResults :=
  let search_provider :=
    match provider with
    | Some p => if truthy p then Some p else WEB_SEARCH_PROVIDER
    | None => WEB_SEARCH_PROVIDER
    end in
  record (SearchWeb query num_results) ;;;
  match search_provider with
  | Some p =>
      if String.eqb p "brave" then search_brave query num_results
      else if String.eqb p "tavily" then search_tavily query num_results
      else ret no_results
  | None => ret no_results
  end.

End WebSearch.

Definition should_use_web_search (similarity_score threshold : float) : bool :=
  PrimFloat.ltb threshold similarity_score.

End web_search.

Import web_search.

(** * The vector collection *)

Module chroma.

(** The dictionary [collection.query] returns.  A field is [None] when the
    key is missing or holds [None]; either way the program reads an empty
    row from it. *)
Record QueryResult := {
  qr_documents : option (list (list string));
  qr_metadatas : option (list (list (option Metadata)));
  qr_distances : option (list (list float))
}.

(** The nearest-neighbour search of the store over the entries it holds
    ([inl]: the call raises). *)
Class VectorSearch :=
  collection_query : gmap string DocumentRecord -> list float -> Z -> result QueryResult.

Fixpoint entries (ids documents : list string) (embeddings : list (list float))
    (metadatas : list Metadata) : list (string * DocumentRecord) :=
  match ids, documents, embeddings, metadatas with
  | i :: ids', d :: documents', e :: embeddings', m :: metadatas' =>
      (i, {| document := d; embedding := e; metadata := m |})
        :: entries ids' documents' embeddings' metadatas'
  | _, _, _, _ => []
  end.

(** Modelled from the spec: the vector store behind [collection], which is
    the chromadb package and not part of the sources.  The store holds one
    entry per id (section 3, DocumentRecord: ids are unique, and writing an
    entry whose id is already present creates no duplicate; section 4.4: the
    sequences of a batch have equal length, [count()] is the number of
    entries).  The program writes with [collection.add], which keeps the
    entry already stored under a colliding id. *)
Definition add_entry (c : gmap string DocumentRecord) (r : string * DocumentRecord)
  : gmap string DocumentRecord :=
  match c !! r.1 with
  | Some _ => c
  | None => <[r.1 := r.2]> c
  end.

Definition collection_add (documents : list string) (embeddings : list (list float))
    (ids : list string) (metadatas : list Metadata) : M unit :=
  if (length documents =? length ids) && (length embeddings =? length ids)
     && (length metadatas =? length ids)
  then modify (fun s =>
         set_collection
           (foldl add_entry (collection s) (entries ids documents embeddings metadatas)) s)
  else raise (ValueError "Unequal lengths for fields of the batch").

Definition collection_count : M nat := gets (fun s => size (collection s)).

(** [delete_collection] followed by [get_or_create_collection] *)
Definition collection_reset : M unit := modify (set_collection ∅).

End chroma.

Import chroma.

(** * main.py *)

Module main.

Record Message := {
  role : string;
  content : string
}.

Record QueryRequest := {
  question : string;
  top_k : Z;
  chat_history : option (list Message)
}.

Record QueryResponse := {
  answer : string;
  sources : list string
}.

(** An uploaded file: its name, if any, and what [file.read()] returns. *)
Record UploadFile := {
  upload_filename : option string;
  upload_content : bytes
}.

Record UploadResponse := {
  message : string;
  total_chunks : nat
}.

Definition idle : ProcessingStatus :=
  {| is_processing := false; current := 0; total := 0; current_file := "" |}.

Definition render_message (msg : Message) : string :=
  let role := if String.eqb (role msg) "user" then "Human" else "Assistant" in
  role +:+ ": " +:+ content msg +:+ nl.

Definition format_chat_history (chat_history : list Message) (max_messages : Z)
  : string :=
  if negb (nonempty chat_history) then ""
  else
    let recent_history := slice_from (- max_messages) chat_history in
    fold_left (fun formatted msg => formatted +:+ render_message msg)
              recent_history
              (nl +:+ nl +:+ "Previous conversation:" +:+ nl).

(** The four lists filled by the loop over the chunks of a file. *)
Record Prepared := {
  documents : list string;
  vectors : list (list float);
  ids : list string;
  metadatas : list Metadata
}.

Definition nothing_prepared : Prepared :=
  {| documents := []; vectors := []; ids := []; metadatas := [] |}.

(** The body of the loop [for idx, chunk in enumerate(all_chunks)], which is
    the same text in [process_single_pdf] and in [upload_pdfs]. *)
Definition prepare_chunk `{Ollama} (file_hash file_name : string)
    (acc : Prepared) (ic : nat * Chunk) : Prepared :=
  let '(idx, chunk) := ic in
  let doc_id := file_hash +:+ "_" +:+ pretty idx in
  let chunk_text := strip (text chunk) in
  if negb (truthy chunk_text) then acc
  else
    match generate_embedding chunk_text with
    | inl _ => acc
    | inr embedding =>
        if negb (nonempty embedding) then acc
        else
          {| documents := documents acc ++ [chunk_text];
             vectors := vectors acc ++ [embedding];
             ids := ids acc ++ [doc_id];
             metadatas := metadatas acc ++
               [ {| filename := file_name; page := chunk_page chunk;
                    type := chunk_type chunk |} ] |}
    end.

Definition prepare `{Ollama} (file_hash file_name : string)
    (all_chunks : list Chunk) : Prepared :=
  fold_left (prepare_chunk file_hash file_name) (enumerate all_chunks)
            nothing_prepared.

Section Ingestion.
Context `{Hashlib} `{Json} `{Disk} `{PyPDF2} `{Fitz} `{Ollama}.

Definition process_single_pdf (pdf_path : Path) (file_hash : string) : M nat :=
  try_except
    (pdf_content <- lift (read_bytes pdf_path) ;;
     text_chunks <- lift (extract_text_from_pdf_bytes pdf_content) ;;
     image_chunks <- lift (extract_images_from_pdf_bytes pdf_content) ;;
     let all_chunks := text_chunks ++ image_chunks in
     if negb (nonempty all_chunks) then ret 0
     else
       let p := prepare file_hash (name pdf_path) all_chunks in
       if nonempty (documents p) && nonempty (vectors p)
       then collection_add (documents p) (vectors p) (ids p) (metadatas p) ;;;
            ret (length (documents p))
       else ret 0)
    (fun e => raise e).

Definition set_status (f : ProcessingStatus -> ProcessingStatus) : M unit :=
  modify (fun s => set_processing_status (f (processing_status s)) s).

(** The body of the loop of the sweep; [total_chunks] only feeds a log
    line and is left out. *)
Definition sweep_file (ip : nat * Path) : M unit :=
  let '(i, pdf_path) := ip in
  set_status (fun p => {| is_processing := is_processing p; current := i + 1;
                          total := total p; current_file := current_file p |}) ;;;
  set_status (fun p => {| is_processing := is_processing p; current := current p;
                          total := total p; current_file := name pdf_path |}) ;;;
  try_except
    (file_hash <- calculate_hash pdf_path ;;
     chunks_added <- process_single_pdf pdf_path file_hash ;;
     mark_processed pdf_path)
    (fun e => ret tt).

Definition process_local_pdfs_background : M unit :=
  try_finally
    (try_except
       (set_status (fun p => {| is_processing := true; current := current p;
                                total := total p; current_file := current_file p |}) ;;;
        unprocessed_files <- get_unprocessed_files ;;
        if negb (nonempty unprocessed_files)
        then set_status (fun p => {| is_processing := false; current := current p;
                                     total := total p;
                                     current_file := current_file p |})
        else
          set_status (fun p => {| is_processing := is_processing p;
                                  current := current p;
                                  total := length unprocessed_files;
                                  current_file := current_file p |}) ;;;
          for_each (enumerate unprocessed_files) sweep_file)
       (fun e => ret tt))
    (set_status (fun _ => idle)).

Definition startup_event : M unit := process_local_pdfs_background.

(** The body of the loop of [upload_pdfs] over one file, on the counters
    [total_chunks] and [processed_files]. *)
Definition upload_file (file : UploadFile) (counters : nat * nat)
  : M (nat * nat) :=
  let '(total_chunks, processed_files) := counters in
  match upload_filename file with
  | None => ret counters
  | Some file_name =>
      if negb (truthy file_name) || negb (endswith file_name ".pdf")
      then ret counters
      else
        let pdf_content := upload_content file in
        let file_hash := md5_hexdigest pdf_content in
        text_chunks <- lift (extract_text_from_pdf_bytes pdf_content) ;;
        image_chunks <- lift (extract_images_from_pdf_bytes pdf_content) ;;
        let all_chunks := text_chunks ++ image_chunks in
        if negb (nonempty all_chunks)
        then raise (HTTPException 400 ("No content extracted from " +:+ file_name))
        else
          let p := prepare file_hash file_name all_chunks in
          if nonempty (documents p) && nonempty (vectors p)
          then collection_add (documents p) (vectors p) (ids p) (metadatas p) ;;;
               ret (total_chunks + length (documents p), processed_files + 1)
          else ret counters
  end.

Fixpoint upload_loop (files : list UploadFile) (counters : nat * nat)
  : M (nat * nat) :=
  match files with
  | [] => ret counters
  | file :: files' =>
      counters' <- upload_file file counters ;;
      upload_loop files' counters'
  end.

Definition upload_pdfs (files : list UploadFile) : M UploadResponse :=
  try_except
    (counters <- upload_loop files (0, 0) ;;
     let '(total_chunks, processed_files) := counters in
     if processed_files =? 0
     then raise (HTTPException 400 "No PDFs were successfully processed")
     else ret {| message := "Successfully processed " +:+ pretty processed_files
                            +:+ " PDF(s)";
                 total_chunks := total_chunks |})
    (fun e =>
       if is_HTTPException e then raise e
       else raise (HTTPException 500 (str_exn e))).

Definition get_processing_status : M ProcessingStatus := gets processing_status.

Definition clear_database : M string :=
  try_except
    (collection_reset ;;; clear ;;; ret "Database cleared successfully")
    (fun e => raise (HTTPException 500 (str_exn e))).

Definition health_check : M (nat * bool) :=
  n <- collection_count ;;
  p <- gets processing_status ;;
  ret (n, is_processing p).

End Ingestion.

(** The local variables of [query_knowledge_base] when it reaches the
    comment "Combine contexts". *)
Record Retrieval := {
  pdf_context : string;
  pdf_sources : list string;
  use_web : bool;
  web_context : string;
  web_sources : list string
}.

(** The states of the retrieval orchestrator (section 4.5), read off the two
    contexts as the tests of "Combine contexts" and "If no context at all"
    read them. *)
Inductive RetrievalState : Type :=
| LOCAL_ONLY
| WEB_ONLY
| BLENDED
| NO_CONTEXT.

Definition retrieval_state (r : Retrieval) : RetrievalState :=
  if truthy (pdf_context r) && truthy (web_context r) then BLENDED
  else if truthy (web_context r) then WEB_ONLY
  else if truthy (pdf_context r) then LOCAL_ONLY
  else NO_CONTEXT.

(** [x[0] if x else []] on a field of the query result, after
    [results.get(key, [[]])] *)
Definition first_row {A} (field : option (list (list A))) : list A :=
  match field with
  | Some (row :: _) => row
  | _ => []
  end.

Definition render_source (m : Metadata) : string :=
  filename m +:+ " (Page " +:+ pretty (page m) +:+ ", " +:+ type m +:+ ")".

Definition combine_contexts (pdf_context web_context : string) : string :=
  if truthy pdf_context && truthy web_context
  then "Information from uploaded documents:" +:+ nl +:+ pdf_context
       +:+ nl +:+ nl +:+ "Additional information from web search:" +:+ nl
       +:+ web_context
  else if truthy web_context
  then "Information from web search:" +:+ nl +:+ web_context
  else pdf_context.

Definition no_information : string :=
  "I don't have enough information to answer this question.".

Definition build_prompt (history_context combined_context question : string)
  : string :=
  "You are a helpful AI assistant answering questions based on provided information. Use the conversation history to provide contextual answers."
  +:+ nl +:+ nl +:+ history_context +:+ nl +:+ nl
  +:+ "Context:" +:+ nl +:+ combined_context +:+ nl +:+ nl
  +:+ "Current question: " +:+ question +:+ nl +:+ nl
  +:+ "Instructions:" +:+ nl
  +:+ "- Answer based on the context provided" +:+ nl
  +:+ "- If referring to previous conversation, acknowledge it naturally" +:+ nl
  +:+ "- If the answer isn't in the context, say so" +:+ nl
  +:+ "- Be conversational and helpful" +:+ nl
  +:+ "- Synthesize information from multiple sources when relevant" +:+ nl
  +:+ nl +:+ "Answer:".

Section Query.
Context `{Environ} `{Providers} `{Ollama} `{VectorSearch}.

(** [query_knowledge_base] from its first line to "Combine contexts". *)
Definition retrieve (request : QueryRequest) : M Retrieval :=
  question_embedding <- lift (generate_embedding (question request)) ;;
  c <- gets collection ;;
  results <- lift (collection_query c question_embedding (top_k request)) ;;
  let documents := first_row (qr_documents results) in
  let metadatas := first_row (qr_metadatas results) in
  let distances := first_row (qr_distances results) in
  let pdf_context :=
    if nonempty documents then join (nl +:+ nl) documents else "" in
  let pdf_sources :=
    flat_map (fun m => match m with Some m => [render_source m] | None => [] end)
             metadatas in
  let local := {| pdf_context := pdf_context; pdf_sources := pdf_sources;
                  use_web := false; web_context := ""; web_sources := [] |} in
  if WEB_SEARCH_ENABLED && nonempty distances then
    let avg_distance := if nonempty distances then mean distances else 1%float in
    if should_use_web_search avg_distance SIMILARITY_THRESHOLD
       || negb (nonempty documents)
    then
      try_except
        (web_results <- search_web (question request) 3 None ;;
         ret {| pdf_context := pdf_context; pdf_sources := pdf_sources;
                use_web := true;
                web_context := context web_results;
                web_sources := web_search.sources web_results |})
        (fun e =>
           ret {| pdf_context := pdf_context; pdf_sources := pdf_sources;
                  use_web := true; web_context := ""; web_sources := [] |})
    else ret local
  else ret local.

(** [query_knowledge_base] from "Combine contexts" to its last line. *)
Definition respond (request : QueryRequest) (r : Retrieval) : M QueryResponse :=
  let combined_context := combine_contexts (pdf_context r) (web_context r) in
  let all_sources := pdf_sources r ++ web_sources r in
  if negb (truthy combined_context)
  then ret {| answer := no_information; sources := [] |}
  else
    let chat_history :=
      match chat_history request with
      | Some l => l
      | None => []
      end in
    let history_context := format_chat_history chat_history MAX_CHAT_HISTORY in
    let prompt := build_prompt history_context combined_context (question request) in
    record (Generate prompt) ;;;
    response <- lift (ollama_generate prompt) ;;
    ret {| answer := response; sources := all_sources |}.

Definition query_knowledge_base (request : QueryRequest) : M QueryResponse :=
  try_except
    (r <- retrieve request ;; respond request r)
    (fun e => raise (HTTPException 500 (str_exn e))).

End Query.

End main.

Import main.

(** * Vocabulary of the properties *)

(** [ceil(a / b)] *)
Definition ceil_div (a b : nat) : nat := (a + b - 1) / b.

(** The concatenation of a list of strings. *)
Definition str_concat (l : list string) : string :=
  fold_right String.append EmptyString l.

(** Every character of the string is white space. *)
Fixpoint all_space (s : string) : bool :=
  match s with
  | EmptyString => true
  | String c s' => isspace c && all_space s'
  end.

(** The string without its white space. *)
Fixpoint remove_whitespace (s : string) : string :=
  match s with
  | EmptyString => EmptyString
  | String c s' =>
      if isspace c then remove_whitespace s' else String c (remove_whitespace s')
  end.

(** The test [if chunk.strip()] of the text pass. *)
Definition keeps (w : string) : bool := truthy (strip w).

(** [interleaved cs s]: the string [s] is the strings [cs], in order, with
    white space before, between and after them. *)
Inductive interleaved : list string -> string -> Prop :=
| interleaved_nil (pad : string) :
    all_space pad = true -> interleaved [] pad
| interleaved_cons (pad c : string) (cs : list string) (s : string) :
    all_space pad = true -> interleaved cs s ->
    interleaved (c :: cs) (pad +:+ c +:+ s).

(** [n] spaces *)
Fixpoint spaces (n : nat) : string :=
  match n with
  | 0 => EmptyString
  | S n' => String " " (spaces n')
  end.

(** A page whose second window is white space only: one letter followed by
    500 spaces. *)
Definition blank_tail_page : string := String "a" (spaces 500).

(** The ledger is a dictionary, as [_save] writes it and [clear] resets it;
    the values on which the test [in] works at all. *)
Definition is_dict (v : json_value) : bool :=
  match v with JObject _ => true | _ => false end.

Definition iterable (v : json_value) : bool :=
  match v with JObject _ | JArray _ | JString _ => true | _ => false end.

(** The state in which [m] leaves [s], and what it returns or raises. *)
Definition exec {A} (m : M A) (s : State) : State := (m s).2.
Definition eval {A} (m : M A) (s : State) : result A := (m s).1.

(** [m] returns [True] in [s]. *)
Definition holds (m : M bool) (s : State) : bool :=
  match eval m s with
  | inr true => true
  | _ => false
  end.

(** [n] runs of [m] in a row, whatever each returns or raises. *)
Fixpoint repeatedly {A} (n : nat) (m : M A) (s : State) : State :=
  match n with
  | 0 => s
  | S n' => repeatedly n' m (exec m s)
  end.

(** The calls to the language-generation model among the calls made. *)
Definition is_generate (c : call) : bool :=
  match c with Generate _ => true | _ => false end.

Definition generate_calls (s : State) : list call :=
  List.filter is_generate (calls s).

(** The last [k] elements of a list. *)
Definition last_turns {A} (k : nat) (l : list A) : list A :=
  drop (length l - k) l.

Definition history_header : string :=
  nl +:+ nl +:+ "Previous conversation:" +:+ nl.

(** How the prompt shows a turn: the speaker, a colon, the text of the turn
    and a line break. *)
Definition turn_line (msg : Message) : string :=
  (if String.eqb (role msg) "user" then "Human: " else "Assistant: ")
  +:+ content msg +:+ nl.

(** The history block of a prompt that shows the turns [kept]; there is no
    block for an empty history. *)
Definition history_block (history kept : list Message) : string :=
  if nonempty history
  then history_header +:+ str_concat (map turn_line kept)
  else "".

(** [request.chat_history or []] *)
Definition history_of (request : QueryRequest) : list Message :=
  match chat_history request with
  | Some l => l
  | None => []
  end.

(** The four lists of a batch have the same length. *)
Definition balanced (p : Prepared) : Prop :=
  length (documents p) = length (ids p)
  /\ length (vectors p) = length (ids p)
  /\ length (metadatas p) = length (ids p).

(** An id of the form [{file_hash}_{ordinal}] with an ordinal below [n]. *)
Definition hash_ordinal (file_hash : string) (n : nat) (id : string) : Prop :=
  exists idx, idx < n /\ id = file_hash +:+ "_" +:+ pretty idx.

Definition well_named (file_hash : string) (n : nat) (p : Prepared) : Prop :=
  forall id, In id (ids p) -> hash_ordinal file_hash n id.

(** * Sample environments

    Small instances of the services, on which the functions of the program
    can be run. *)

Definition fresh : State :=
  {| collection := ∅; processed_files := JObject ∅; tracking_file := Missing;
     processing_status := idle; calls := [] |}.

(** A digest that only looks at the length of the file. *)
Definition length_digest : Hashlib := fun b => pretty (length b).

(** A parser that accepts the empty object only. *)
Definition empty_object_json : Json :=
  {| json_load := fun t =>
       if String.eqb t "{}" then inr (JObject ∅)
       else inl (ValueError "Expecting value");
     json_dump := fun _ => "{}" |}.

(** A parser that knows three texts: null, the empty list and the empty
    object. *)
Definition literal_json : Json :=
  {| json_load := fun t =>
       if String.eqb t "null" then inr JNull
       else if String.eqb t "[]" then inr (JArray [])
       else if String.eqb t "{}" then inr (JObject ∅)
       else inl (ValueError "Expecting value");
     json_dump := fun v =>
       match v with
       | JNull => "null"
       | JArray _ => "[]"
       | _ => "{}"
       end |}.

(** A directory that the operating system enumerates as b.pdf, a.pdf,
    notes.txt. *)
Definition two_pdfs : Disk :=
  {| listdir := ["b.pdf"; "a.pdf"; "notes.txt"];
     read_bytes := fun n =>
       if String.eqb n "a.pdf" then inr [Byte.x25]
       else if String.eqb n "b.pdf" then inr [Byte.x25; Byte.x50]
       else inl (OSError "No such file or directory");
     tracking_writable := true |}.

(** A decoder under which a one-byte file has one page of text and any other
    file one page of white space. *)
Definition one_page : PyPDF2 :=
  fun b => inr [Extracted (if length b =? 1 then "hello world" else "   ")].

Definition no_images : Fitz := fun _ => inr [[]].

Definition unit_embedder : Ollama :=
  {| ollama_embeddings := fun _ => inr (Some [1%float]);
     ollama_chat := fun _ => inl (Exception "vision model unavailable");
     ollama_generate := fun _ => inr "generated answer" |}.

Definition brave_key : Environ :=
  {| BRAVE_API_KEY := "key"; TAVILY_API_KEY := "" |}.

Definition no_keys : Environ :=
  {| BRAVE_API_KEY := ""; TAVILY_API_KEY := "" |}.

Definition one_hit : Providers :=
  {| brave_request := fun _ _ =>
       inr (Some [ {| title := "Title"; description := "Snippet";
                      url := "https://example.org" |} ]);
     tavily_search := fun _ _ => inr [] |}.

Definition sample_metadata : Metadata :=
  {| filename := "a.pdf"; page := 1; type := "text" |}.

(** A store without entries: every query returns empty rows. *)
Definition empty_index : VectorSearch :=
  fun _ _ _ => inr {| qr_documents := Some [[]]; qr_metadatas := Some [[]];
                      qr_distances := Some [[]] |}.

(** Stores whose two neighbours are at the given distances. *)
Definition neighbours_at (d1 d2 : float) : VectorSearch :=
  fun _ _ _ =>
    inr {| qr_documents := Some [["first passage"; "second passage"]];
           qr_metadatas := Some [[Some sample_metadata; Some sample_metadata]];
           qr_distances := Some [[d1; d2]] |}.

Definition ask (q : string) : QueryRequest :=
  {| question := q; top_k := 3; chat_history := Some [] |}.

Definition a_pdf_upload : UploadFile :=
  {| upload_filename := Some "a.pdf"; upload_content := [Byte.x25] |}.

(** Ten turns, numbered in their content. *)
Definition ten_turns : list Message :=
  map (fun i => {| role := if Nat.even i then "user" else "assistant";
                   content := pretty i |})
      (seq 1 10).

(** A provider whose requests time out. *)
Definition timing_out : Providers :=
  {| brave_request := fun _ _ => inl (Exception "Read timed out");
     tavily_search := fun _ _ => inl (Exception "Read timed out") |}.

(** What [retrieve] yields when nothing is found locally and the web is not
    searched. *)
Definition nothing_retrieved : Retrieval :=
  {| pdf_context := ""; pdf_sources := []; use_web := false;
     web_context := ""; web_sources := [] |}.

Definition insufficient_information : QueryResponse :=
  {| answer := no_information; sources := [] |}.

(** Unfolds the operations of the monad. *)
Ltac run :=
  unfold try_except, try_finally, bind, lift, ret, raise, gets, modify, record;
  simpl.

(** * Further sample environments *)

(** A ledger codec that writes each entry as two lines, the name and the
    hash, and reads such a text back. *)
Fixpoint split_lines (s : string) : list string :=
  match s with
  | EmptyString => []
  | String c s' =>
      if Ascii.eqb c (ascii_of_nat 10) then EmptyString :: split_lines s'
      else
        match split_lines s' with
        | [] => [String c EmptyString]
        | l :: ls => String c l :: ls
        end
  end.

Fixpoint pair_up (l : list string) : list (string * string) :=
  match l with
  | k :: v :: l' => (k, v) :: pair_up l'
  | _ => []
  end.

Definition two_line_json : Json :=
  {| json_load := fun t =>
       inr (JObject (list_to_map (map (fun kv => (kv.1, JString kv.2))
                                      (pair_up (split_lines t)))));
     json_dump := fun v =>
       match v with
       | JObject d =>
           str_concat
             (flat_map (fun kv =>
                          match kv.2 with
                          | JString h => [kv.1 +:+ nl; h +:+ nl]
                          | _ => []
                          end)
                       (map_to_list d))
       | _ => ""
       end |}.

(** The directory of [two_pdfs] after a.pdf has been rewritten. *)
Definition a_pdf_rewritten : Disk :=
  {| listdir := ["b.pdf"; "a.pdf"; "notes.txt"];
     read_bytes := fun n =>
       if String.eqb n "a.pdf" then inr [Byte.x25; Byte.x50; Byte.x44]
       else if String.eqb n "b.pdf" then inr [Byte.x25; Byte.x50]
       else inl (OSError "No such file or directory");
     tracking_writable := true |}.

(** The directory of [two_pdfs] with a tracking file that cannot be
    written. *)
Definition read_only_ledger : Disk :=
  {| listdir := ["b.pdf"; "a.pdf"; "notes.txt"];
     read_bytes := fun n =>
       if String.eqb n "a.pdf" then inr [Byte.x25]
       else if String.eqb n "b.pdf" then inr [Byte.x25; Byte.x50]
       else inl (OSError "No such file or directory");
     tracking_writable := false |}.

(** A decoder that rejects every file. *)
Definition broken_reader : PyPDF2 :=
  fun _ => inl (Exception "EOF marker not found").

(** The test of [upload_pdfs] on the name of an uploaded file. *)
Definition named_pdf (file : UploadFile) : bool :=
  match upload_filename file with
  | Some file_name => truthy file_name && endswith file_name ".pdf"
  | None => false
  end.

Definition no_pdf_processed : exn :=
  HTTPException 400 "No PDFs were successfully processed".

(** An upload whose single page is white space under [one_page], and one
    that is not named as a PDF. *)
Definition blank_pdf_upload : UploadFile :=
  {| upload_filename := Some "blank.pdf"; upload_content := [Byte.x25; Byte.x50] |}.

Definition text_upload : UploadFile :=
  {| upload_filename := Some "notes.txt"; upload_content := [Byte.x25] |}.

(** The errors that stop the ingestion of a file as a whole: the file cannot
    be read, or one of the two decoders rejects the document. *)
Definition ingestion_error `{Disk} `{PyPDF2} `{Fitz} `{Ollama}
    (f : Path) (e : exn) : Prop :=
  read_bytes f = inl e
  \/ exists b, read_bytes f = inr b
       /\ (extract_text_from_pdf_bytes b = inl e
           \/ exists tc, extract_text_from_pdf_bytes b = inr tc
                /\ extract_images_from_pdf_bytes b = inl e).

(** An embedder that fails on every text. *)
Definition failing_embedder : Ollama :=
  {| ollama_embeddings := fun _ => inl (Exception "connection refused");
     ollama_chat := fun _ => inl (Exception "connection refused");
     ollama_generate := fun _ => inl (Exception "connection refused") |}.

Definition embedding_error (msg : string) : exn :=
  ValueError ("Error generating embedding: " +:+ msg).

(** What [generate_embeddings_batch] keeps of one text. *)
Definition embedded `{Ollama} (text : string) : list (list float) :=
  match generate_embedding text with
  | inr embedding => [embedding]
  | inl _ => []
  end.

(** An image that is decoded and at least MIN_IMAGE_SIZE wide and high. *)
Definition large_enough (img : result RawImage) : bool :=
  match img with
  | inr im => (MIN_IMAGE_SIZE <=? width im) && (MIN_IMAGE_SIZE <=? height im)
  | inl _ => false
  end.

Definition placeholder_description : string :=
  "[IMAGE] Troubleshooting screenshot (description unavailable)".

(** What the text pass guarantees of a chunk of a document of [n] pages. *)
Definition text_chunk_ok (n : nat) (c : Chunk) : Prop :=
  truthy (text c) = true
  /\ strip (text c) = text c
  /\ String.length (text c) <= CHUNK_SIZE
  /\ chunk_type c = "text"
  /\ 1 <= chunk_page c <= n
  /\ image_index c = None /\ dimensions c = None.

(** What the image pass guarantees of a chunk of a document of [n] pages. *)
Definition image_chunk_ok `{Ollama} (n : nat) (c : Chunk) : Prop :=
  truthy (text c) = true
  /\ (text c = placeholder_description
      \/ exists description, text c = "[IMAGE DESCRIPTION] " +:+ description)
  /\ chunk_type c = "image"
  /\ 1 <= chunk_page c <= n
  /\ is_Some (image_index c) /\ is_Some (dimensions c).

(** A document of two pages: an icon and a screenshot on the first, an image
    that cannot be decoded on the second. *)
Definition icon_and_screenshot : Fitz :=
  fun _ => inr [ [ inr {| image := [Byte.x01]; width := 32; height := 32 |};
                   inr {| image := [Byte.x02]; width := 800; height := 600 |} ];
                 [ inl (Exception "cannot identify image file") ] ].

(** A decoder whose second page cannot be read. *)
Definition second_page_broken : PyPDF2 :=
  fun _ => inr [Extracted "first page"; ExtractRaises (Exception "bad stream");
                Extracted "third page"].

Definition brave_key_missing : exn :=
  ValueError "Brave API key not configured. Set BRAVE_API_KEY in config.py or environment.".

Definition tavily_key_missing : exn :=
  ValueError "Tavily API key not configured. Set TAVILY_API_KEY in config.py or environment.".

(** [s'] differs from [s] at most by calls recorded after those of [s]. *)
Definition only_calls_added (s s' : State) : Prop :=
  collection s' = collection s
  /\ processed_files s' = processed_files s
  /\ tracking_file s' = tracking_file s
  /\ processing_status s' = processing_status s
  /\ exists l, calls s' = calls s ++ l.

(** The prompt of a request for a combined context. *)
Definition prompt_of (request : QueryRequest) (combined_context : string) : string :=
  build_prompt (format_chat_history (history_of request) MAX_CHAT_HISTORY)
               combined_context (question request).

Definition tavily_key : Environ :=
  {| BRAVE_API_KEY := ""; TAVILY_API_KEY := "key" |}.

(** A provider with five hits. *)
Definition five_hits : Providers :=
  let hit := fun i => {| title := "Title " +:+ pretty i;
                         description := "Snippet " +:+ pretty i;
                         url := "https://example.org/" +:+ pretty i |} in
  {| brave_request := fun _ _ => inr (Some (map hit (seq 1 5)));
     tavily_search := fun _ _ => inr (map hit (seq 1 5)) |}.

(** The entries that the ingestion of a document writes: those of the batch
    prepared from its chunks, none when a decoder rejects it or the batch is
    empty. *)
Definition batch_for `{PyPDF2} `{Fitz} `{Ollama}
    (file_hash file_name : string) (content : bytes)
  : list (string * DocumentRecord) :=
  match extract_text_from_pdf_bytes content, extract_images_from_pdf_bytes content with
  | inr text_chunks, inr image_chunks =>
      let p := prepare file_hash file_name (text_chunks ++ image_chunks) in
      if nonempty (text_chunks ++ image_chunks)
         && nonempty (documents p) && nonempty (vectors p)
      then entries (ids p) (documents p) (vectors p) (metadatas p)
      else []
  | _, _ => []
  end.

(** The entries that [upload_pdfs] writes for one file of a request: those
    of the batch prepared from its bytes under its name, none for a file
    that is not named as a PDF. *)
Definition upload_batch `{Hashlib} `{PyPDF2} `{Fitz} `{Ollama}
    (file : UploadFile) : list (string * DocumentRecord) :=
  match upload_filename file with
  | Some file_name =>
      if named_pdf file
      then batch_for (md5_hexdigest (upload_content file)) file_name
                     (upload_content file)
      else []
  | None => []
  end.

(** The counters [total_chunks] and [processed_files] after a file that the
    loop of [upload_pdfs] gets past. *)
Definition counted `{Hashlib} `{PyPDF2} `{Fitz} `{Ollama}
    (file : UploadFile) (cnt : nat * nat) : nat * nat :=
  (cnt.1 + length (upload_batch file),
   cnt.2 + (if nonempty (upload_batch file) then 1 else 0)).

(** The files that the loop of [upload_pdfs] gets past: those not named as a
    PDF, and those from which the two decoders extract at least one
    chunk. *)
Definition passes `{PyPDF2} `{Fitz} `{Ollama} (file : UploadFile) : Prop :=
  named_pdf file = false
  \/ exists text_chunks image_chunks,
       extract_text_from_pdf_bytes (upload_content file) = inr text_chunks
       /\ extract_images_from_pdf_bytes (upload_content file) = inr image_chunks
       /\ text_chunks ++ image_chunks <> [].

(** What the provider [p] answers to a request: its hits, none when the
    response of Brave has no [web.results]; [inl]: the request raises. *)
Definition provider_response `{Providers} (p query : string) (num_results : nat)
  : result (list SearchHit) :=
  if String.eqb p "brave"
  then match brave_request query num_results with
       | inl e => inl e
       | inr (Some items) => inr items
       | inr None => inr []
       end
  else tavily_search query num_results.

(** The label under which a provider's snippet is shown in the context. *)
Definition snippet_label (p : string) : string :=
  if String.eqb p "brave" then "Description" else "Content".

(** The same bytes as [a_pdf_upload] under another name. *)
Definition copy_pdf_upload : UploadFile :=
  {| upload_filename := Some "copy of a.pdf"; upload_content := [Byte.x25] |}.

(** * Properties *)

(** ** Strings and ranges *)

Section StringFacts.

Lemma append_nil_l (b : string) : EmptyString +:+ b = b.
Proof. reflexivity. Qed.

Lemma append_cons (c : ascii) (a b : string) :
  String c a +:+ b = String c (a +:+ b).
Proof. reflexivity. Qed.

Lemma append_assoc (a b c : string) : (a +:+ b) +:+ c = a +:+ (b +:+ c).
Proof.
  induction a as [|x a IH]; [reflexivity|].
  rewrite !append_cons. now rewrite IH.
Qed.

Lemma append_nil_r (a : string) : a +:+ EmptyString = a.
Proof.
  induction a as [|x a IH]; [reflexivity|].
  rewrite append_cons. now rewrite IH.
Qed.

Lemma length_append (a b : string) :
  String.length (a +:+ b) = String.length a + String.length b.
Proof.
  induction a as [|c a IH]; [reflexivity|].
  rewrite append_cons. simpl. now rewrite IH.
Qed.

Lemma str_take_drop (n : nat) (s : string) : str_take n s +:+ str_drop n s = s.
Proof.
  revert s; induction n as [|n IH]; intros [|c s]; simpl; try reflexivity.
  now rewrite append_cons, IH.
Qed.

Lemma length_str_take (n : nat) (s : string) :
  String.length (str_take n s) = Nat.min n (String.length s).
Proof.
  revert s; induction n as [|n IH]; intros [|c s]; simpl; try reflexivity.
  now rewrite IH.
Qed.

Lemma length_str_drop (n : nat) (s : string) :
  String.length (str_drop n s) = String.length s - n.
Proof.
  revert s; induction n as [|n IH]; intros [|c s]; simpl; try reflexivity.
  now rewrite IH.
Qed.

Lemma str_drop_drop (n m : nat) (s : string) :
  str_drop m (str_drop n s) = str_drop (n + m) s.
Proof.
  revert s; induction n as [|n IH]; intros s; simpl; [reflexivity|].
  destruct s as [|c s]; [now destruct m | apply IH].
Qed.

Lemma str_drop_all (n : nat) (s : string) :
  String.length s <= n -> str_drop n s = EmptyString.
Proof.
  revert s; induction n as [|n IH]; intros [|c s]; simpl; intros Hn;
    try reflexivity; [lia | apply IH; lia].
Qed.

Lemma all_space_append (a b : string) :
  all_space (a +:+ b) = all_space a && all_space b.
Proof.
  induction a as [|c a IH]; [reflexivity|].
  rewrite append_cons. simpl. rewrite IH. now rewrite andb_assoc.
Qed.

Lemma all_space_take (n : nat) (s : string) :
  all_space s = true -> all_space (str_take n s) = true.
Proof.
  intros Hs.
  assert (Hcut : all_space (str_take n s +:+ str_drop n s) = true)
    by now rewrite str_take_drop.
  rewrite all_space_append in Hcut. now apply andb_prop in Hcut.
Qed.

Lemma all_space_drop (n : nat) (s : string) :
  all_space s = true -> all_space (str_drop n s) = true.
Proof.
  intros Hs.
  assert (Hcut : all_space (str_take n s +:+ str_drop n s) = true)
    by now rewrite str_take_drop.
  rewrite all_space_append in Hcut. now apply andb_prop in Hcut.
Qed.

Lemma all_space_rstrip (s : string) : all_space (rstrip s) = all_space s.
Proof.
  induction s as [|c s IH]; simpl; [reflexivity|].
  destruct (rstrip s) as [|d r] eqn:Hr.
  - rewrite <- IH. simpl. destruct (isspace c) eqn:Hc; simpl; now rewrite ?Hc.
  - rewrite <- IH. reflexivity.
Qed.

Lemma lstrip_empty (s : string) :
  truthy (lstrip s) = false <-> all_space s = true.
Proof.
  induction s as [|c s IH]; simpl; [tauto|].
  destruct (isspace c); simpl; [exact IH | split; discriminate].
Qed.

(** [s.strip()] is empty exactly when [s] is white space only. *)
Lemma strip_empty (s : string) :
  truthy (strip s) = false <-> all_space s = true.
Proof. unfold strip. now rewrite lstrip_empty, all_space_rstrip. Qed.

Lemma remove_whitespace_append (a b : string) :
  remove_whitespace (a +:+ b) = remove_whitespace a +:+ remove_whitespace b.
Proof.
  induction a as [|c a IH]; [reflexivity|].
  rewrite append_cons. simpl.
  destruct (isspace c); rewrite IH; reflexivity.
Qed.

Lemma remove_whitespace_blank (s : string) :
  all_space s = true -> remove_whitespace s = EmptyString.
Proof.
  induction s as [|c s IH]; simpl; [reflexivity|].
  intros Hs. apply andb_prop in Hs as [Hc Hs]. rewrite Hc. now apply IH.
Qed.

Lemma remove_whitespace_lstrip (s : string) :
  remove_whitespace (lstrip s) = remove_whitespace s.
Proof.
  induction s as [|c s IH]; simpl; [reflexivity|].
  destruct (isspace c) eqn:Hc; simpl; [exact IH | now rewrite Hc].
Qed.

Lemma remove_whitespace_rstrip (s : string) :
  remove_whitespace (rstrip s) = remove_whitespace s.
Proof.
  induction s as [|c s IH]; simpl; [reflexivity|].
  destruct (rstrip s) as [|d r] eqn:Hr.
  - rewrite <- IH. simpl. destruct (isspace c) eqn:Hc; simpl; now rewrite ?Hc.
  - rewrite <- IH. reflexivity.
Qed.

Lemma remove_whitespace_strip (s : string) :
  remove_whitespace (strip s) = remove_whitespace s.
Proof.
  unfold strip. now rewrite remove_whitespace_lstrip, remove_whitespace_rstrip.
Qed.

Lemma length_lstrip (s : string) : String.length (lstrip s) <= String.length s.
Proof.
  induction s as [|c s IH]; simpl; [lia|].
  destruct (isspace c); simpl; lia.
Qed.

Lemma length_rstrip (s : string) : String.length (rstrip s) <= String.length s.
Proof.
  induction s as [|c s IH]; simpl; [lia|].
  destruct (rstrip s) as [|d r]; [destruct (isspace c)|]; simpl in *; lia.
Qed.

Lemma length_strip (s : string) : String.length (strip s) <= String.length s.
Proof.
  unfold strip. etransitivity; [apply length_lstrip | apply length_rstrip].
Qed.

End StringFacts.

Section RangeFacts.
Variable step : nat.
Hypothesis step_pos : 0 < step.

Lemma ceil_div_step (a : nat) :
  0 < a -> ceil_div a step = S (ceil_div (a - step) step).
Proof.
  intros Ha. unfold ceil_div.
  destruct (Nat.le_gt_cases step a) as [Hle|Hlt].
  - replace (a + step - 1) with ((a - step + step - 1) + 1 * step) by lia.
    rewrite Nat.div_add by lia. lia.
  - replace (a - step) with 0 by lia. simpl.
    rewrite (Nat.div_small (step - 1)) by lia.
    replace (a + step - 1) with ((a - 1) + 1 * step) by lia.
    rewrite Nat.div_add by lia. rewrite Nat.div_small by lia. reflexivity.
Qed.

Lemma ceil_div_0 : ceil_div 0 step = 0.
Proof. unfold ceil_div. simpl. apply Nat.div_small. lia. Qed.

(** [range] has [ceil((stop - start) / step)] elements. *)
Lemma length_range_from (fuel start stop : nat) :
  stop - start <= fuel ->
  length (range_from fuel start stop step) = ceil_div (stop - start) step.
Proof.
  revert start; induction fuel as [|fuel IH]; intros start Hf; simpl.
  - replace (stop - start) with 0 by lia. now rewrite ceil_div_0.
  - destruct (start <? stop) eqn:Hlt.
    + apply Nat.ltb_lt in Hlt. simpl. rewrite IH by lia.
      rewrite (ceil_div_step (stop - start)) by lia.
      do 2 f_equal. lia.
    + apply Nat.ltb_ge in Hlt.
      replace (stop - start) with 0 by lia. now rewrite ceil_div_0.
Qed.

(** Cutting a string at the offsets of [range] loses nothing. *)
Lemma windows_from_concat (text : string) (fuel start : nat) :
  String.length text - start <= fuel ->
  str_concat (map (fun i => slice text i (i + step))
                  (range_from fuel start (String.length text) step))
  = str_drop start text.
Proof.
  revert start; induction fuel as [|fuel IH]; intros start Hf; simpl.
  - symmetry. apply str_drop_all. lia.
  - destruct (start <? String.length text) eqn:Hlt.
    + simpl. rewrite IH by (apply Nat.ltb_lt in Hlt; lia).
      unfold slice. replace (start + step - start) with step by lia.
      rewrite <- str_drop_drop. apply str_take_drop.
    + apply Nat.ltb_ge in Hlt. symmetry. now apply str_drop_all.
Qed.

Lemma length_windows (text : string) :
  length (windows step text) = ceil_div (String.length text) step.
Proof.
  unfold windows, range. rewrite length_map, length_range_from by lia.
  now rewrite Nat.sub_0_r.
Qed.

Lemma windows_concat (text : string) : str_concat (windows step text) = text.
Proof. unfold windows, range. now rewrite windows_from_concat by lia. Qed.

Lemma windows_bounded (text : string) :
  Forall (fun w => String.length w <= step) (windows step text).
Proof.
  clear step_pos.
  unfold windows. apply Forall_map, Forall_forall. intros i _. simpl.
  unfold slice. rewrite length_str_take. lia.
Qed.

Lemma windows_blank (text : string) :
  all_space text = true ->
  Forall (fun w => all_space w = true) (windows step text).
Proof.
  clear step_pos.
  intros Hs. unfold windows. apply Forall_map, Forall_forall. intros i _.
  simpl. unfold slice. now apply all_space_take, all_space_drop.
Qed.

End RangeFacts.

(** ** The text pass of the chunk extractor *)

Section TextPass.

Lemma CHUNK_SIZE_pos : 0 < CHUNK_SIZE.
Proof. unfold CHUNK_SIZE. lia. Qed.

Lemma split_page_text (chunk_size page_num : nat) (page : string) :
  map text (split_page chunk_size page_num page)
  = map strip (List.filter keeps (windows chunk_size page)).
Proof.
  unfold split_page. induction (windows chunk_size page) as [|w ws IH];
    simpl; [reflexivity|].
  unfold keeps at 1. destruct (truthy (strip w)); simpl; now rewrite IH.
Qed.

Lemma blank_windows_dropped (ws : list string) :
  Forall (fun w => all_space w = true) ws -> List.filter keeps ws = [].
Proof.
  induction 1 as [|w ws Hw _ IH]; simpl; [reflexivity|].
  unfold keeps at 1. apply strip_empty in Hw. now rewrite Hw.
Qed.

(** The test on the whole page before the loop changes nothing: a page of
    white space has only windows of white space. *)
Lemma page_chunks_split (page_num : nat) (page : string) :
  page_chunks CHUNK_SIZE page_num (Extracted page)
  = split_page CHUNK_SIZE page_num page.
Proof.
  unfold page_chunks.
  destruct (truthy page) eqn:Hp; simpl.
  - destruct (truthy (strip page)) eqn:Hs; simpl; [reflexivity|].
    apply strip_empty in Hs.
    assert (Hws := windows_blank CHUNK_SIZE page Hs).
    unfold split_page.
    induction Hws as [|w ws Hw _ IH]; simpl; [reflexivity|].
    apply strip_empty in Hw. now rewrite Hw.
  - destruct page; [reflexivity | discriminate].
Qed.

Lemma kept_text_up_to_whitespace (ws : list string) :
  remove_whitespace (str_concat (map strip (List.filter keeps ws)))
  = remove_whitespace (str_concat ws).
Proof.
  induction ws as [|w ws IH]; simpl; [reflexivity|].
  rewrite remove_whitespace_append, <- IH.
  unfold keeps at 1. destruct (truthy (strip w)) eqn:Hw; simpl.
  - now rewrite remove_whitespace_append, remove_whitespace_strip.
  - apply strip_empty in Hw. now rewrite (remove_whitespace_blank w Hw).
Qed.

Lemma lstrip_cut (s : string) :
  exists lead, all_space lead = true /\ s = lead +:+ lstrip s.
Proof.
  induction s as [|c s [lead [Hlead Hs]]]; [now exists EmptyString|].
  simpl. destruct (isspace c) eqn:Hc.
  - exists (String c lead). simpl. rewrite Hc, Hlead. split; [reflexivity|].
    rewrite append_cons. now rewrite <- Hs.
  - now exists EmptyString.
Qed.

Lemma rstrip_cut (s : string) :
  exists trail, all_space trail = true /\ s = rstrip s +:+ trail.
Proof.
  induction s as [|c s [trail [Htrail Hs]]]; [now exists EmptyString|].
  simpl. destruct (rstrip s) as [|d r] eqn:Hr.
  - rewrite append_nil_l in Hs. subst trail.
    destruct (isspace c) eqn:Hc.
    + exists (String c s). simpl. now rewrite Hc, Htrail.
    + exists s. split; [exact Htrail | reflexivity].
  - exists trail. split; [exact Htrail|].
    rewrite append_cons. now rewrite <- Hs.
Qed.

(** A string is its trimmed form between two runs of white space. *)
Lemma strip_cut (s : string) :
  exists lead trail,
    all_space lead = true /\ all_space trail = true
    /\ s = lead +:+ strip s +:+ trail.
Proof.
  destruct (rstrip_cut s) as [trail [Htrail Hs]].
  destruct (lstrip_cut (rstrip s)) as [lead [Hlead Hr]].
  exists lead, trail. split; [exact Hlead|]. split; [exact Htrail|].
  unfold strip. rewrite <- append_assoc, <- Hr. exact Hs.
Qed.

Lemma interleaved_pad (pad : string) (cs : list string) (s : string) :
  all_space pad = true -> interleaved cs s -> interleaved cs (pad +:+ s).
Proof.
  intros Hpad Hs. destruct Hs as [pad' Hpad' | pad' c cs s Hpad' Hs].
  - constructor. now rewrite all_space_append, Hpad, Hpad'.
  - rewrite <- append_assoc. constructor; [|exact Hs].
    now rewrite all_space_append, Hpad, Hpad'.
Qed.

(** The kept windows, trimmed, are the text up to the white space that the
    trimming and the dropped windows remove. *)
Lemma kept_text_interleaved (ws : list string) :
  interleaved (map strip (List.filter keeps ws)) (str_concat ws).
Proof.
  induction ws as [|w ws IH]; simpl; [now constructor|].
  unfold keeps at 1. destruct (truthy (strip w)) eqn:Hw; simpl.
  - destruct (strip_cut w) as (lead & trail & Hlead & Htrail & Hcut).
    rewrite Hcut at 2. rewrite !append_assoc.
    constructor; [exact Hlead|]. now apply interleaved_pad.
  - apply strip_empty in Hw. now apply interleaved_pad.
Qed.

Lemma length_filter_le {A} (f : A -> bool) (l : list A) :
  length (List.filter f l) <= length l.
Proof. induction l as [|x l IH]; simpl; [lia|]. destruct (f x); simpl; lia. Qed.

Lemma filter_all {A} (f : A -> bool) (l : list A) :
  Forall (fun x => f x = true) l -> List.filter f l = l.
Proof.
  induction 1 as [|x l Hx _ IH]; simpl; [reflexivity|]. now rewrite Hx, IH.
Qed.

End TextPass.

(** C7, as the code has it.  For a page text of length L and W = CHUNK_SIZE the
    text pass cuts the text into ceil(L/W) windows of at most W characters
    whose concatenation is the text.  It emits, in order, the trimmed form of
    each window that is not white space only: at most ceil(L/W) chunks,
    exactly ceil(L/W) when no window is white space only, each of at most W
    characters, and the concatenation of the chunks is the text up to white
    space. *)
Theorem C7_text_pass_windows (page_num : nat) (page : string) :
  let L := String.length page in
  let ws := windows CHUNK_SIZE page in
  let chunks := page_chunks CHUNK_SIZE page_num (Extracted page) in
  length ws = ceil_div L CHUNK_SIZE
  /\ Forall (fun w => String.length w <= CHUNK_SIZE) ws
  /\ str_concat ws = page
  /\ map text chunks = map strip (List.filter keeps ws)
  /\ length chunks <= ceil_div L CHUNK_SIZE
  /\ (Forall (fun w => keeps w = true) ws -> length chunks = ceil_div L CHUNK_SIZE)
  /\ Forall (fun c => String.length (text c) <= CHUNK_SIZE) chunks
  /\ interleaved (map text chunks) page
  /\ remove_whitespace (str_concat (map text chunks)) = remove_whitespace page.
Proof.
  intros L ws chunks.
  assert (Hlen : length ws = ceil_div L CHUNK_SIZE)
    by apply (length_windows CHUNK_SIZE CHUNK_SIZE_pos).
  assert (Hb : Forall (fun w => String.length w <= CHUNK_SIZE) ws)
    by apply (windows_bounded CHUNK_SIZE).
  assert (Hcat : str_concat ws = page)
    by apply (windows_concat CHUNK_SIZE CHUNK_SIZE_pos).
  assert (Htext : map text chunks = map strip (List.filter keeps ws)).
  { unfold chunks. rewrite page_chunks_split. apply split_page_text. }
  assert (Hn : length chunks = length (List.filter keeps ws)).
  { rewrite <- (length_map text chunks), Htext. apply length_map. }
  repeat split; try assumption.
  - rewrite Hn, <- Hlen. apply length_filter_le.
  - intros Hall. rewrite Hn, (filter_all keeps ws Hall). exact Hlen.
  - apply List.Forall_forall. intros c Hc.
    assert (Hin : In (text c) (map text chunks)) by (apply in_map; exact Hc).
    rewrite Htext in Hin. apply in_map_iff in Hin as [w [Hw Hin]].
    apply filter_In in Hin as [Hin _].
    rewrite List.Forall_forall in Hb. specialize (Hb w Hin).
    rewrite <- Hw. pose proof (length_strip w). lia.
  - rewrite Htext, <- Hcat. apply kept_text_interleaved.
  - rewrite Htext, kept_text_up_to_whitespace. now rewrite Hcat.
Qed.

(** C7 as stated fails: the page of one letter and 500 spaces has length 501,
    so ceil(L/W) = 2, and the text pass yields one chunk. *)
Lemma C7_blank_window_is_dropped :
  0 < String.length blank_tail_page
  /\ ceil_div (String.length blank_tail_page) CHUNK_SIZE = 2
  /\ map text (page_chunks CHUNK_SIZE 0 (Extracted blank_tail_page)) = ["a"].
Proof. vm_compute. repeat split. apply le_n_S, Nat.le_0_l. Qed.

(** ** The change tracker *)

Section TrackerFacts.
Context `{Hashlib} `{Json} `{Disk}.

Lemma calculate_hash_run (f : Path) (s : State) :
  calculate_hash f s
  = (match read_bytes f with
     | inl e => inl e
     | inr b => inr (md5_hexdigest b)
     end, s).
Proof.
  unfold calculate_hash, bind, lift, ret. now destruct (read_bytes f).
Qed.

Lemma save_returns (s : State) : eval _save s = inr tt.
Proof.
  unfold eval, _save, try_except, bind, gets, modify, raise, ret.
  now destruct tracking_writable.
Qed.

Lemma save_keeps (s : State) :
  processed_files (exec _save s) = processed_files s
  /\ collection (exec _save s) = collection s
  /\ calls (exec _save s) = calls s
  /\ processing_status (exec _save s) = processing_status s.
Proof.
  unfold exec, _save, try_except, bind, gets, modify, raise, ret.
  now destruct tracking_writable.
Qed.

Lemma eq_str_true (v : json_value) (h : string) :
  eq_str v h = true <-> v = JString h.
Proof.
  destruct v; simpl; try (split; [discriminate | intros Hv; discriminate]).
  rewrite String.eqb_eq. split; [now intros -> | intros Hv; now inversion Hv].
Qed.

Lemma is_dict_object (v : json_value) :
  is_dict v = true <-> exists d, v = JObject d.
Proof.
  split.
  - destruct v; try discriminate. intros _. now eexists.
  - now intros [d ->].
Qed.

(** On a ledger that is a dictionary, [getitem] is the lookup. *)
Lemma getitem_object (d : gmap string json_value) (f : string) (v : json_value) :
  getitem (JObject d) f = inr v <-> d !! f = Some v.
Proof.
  simpl. destruct (d !! f) as [x|]; split; intros Heq;
    inversion Heq; reflexivity.
Qed.

Lemma is_processed_run (f : Path) (s : State) (d : gmap string json_value) :
  processed_files s = JObject d ->
  is_processed f s
  = (match d !! f with
     | None => inr false
     | Some stored =>
         match read_bytes f with
         | inl e => inl e
         | inr b => inr (eq_str stored (md5_hexdigest b))
         end
     end, s).
Proof.
  intros Hd. unfold is_processed, name, bind, gets, lift, ret. simpl.
  rewrite Hd. simpl.
  destruct (d !! f) as [stored|]; simpl; [|reflexivity].
  rewrite calculate_hash_run. now destruct (read_bytes f).
Qed.

Lemma mark_processed_run (f : Path) (s : State) (d : gmap string json_value) :
  processed_files s = JObject d ->
  mark_processed f s
  = match read_bytes f with
    | inl e => (inl e, s)
    | inr b =>
        (inr tt,
         exec _save
           (set_processed_files (JObject (<[f := JString (md5_hexdigest b)]> d)) s))
    end.
Proof.
  intros Hd. unfold mark_processed, name, bind. rewrite calculate_hash_run.
  destruct (read_bytes f) as [e|b]; [reflexivity|].
  unfold gets, lift, modify. simpl. rewrite Hd. simpl.
  set (s1 := set_processed_files _ s).
  pose proof (save_returns s1) as Hr. unfold eval in Hr. unfold exec.
  destruct (_save s1) as [r s2]. simpl in *. now subst r.
Qed.

(** [mark_processed] on any ledger: the assignment decides. *)
Lemma mark_processed_effect (f : Path) (s : State) :
  mark_processed f s
  = match read_bytes f with
    | inl e => (inl e, s)
    | inr b =>
        match setitem (processed_files s) f (JString (md5_hexdigest b)) with
        | inl e => (inl e, s)
        | inr v => (inr tt, exec _save (set_processed_files v s))
        end
    end.
Proof.
  unfold mark_processed, name, bind. rewrite calculate_hash_run.
  destruct (read_bytes f) as [e|b]; [reflexivity|].
  unfold gets, lift, modify. simpl.
  destruct (setitem (processed_files s) f (JString (md5_hexdigest b)))
    as [e|v]; [reflexivity|].
  set (s1 := set_processed_files _ s).
  pose proof (save_returns s1) as Hr. unfold eval in Hr. unfold exec.
  destruct (_save s1) as [r s2]. simpl in *. now subst r.
Qed.

(** What [is_processed] returns or raises depends on the ledger only, and
    it changes nothing. *)
Lemma is_processed_frame (f : Path) (s s' : State) :
  processed_files s = processed_files s' ->
  is_processed f s' = (eval (is_processed f) s, s').
Proof.
  intros Hled. unfold eval, is_processed, name, bind, gets, lift, ret. simpl.
  rewrite <- Hled.
  destruct (contains (processed_files s) f) as [e|[|]]; simpl; try reflexivity.
  rewrite !calculate_hash_run. destruct (read_bytes f) as [e|b]; [reflexivity|].
  simpl. now destruct (getitem (processed_files s) f).
Qed.

(** A ledger that is not a dictionary takes no entry: [mark_processed]
    raises, the error of the read or else a [TypeError], and changes
    nothing. *)
Lemma mark_processed_not_dict (f : Path) (s : State) :
  is_dict (processed_files s) = false ->
  exists e, mark_processed f s = (inl e, s)
            /\ forall b, read_bytes f = inr b -> exists msg, e = TypeError msg.
Proof.
  intros Hv. unfold mark_processed, name, bind. rewrite calculate_hash_run.
  destruct (read_bytes f) as [e|b].
  - exists e. split; [reflexivity | discriminate].
  - unfold gets, lift. simpl.
    destruct (processed_files s); try discriminate; simpl;
      eexists; (split; [reflexivity|]); intros ? _; eexists; reflexivity.
Qed.

(** On a ledger that is not iterable the test [in] raises. *)
Lemma is_processed_not_iterable (f : Path) (s : State) :
  iterable (processed_files s) = false ->
  exists msg, is_processed f s = (inl (TypeError msg), s).
Proof.
  intros Hv. unfold is_processed, name, bind, gets, lift. simpl.
  destruct (processed_files s); try discriminate; simpl;
    eexists; reflexivity.
Qed.

(** A file is tracked in [s] when the ledger is a dictionary that holds the
    hash of its bytes. *)
Lemma holds_is_processed_dict (f : Path) (s : State) (d : gmap string json_value) :
  processed_files s = JObject d ->
  holds (is_processed f) s = true
  <-> exists b, read_bytes f = inr b
                /\ d !! f = Some (JString (md5_hexdigest b)).
Proof.
  intros Hd. unfold holds, eval. rewrite (is_processed_run f s d Hd). simpl.
  split.
  - destruct (d !! f) as [stored|]; [|discriminate].
    destruct (read_bytes f) as [e|b]; [discriminate|].
    destruct (eq_str stored (md5_hexdigest b)) eqn:Heq; [|discriminate].
    apply eq_str_true in Heq. subst stored. intros _. now exists b.
  - intros [b [Hb Hl]]. rewrite Hl, Hb. simpl. now rewrite String.eqb_refl.
Qed.

Lemma holds_is_processed (f : Path) (s : State) :
  holds (is_processed f) s = true
  <-> exists d b, processed_files s = JObject d
                  /\ read_bytes f = inr b
                  /\ d !! f = Some (JString (md5_hexdigest b)).
Proof.
  split.
  - intros Hf. destruct (processed_files s) as [| | | | t|items|d] eqn:Hv.
    1-6: exfalso; revert Hf; unfold holds, eval, is_processed, name, bind,
           gets, lift, ret; simpl; rewrite Hv; simpl.
    1-4: discriminate.
    + destruct (occurs f t); simpl; [|discriminate].
      rewrite calculate_hash_run. destruct (read_bytes f); discriminate.
    + destruct (existsb _ items); simpl; [|discriminate].
      rewrite calculate_hash_run. destruct (read_bytes f); discriminate.
    + destruct (proj1 (holds_is_processed_dict f s d Hv) Hf) as [b [Hb Hl]].
      now exists d, b.
  - intros (d & b & Hd & Hb & Hl).
    apply (holds_is_processed_dict f s d Hd). now exists b.
Qed.

Lemma get_unprocessed_loop_run (s : State) (d : gmap string json_value)
    (files acc : list Path) :
  processed_files s = JObject d ->
  (forall f, In f files -> exists b, read_bytes f = inr b) ->
  get_unprocessed_loop files acc s
  = (inr (acc ++ List.filter (fun f => negb (holds (is_processed f) s)) files), s).
Proof.
  intros Hd.
  revert acc; induction files as [|f files IH]; intros acc Hread; simpl.
  - unfold ret. now rewrite app_nil_r.
  - destruct (Hread f (or_introl eq_refl)) as [b Hb].
    unfold bind. unfold holds at 1, eval. rewrite (is_processed_run f s d Hd).
    simpl. rewrite Hb.
    assert (Hrest : forall g, In g files -> exists b, read_bytes g = inr b)
      by (intros g Hg; apply Hread; now right).
    destruct (d !! f) as [stored|]; simpl.
    + rewrite IH by exact Hrest.
      destruct (eq_str stored (md5_hexdigest b)); simpl; [reflexivity|].
      now rewrite <- app_assoc.
    + rewrite IH by exact Hrest. now rewrite <- app_assoc.
Qed.

End TrackerFacts.

Section LedgerFacts.
Context `{Hashlib} `{Json} `{Disk}.

Lemma glob_filter (suffix : string) :
  glob suffix = List.filter (fun n => endswith n suffix) listdir.
Proof.
  unfold glob. induction listdir as [|n l IH]; [reflexivity|].
  rewrite filter_cons.
  destruct (decide (endswith n suffix = true)) as [Ht|Hf]; simpl.
  - now rewrite Ht, IH.
  - destruct (endswith n suffix); [congruence | exact IH].
Qed.

Lemma get_unprocessed_loop_empty (s : State) (files acc : list Path) :
  processed_files s = JObject ∅ ->
  get_unprocessed_loop files acc s = (inr (acc ++ files), s).
Proof.
  intros Hempty. revert acc; induction files as [|f files IH]; intros acc; simpl.
  - unfold ret. now rewrite app_nil_r.
  - unfold bind. rewrite (is_processed_run f s ∅ Hempty), lookup_empty. simpl.
    rewrite IH. now rewrite <- app_assoc.
Qed.

Lemma load_corrupt (s : State) :
  (tracking_file s = Unreadable
   \/ exists t e, tracking_file s = Contents t /\ json_load t = inl e) ->
  _load s = (inr (JObject ∅), s).
Proof.
  unfold _load, bind, gets, try_except, open_read, lift, raise, ret. simpl.
  intros [Hu | [t [e [Ht He]]]].
  - now rewrite Hu.
  - rewrite Ht. simpl. now rewrite He.
Qed.

(** What the handler of [_load] covers: when the tracking file cannot be
    read or is not JSON, the tracker starts from the empty ledger, reports
    every file as not processed and has the sweep index every document. *)
Lemma unparseable_ledger_is_empty (s : State) :
  (tracking_file s = Unreadable
   \/ exists t e, tracking_file s = Contents t /\ json_load t = inl e) ->
  _load s = (inr (JObject ∅), s)
  /\ eval __init__ s = inr tt
  /\ processed_files (exec __init__ s) = JObject ∅
  /\ (forall f, is_processed f (exec __init__ s) = (inr false, exec __init__ s))
  /\ get_unprocessed_files (exec __init__ s)
     = (inr (glob ".pdf"), exec __init__ s).
Proof.
  intros Hbad. pose proof (load_corrupt s Hbad) as Hload.
  assert (Hinit : __init__ s = (inr tt, set_processed_files (JObject ∅) s)).
  { unfold __init__, bind. rewrite Hload. reflexivity. }
  unfold eval, exec. rewrite Hinit. simpl.
  split; [exact Hload|]. split; [reflexivity|]. split; [reflexivity|]. split.
  - intros f.
    rewrite (is_processed_run f (set_processed_files (JObject ∅) s) ∅ eq_refl).
    now rewrite lookup_empty.
  - unfold get_unprocessed_files. now rewrite get_unprocessed_loop_empty.
Qed.

End LedgerFacts.

(** C4, as the code has it.  When every listed document can be read,
    [get_unprocessed_files] returns the entries of the directory that match
    [*.pdf], in the order in which the directory enumeration yields them,
    filtered to those for which [is_processed] is false.  The ledger is a
    dictionary here, as in every state the tracker itself has written. *)
Theorem C4_unprocessed_in_enumeration_order
    `{Hashlib} `{Disk} (s : State) :
  is_dict (processed_files s) = true ->
  (forall f, In f (glob ".pdf") -> exists b, read_bytes f = inr b) ->
  get_unprocessed_files s
  = (inr (List.filter (fun f => negb (holds (is_processed f) s))
                      (List.filter (fun n => endswith n ".pdf") listdir)), s).
Proof.
  intros Hdict Hread. apply is_dict_object in Hdict as [d Hd].
  unfold get_unprocessed_files.
  rewrite (get_unprocessed_loop_run s d) by assumption. simpl.
  now rewrite glob_filter.
Qed.

Lemma C4_unprocessed_in_enumeration_order_witness :
  @get_unprocessed_files length_digest two_pdfs fresh
  = (inr ["b.pdf"; "a.pdf"], fresh).
Proof.
  rewrite (@C4_unprocessed_in_enumeration_order length_digest two_pdfs fresh).
  - reflexivity.
  - reflexivity.
  - intros f Hf. unfold glob in Hf. vm_compute in Hf.
    destruct Hf as [<- | [<- | []]]; eexists; reflexivity.
Defined.

(** C4 as stated fails: a directory enumerated as b.pdf, a.pdf is reported in
    that order, which is not the lexicographic one. *)
Lemma C4_order_is_not_lexicographic :
  eval (@get_unprocessed_files length_digest two_pdfs) fresh
  = inr ["b.pdf"; "a.pdf"]
  /\ String.ltb "a.pdf" "b.pdf" = true.
Proof. split; vm_compute; reflexivity. Qed.


(** ** The vector collection *)

Section CollectionFacts.
Implicit Types (c : gmap string DocumentRecord) (r : string * DocumentRecord).

Lemma set_collection_same (s : State) : set_collection (collection s) s = s.
Proof. now destruct s. Qed.

Lemma add_entry_present c r (k : string) :
  is_Some (c !! k) -> is_Some (add_entry c r !! k).
Proof.
  intros Hk. unfold add_entry. destruct (c !! r.1) eqn:Hr; [exact Hk|].
  destruct (decide (r.1 = k)) as [<-|Hne].
  - rewrite Hr in Hk. now destruct Hk.
  - now rewrite lookup_insert_ne.
Qed.

Lemma add_entry_key c r : is_Some (add_entry c r !! r.1).
Proof.
  unfold add_entry. destruct (c !! r.1) eqn:Hr.
  - rewrite Hr. eauto.
  - rewrite lookup_insert_eq. eauto.
Qed.

Lemma add_entries_present c (b : list (string * DocumentRecord)) (k : string) :
  is_Some (c !! k) -> is_Some (foldl add_entry c b !! k).
Proof.
  revert c; induction b as [|r b IH]; intros c Hk; simpl; [exact Hk|].
  apply IH. now apply add_entry_present.
Qed.

Lemma add_entries_keys c (b : list (string * DocumentRecord)) r :
  In r b -> is_Some (foldl add_entry c b !! r.1).
Proof.
  revert c; induction b as [|r' b IH]; intros c; simpl; [tauto|].
  intros [-> | Hin].
  - apply add_entries_present, add_entry_key.
  - now apply IH.
Qed.

(** Writing under ids that are all present changes nothing. *)
Lemma add_entries_absorbed c (b : list (string * DocumentRecord)) :
  (forall r, In r b -> is_Some (c !! r.1)) -> foldl add_entry c b = c.
Proof.
  induction b as [|r b IH]; intros Hb; simpl; [reflexivity|].
  assert (Hr : add_entry c r = c).
  { unfold add_entry. destruct (Hb r (or_introl eq_refl)) as [x Hx].
    now rewrite Hx. }
  rewrite Hr. apply IH. intros r' Hr'. apply Hb. now right.
Qed.

Lemma add_entries_twice c (b : list (string * DocumentRecord)) :
  foldl add_entry (foldl add_entry c b) b = foldl add_entry c b.
Proof. apply add_entries_absorbed. intros r Hr. now apply add_entries_keys. Qed.

Lemma in_entries_id (ids documents : list string) (vectors : list (list float))
    (metadatas : list Metadata) r :
  In r (entries ids documents vectors metadatas) -> In r.1 ids.
Proof.
  revert documents vectors metadatas.
  induction ids as [|i ids IH]; intros [|d ds] [|v vs] [|m ms]; simpl;
    try tauto.
  intros [<- | Hin]; [now left | right; eauto].
Qed.

End CollectionFacts.

(** ** Ingestion of one file *)

Section PrepareFacts.
Context `{Ollama}.

Lemma fold_left_invariant {A B} (P : A -> Prop) (f : A -> B -> A) (l : list B) :
  (forall acc x, In x l -> P acc -> P (f acc x)) ->
  forall init, P init -> P (fold_left f l init).
Proof.
  induction l as [|x l IH]; intros Hf init Hinit; simpl; [exact Hinit|].
  apply IH.
  - intros acc y Hy. apply Hf. now right.
  - apply Hf; [now left | exact Hinit].
Qed.

Lemma in_enumerate {A} (l : list A) (i : nat) (x : A) :
  In (i, x) (enumerate l) -> i < length l.
Proof.
  unfold enumerate. intros Hin.
  apply (in_map fst) in Hin. simpl in Hin.
  assert (Hsub : forall (a b : list nat) (c : list A) n,
             In n (map fst (zip a c)) -> In n a).
  { clear. intros a. induction a as [|y a IH]; intros b [|z c] n; simpl;
      try tauto. intros [<-|Hn]; [now left | right; eauto]. }
  apply (Hsub _ [] _ _) in Hin. apply in_seq in Hin. lia.
Qed.

Lemma prepare_invariant (file_hash file_name : string) (all_chunks : list Chunk) :
  let p := prepare file_hash file_name all_chunks in
  balanced p /\ well_named file_hash (length all_chunks) p.
Proof.
  unfold prepare.
  apply (fold_left_invariant
           (fun p => balanced p /\ well_named file_hash (length all_chunks) p)).
  - intros acc [idx chunk] Hin [Hbal Hnamed]. unfold prepare_chunk.
    destruct (truthy (strip (text chunk))); simpl; [|now split].
    destruct (generate_embedding (strip (text chunk))) as [e|v]; [now split|].
    destruct (nonempty v); simpl; [|now split].
    split.
    + destruct Hbal as (Hd & Hv & Hm). unfold balanced. simpl.
      rewrite !length_app. simpl. lia.
    + intros id. simpl. rewrite in_app_iff. simpl.
      intros [Hid | [<- | []]]; [now apply Hnamed|].
      exists idx. split; [now apply in_enumerate in Hin | reflexivity].
  - split; [now unfold balanced | intros id []].
Qed.

Lemma collection_add_run (p : Prepared) (s : State) :
  balanced p ->
  collection_add (documents p) (vectors p) (ids p) (metadatas p) s
  = (inr tt,
     set_collection
       (foldl add_entry (collection s)
              (entries (ids p) (documents p) (vectors p) (metadatas p))) s).
Proof.
  intros (Hd & Hv & Hm). unfold collection_add.
  rewrite Hd, Hv, Hm, !Nat.eqb_refl. reflexivity.
Qed.

End PrepareFacts.

Section IngestionFacts.
Context `{Hashlib} `{Json} `{Disk} `{PyPDF2} `{Fitz} `{Ollama}.

(** Whether [process_single_pdf] raises, what it returns and the batch it
    writes do not depend on the state it starts in. *)
Lemma process_single_pdf_run (f : Path) (h : string) :
  (exists e, forall s, process_single_pdf f h s = (inl e, s))
  \/ (exists n b,
        (forall r, In r b -> exists m, hash_ordinal h m r.1)
        /\ forall s, process_single_pdf f h s
                     = (inr n, set_collection (foldl add_entry (collection s) b) s)).
Proof.
  unfold process_single_pdf. run.
  destruct (read_bytes f) as [e|content];
    [left; exists e; intros s; reflexivity|].
  destruct (extract_text_from_pdf_bytes content) as [e|tc];
    [left; exists e; intros s; reflexivity|].
  destruct (extract_images_from_pdf_bytes content) as [e|ic];
    [left; exists e; intros s; reflexivity|].
  right.
  destruct (nonempty (tc ++ ic)); simpl.
  - destruct (prepare_invariant h (name f) (tc ++ ic)) as [Hbal Hnamed].
    set (p := prepare h (name f) (tc ++ ic)) in *.
    destruct (nonempty (documents p) && nonempty (vectors p)).
    + exists (length (documents p)),
             (entries (ids p) (documents p) (vectors p) (metadatas p)).
      split.
      * intros r Hr. exists (length (tc ++ ic)).
        apply Hnamed. eapply in_entries_id, Hr.
      * intros s. now rewrite collection_add_run.
    + exists 0, []. split; [intros r []|].
      intros s. simpl. now rewrite set_collection_same.
  - exists 0, []. split; [intros r []|].
    intros s. simpl. now rewrite set_collection_same.
Qed.

(** The same for the body of the loop of [upload_pdfs]; a file that is
    skipped or yields nothing leaves the counters as they are. *)
Lemma upload_file_run (file : UploadFile) :
  (exists e, forall cnt s, upload_file file cnt s = (inl e, s))
  \/ (exists b (step : nat * nat -> nat * nat),
        forall cnt s, upload_file file cnt s
                      = (inr (step cnt),
                         set_collection (foldl add_entry (collection s) b) s)).
Proof.
  unfold upload_file.
  destruct (upload_filename file) as [file_name|].
  2:{ right. exists [], (fun cnt => cnt). intros [t p] s. run.
      now rewrite set_collection_same. }
  destruct (negb (truthy file_name) || negb (endswith file_name ".pdf")).
  { right. exists [], (fun cnt => cnt). intros [t p] s. run.
    now rewrite set_collection_same. }
  run.
  destruct (extract_text_from_pdf_bytes (upload_content file)) as [e|tc];
    [left; exists e; intros [t p] s; reflexivity|].
  destruct (extract_images_from_pdf_bytes (upload_content file)) as [e|ic];
    [left; exists e; intros [t p] s; reflexivity|].
  destruct (nonempty (tc ++ ic)); simpl.
  - set (h := md5_hexdigest (upload_content file)).
    destruct (prepare_invariant h file_name (tc ++ ic)) as [Hbal _].
    set (p := prepare h file_name (tc ++ ic)) in *.
    destruct (nonempty (documents p) && nonempty (vectors p)).
    + right.
      exists (entries (ids p) (documents p) (vectors p) (metadatas p)),
             (fun cnt => (cnt.1 + length (documents p), cnt.2 + 1)).
      intros [t q] s. now rewrite collection_add_run.
    + right. exists [], (fun cnt => cnt). intros [t q] s. simpl.
      now rewrite set_collection_same.
  - left. eexists. intros [t p] s. reflexivity.
Qed.

End IngestionFacts.

Section Reingestion.
Context `{Hashlib} `{Json} `{Disk} `{PyPDF2} `{Fitz} `{Ollama}.

Lemma add_entries_origin (c : gmap string DocumentRecord)
    (b : list (string * DocumentRecord)) (k : string) :
  is_Some (foldl add_entry c b !! k) ->
  is_Some (c !! k) \/ exists r, In r b /\ r.1 = k.
Proof.
  revert c; induction b as [|r b IH]; intros c; simpl; [tauto|].
  intros Hk. destruct (IH _ Hk) as [Hc | [r' [Hin Hr']]].
  - unfold add_entry in Hc. destruct (c !! r.1) eqn:Hr; [now left|].
    destruct (decide (r.1 = k)) as [Heq|Hne].
    + right. exists r. split; [now left | exact Heq].
    + rewrite lookup_insert_ne in Hc by exact Hne. now left.
  - right. exists r'. split; [now right | exact Hr'].
Qed.

Lemma upload_loop_grows (files : list UploadFile) (cnt : nat * nat)
    (s : State) (k : string) :
  is_Some (collection s !! k) ->
  is_Some (collection (exec (upload_loop files cnt) s) !! k).
Proof.
  revert cnt s; induction files as [|file files IH]; intros cnt s Hk;
    [exact Hk|].
  unfold exec. simpl. unfold bind.
  destruct (upload_file_run file) as [[e He] | [b [step Hb]]].
  - rewrite He. exact Hk.
  - rewrite Hb. apply IH. simpl. now apply add_entries_present.
Qed.

(** Running the loop again over the same files, from a state that holds
    every id the first run left, writes nothing. *)
Lemma upload_loop_absorbed (files : list UploadFile) :
  forall (cnt cnt' : nat * nat) (s s' : State),
    (forall k, is_Some (collection (exec (upload_loop files cnt) s) !! k) ->
               is_Some (collection s' !! k)) ->
    collection (exec (upload_loop files cnt') s') = collection s'.
Proof.
  induction files as [|file files IH]; intros cnt cnt' s s' Hsub;
    [reflexivity|].
  unfold exec in *. simpl in *. unfold bind in *.
  destruct (upload_file_run file) as [[e He] | [b [step Hb]]].
  - now rewrite He.
  - rewrite Hb in *.
    assert (Hsame : foldl add_entry (collection s') b = collection s').
    { apply add_entries_absorbed. intros r Hr. apply Hsub.
      fold (exec (upload_loop files (step cnt))
              (set_collection (foldl add_entry (collection s) b) s)).
      apply upload_loop_grows. simpl. now apply add_entries_keys. }
    rewrite Hsame, set_collection_same.
    eapply IH. exact Hsub.
Qed.

Lemma upload_pdfs_exec (files : list UploadFile) (s : State) :
  exec (upload_pdfs files) s = exec (upload_loop files (0, 0)) s.
Proof.
  unfold exec, upload_pdfs. run.
  destruct (upload_loop files (0, 0) s) as [[e|[t p]] s1]; simpl.
  - now destruct (is_HTTPException e).
  - now destruct (p =? 0).
Qed.

End Reingestion.

(** C2.  Ingesting the same file a second time, through [process_single_pdf]
    or through [upload_pdfs], leaves the collection as the first ingestion
    left it, so [count()] is unchanged; the ids written for a file are its
    hash followed by the ordinal of a chunk. *)
Theorem C2_reingestion_is_idempotent
    `{Hashlib} `{Json} `{Disk} `{PyPDF2} `{Fitz} `{Ollama} :
  (forall (f : Path) (h : string) (s : State),
     let s1 := exec (process_single_pdf f h) s in
     let s2 := exec (process_single_pdf f h) s1 in
     collection s2 = collection s1
     /\ eval collection_count s2 = eval collection_count s1
     /\ eval (process_single_pdf f h) s1 = eval (process_single_pdf f h) s
     /\ forall id, is_Some (collection s1 !! id) ->
          is_Some (collection s !! id) \/ exists m, hash_ordinal h m id)
  /\ (forall (files : list UploadFile) (s : State),
        let s1 := exec (upload_pdfs files) s in
        let s2 := exec (upload_pdfs files) s1 in
        collection s2 = collection s1
        /\ eval collection_count s2 = eval collection_count s1).
Proof.
  split.
  - intros f h s s1 s2. subst s1 s2. unfold exec, eval.
    destruct (process_single_pdf_run f h) as [[e He] | [n [b [Hnamed Hb]]]].
    + repeat (rewrite He; simpl).
      split; [reflexivity|]. split; [reflexivity|]. split; [reflexivity|].
      intros id Hid. now left.
    + repeat (rewrite Hb; simpl). rewrite add_entries_twice.
      split; [reflexivity|]. split; [reflexivity|]. split; [reflexivity|].
      intros id Hid. apply add_entries_origin in Hid as [Hc | [r [Hin <-]]];
        [now left | right; now apply Hnamed].
  - intros files s s1 s2.
    assert (Hsame : collection s2 = collection s1).
    { subst s2. rewrite upload_pdfs_exec.
      apply (upload_loop_absorbed files (0, 0) (0, 0) s s1).
      intros k Hk. subst s1. now rewrite upload_pdfs_exec. }
    split; [exact Hsame|]. unfold eval, collection_count, gets. simpl.
    now rewrite Hsame.
Qed.

(** ** The startup sweep *)

Section SweepFacts.
Context `{Hashlib} `{Json} `{Disk} `{PyPDF2} `{Fitz} `{Ollama}.

Lemma process_single_pdf_ledger (f : Path) (h : string) (s : State) :
  processed_files (exec (process_single_pdf f h) s) = processed_files s.
Proof.
  unfold exec.
  destruct (process_single_pdf_run f h) as [[e He] | [n [b [_ Hb]]]].
  - now rewrite He.
  - now rewrite Hb.
Qed.

Lemma process_single_pdf_eval (f : Path) (h : string) (s s' : State) :
  eval (process_single_pdf f h) s = eval (process_single_pdf f h) s'.
Proof.
  unfold eval.
  destruct (process_single_pdf_run f h) as [[e He] | [n [b [_ Hb]]]].
  - now rewrite !He.
  - now rewrite !Hb.
Qed.

(** One turn of the loop of the sweep never raises; the ledger changes
    exactly when the file can be read, [process_single_pdf] returns and the
    assignment [processed_files[name] = hash] succeeds. *)
Lemma sweep_file_effect (i : nat) (f : Path) (s : State) :
  let s' := exec (sweep_file (i, f)) s in
  eval (sweep_file (i, f)) s = inr tt
  /\ match read_bytes f with
     | inl _ => processed_files s' = processed_files s
     | inr b =>
         match eval (process_single_pdf f (md5_hexdigest b)) s with
         | inl _ => processed_files s' = processed_files s
         | inr _ =>
             match setitem (processed_files s) f (JString (md5_hexdigest b)) with
             | inl _ => processed_files s' = processed_files s
             | inr v => processed_files s' = v
             end
         end
     end.
Proof.
  unfold exec, eval, sweep_file, set_status. run.
  set (s1 := set_processing_status _ (set_processing_status _ s)).
  assert (Hs1 : processed_files s1 = processed_files s) by reflexivity.
  rewrite calculate_hash_run.
  destruct (read_bytes f) as [e|b] eqn:Hread; simpl; [now split|].
  pose proof (process_single_pdf_eval f (md5_hexdigest b) s s1) as Heval.
  pose proof (process_single_pdf_ledger f (md5_hexdigest b) s1) as Hled.
  unfold eval, exec in Heval, Hled. rewrite Heval.
  destruct (process_single_pdf f (md5_hexdigest b) s1) as [[e|n] s2];
    simpl in *; [split; [reflexivity | congruence]|].
  rewrite mark_processed_effect, Hread.
  assert (Hs2 : processed_files s2 = processed_files s) by congruence.
  rewrite Hs2.
  destruct (setitem (processed_files s) f (JString (md5_hexdigest b)))
    as [e|v]; simpl; [split; [reflexivity | exact Hs2]|].
  split; [reflexivity|].
  now destruct (save_keeps (set_processed_files v s2)) as [-> _].
Qed.

(** A file is tracked when [is_processed] returns [True] for it. *)
Lemma tracked_insert (f g : Path) (b : bytes) (s s' : State)
    (d : gmap string json_value) :
  read_bytes f = inr b ->
  processed_files s = JObject d ->
  processed_files s' = JObject (<[f := JString (md5_hexdigest b)]> d) ->
  holds (is_processed g) s = true \/ g = f ->
  holds (is_processed g) s' = true.
Proof.
  intros Hread Hd Hs' Hg. apply holds_is_processed.
  destruct (decide (g = f)) as [->|Hne].
  - exists (<[f := JString (md5_hexdigest b)]> d), b.
    split; [exact Hs'|]. split; [exact Hread | apply lookup_insert_eq].
  - destruct Hg as [Hg|Hg]; [|contradiction].
    apply holds_is_processed in Hg as (d0 & b' & Hd0 & Hb' & Hl).
    assert (d0 = d) by congruence. subst d0.
    exists (<[f := JString (md5_hexdigest b)]> d), b'.
    split; [exact Hs'|]. split; [exact Hb'|].
    rewrite lookup_insert_ne by congruence. exact Hl.
Qed.

Lemma tracked_same_ledger (g : Path) (s s' : State) :
  processed_files s' = processed_files s ->
  holds (is_processed g) s = true -> holds (is_processed g) s' = true.
Proof.
  intros Hs' Hg. apply holds_is_processed.
  apply holds_is_processed in Hg as (d & b & Hd & Hb & Hl).
  exists d, b. now rewrite Hs'.
Qed.

Lemma sweep_file_keeps (i : nat) (f g : Path) (s : State) :
  holds (is_processed g) s = true ->
  holds (is_processed g) (exec (sweep_file (i, f)) s) = true.
Proof.
  intros Hg. destruct (sweep_file_effect i f s) as [_ Hled].
  destruct (proj1 (holds_is_processed g s) Hg) as (d & _ & Hd & _).
  destruct (read_bytes f) as [e|b] eqn:Hread.
  - now apply (tracked_same_ledger g s).
  - destruct (eval (process_single_pdf f (md5_hexdigest b)) s).
    + now apply (tracked_same_ledger g s).
    + rewrite Hd in Hled. simpl in Hled.
      apply (tracked_insert f g b s _ d); auto.
Qed.

Lemma sweep_file_marks (i : nat) (f : Path) (b : bytes) (n : nat) (s : State) :
  is_dict (processed_files s) = true ->
  read_bytes f = inr b ->
  eval (process_single_pdf f (md5_hexdigest b)) s = inr n ->
  holds (is_processed f) (exec (sweep_file (i, f)) s) = true.
Proof.
  intros Hdict Hread Hrun. apply is_dict_object in Hdict as [d Hd].
  destruct (sweep_file_effect i f s) as [_ Hled].
  rewrite Hread, Hrun, Hd in Hled. simpl in Hled.
  apply (tracked_insert f f b s _ d); auto.
Qed.

(** One turn of the loop leaves a dictionary a dictionary, and any other
    ledger as it is. *)
Lemma sweep_file_shape (i : nat) (f : Path) (s : State) :
  let s' := exec (sweep_file (i, f)) s in
  (is_dict (processed_files s) = true -> is_dict (processed_files s') = true)
  /\ (is_dict (processed_files s) = false -> processed_files s' = processed_files s).
Proof.
  intros s'. destruct (sweep_file_effect i f s) as [_ Hled].
  change (exec (sweep_file (i, f)) s) with s' in Hled.
  destruct (read_bytes f) as [e|b]; [rewrite Hled; tauto|].
  destruct (eval (process_single_pdf f (md5_hexdigest b)) s);
    [rewrite Hled; tauto|].
  destruct (processed_files s); simpl in Hled; rewrite Hled; simpl;
    split; congruence.
Qed.

Lemma sweep_loop_effect (ips : list (nat * Path)) (s : State) :
  eval (for_each ips sweep_file) s = inr tt
  /\ (forall g, holds (is_processed g) s = true ->
                holds (is_processed g) (exec (for_each ips sweep_file) s) = true)
  /\ (is_dict (processed_files s) = true ->
      forall i f b n,
        In (i, f) ips -> read_bytes f = inr b ->
        eval (process_single_pdf f (md5_hexdigest b)) s = inr n ->
        holds (is_processed f) (exec (for_each ips sweep_file) s) = true)
  /\ (is_dict (processed_files s) = false ->
      processed_files (exec (for_each ips sweep_file) s) = processed_files s).
Proof.
  revert s; induction ips as [|[i f] ips IH]; intros s.
  - split; [reflexivity|]. split; [auto|].
    split; [intros _ i f b n []|reflexivity].
  - destruct (sweep_file_effect i f s) as [Hret _].
    destruct (sweep_file_shape i f s) as [Hdict Hother].
    assert (Hstep : for_each ((i, f) :: ips) sweep_file s
                    = for_each ips sweep_file (exec (sweep_file (i, f)) s)).
    { change (for_each ((i, f) :: ips) sweep_file s)
        with (bind (sweep_file (i, f)) (fun _ => for_each ips sweep_file) s).
      unfold bind, eval, exec in *.
      destruct (sweep_file (i, f) s) as [r s1]. simpl in *. now subst r. }
    unfold eval, exec in *. rewrite Hstep.
    destruct (IH (sweep_file (i, f) s).2) as (IHret & IHkeep & IHmark & IHother).
    unfold eval, exec in *.
    split; [exact IHret|]. split; [|split].
    + intros g Hg. apply IHkeep. now apply sweep_file_keeps.
    + intros Hd j g b n [Heq | Hin] Hread Hrun.
      * inversion Heq; subst j g. apply IHkeep.
        now apply (sweep_file_marks i f b n s).
      * apply (IHmark (Hdict Hd) j g b n); auto.
        rewrite <- Hrun. apply process_single_pdf_eval.
    + intros Hnd. rewrite IHother; rewrite (Hother Hnd); auto.
Qed.

End SweepFacts.

Section SweepRun.
Context `{Hashlib} `{Json} `{Disk} `{PyPDF2} `{Fitz} `{Ollama}.

(** Scanning the directory changes nothing, and what it returns depends
    on the ledger only. *)
Lemma get_unprocessed_loop_frame (files acc : list Path) (s s' : State) :
  processed_files s = processed_files s' ->
  get_unprocessed_loop files acc s' = (eval (get_unprocessed_loop files acc) s, s').
Proof.
  intros Hled. revert acc; induction files as [|f files IH]; intros acc;
    [reflexivity|].
  unfold eval. simpl. unfold bind.
  rewrite (is_processed_frame f s s' Hled), (is_processed_frame f s s eq_refl).
  destruct (eval (is_processed f) s) as [e|p]; [reflexivity|]. apply IH.
Qed.

Lemma in_enumerate_exists {A} (l : list A) (x : A) :
  In x l -> exists i, In (i, x) (enumerate l).
Proof.
  unfold enumerate. generalize 0.
  induction l as [|y l IH]; intros n; simpl; [tauto|].
  intros [-> | Hin].
  - exists n. now left.
  - destruct (IH (S n) Hin) as [i Hi]. exists i. now right.
Qed.

Local Opaque for_each enumerate.

(** The ledger after a sweep: that of the loop over the files found, run
    from a state with the ledger the sweep started with. *)
Lemma sweep_ledger (s : State) :
  exists s2,
    processed_files s2 = processed_files s
    /\ processed_files (exec process_local_pdfs_background s)
       = match eval get_unprocessed_files s with
         | inr fs => processed_files (exec (for_each (enumerate fs) sweep_file) s2)
         | inl _ => processed_files s
         end.
Proof.
  unfold exec at 1. unfold process_local_pdfs_background, set_status. run.
  set (s1 := set_processing_status _ s).
  unfold get_unprocessed_files.
  rewrite (get_unprocessed_loop_frame (glob ".pdf") [] s s1) by reflexivity.
  destruct (eval (get_unprocessed_loop (glob ".pdf") []) s) as [e|fs]; simpl.
  - exists s. split; reflexivity.
  - destruct fs as [|f fs]; simpl.
    + exists s. split; reflexivity.
    + set (s2 := set_processing_status _ s1).
      exists s2. split; [reflexivity|].
      destruct (sweep_loop_effect (enumerate (f :: fs)) s2) as [Hret _].
      unfold eval, exec in *.
      destruct (for_each (enumerate (f :: fs)) sweep_file s2) as [r s3].
      simpl in *. subst r. reflexivity.
Qed.

Local Transparent for_each enumerate.

Lemma sweep_keeps (g : Path) (s : State) :
  holds (is_processed g) s = true ->
  holds (is_processed g) (exec process_local_pdfs_background s) = true.
Proof.
  intros Hg. destruct (sweep_ledger s) as [s2 [Hs2 Hled]].
  destruct (eval get_unprocessed_files s) as [e|fs].
  - now apply (tracked_same_ledger g s).
  - apply (tracked_same_ledger g (exec (for_each (enumerate fs) sweep_file) s2));
      [exact Hled|].
    apply sweep_loop_effect. now apply (tracked_same_ledger g s).
Qed.

Lemma sweep_marks (f : Path) (fs : list Path) (b : bytes) (n : nat) (s : State) :
  is_dict (processed_files s) = true ->
  eval get_unprocessed_files s = inr fs -> In f fs ->
  read_bytes f = inr b ->
  eval (process_single_pdf f (md5_hexdigest b)) s = inr n ->
  holds (is_processed f) (exec process_local_pdfs_background s) = true.
Proof.
  intros Hdict Hscan Hin Hread Hrun. destruct (sweep_ledger s) as [s2 [Hs2 Hled]].
  rewrite Hscan in Hled.
  apply (tracked_same_ledger f (exec (for_each (enumerate fs) sweep_file) s2));
    [exact Hled|].
  destruct (in_enumerate_exists fs f Hin) as [i Hi].
  destruct (sweep_loop_effect (enumerate fs) s2) as (_ & _ & Hmark & _).
  rewrite <- Hs2 in Hdict.
  apply (Hmark Hdict i f b n Hi Hread).
  rewrite <- Hrun. apply process_single_pdf_eval.
Qed.

(** A sweep leaves a ledger that is not a dictionary as it is. *)
Lemma sweep_not_dict (s : State) :
  is_dict (processed_files s) = false ->
  processed_files (exec process_local_pdfs_background s) = processed_files s.
Proof.
  intros Hnd. destruct (sweep_ledger s) as [s2 [Hs2 Hled]]. rewrite Hled.
  destruct (eval get_unprocessed_files s) as [e|fs]; [reflexivity|].
  destruct (sweep_loop_effect (enumerate fs) s2) as (_ & _ & _ & Hother).
  rewrite Hother; [exact Hs2 | now rewrite Hs2].
Qed.

(** On a ledger that is not iterable the scan raises at the first document,
    and the sweep, which swallows the error, does nothing but reset the
    processing status. *)
Lemma scan_not_iterable (s : State) :
  iterable (processed_files s) = false ->
  glob ".pdf" <> [] ->
  exists msg, get_unprocessed_files s = (inl (TypeError msg), s).
Proof.
  intros Hv Hne. unfold get_unprocessed_files.
  destruct (glob ".pdf") as [|f files]; [congruence|].
  destruct (is_processed_not_iterable f s Hv) as [msg Hmsg].
  exists msg. simpl. unfold bind. now rewrite Hmsg.
Qed.

Lemma sweep_not_iterable (s : State) :
  iterable (processed_files s) = false ->
  process_local_pdfs_background s = (inr tt, set_processing_status idle s).
Proof.
  intros Hv. unfold process_local_pdfs_background, set_status. run.
  set (s1 := set_processing_status _ s).
  assert (Hv1 : iterable (processed_files s1) = false) by exact Hv.
  unfold get_unprocessed_files.
  destruct (glob ".pdf") as [|f files] eqn:Hglob; [reflexivity|].
  destruct (is_processed_not_iterable f s1 Hv1) as [msg Hmsg].
  simpl. unfold bind. rewrite Hmsg. reflexivity.
Qed.

(** A tracked file is not among the files a scan returns. *)
Lemma tracked_not_unprocessed (f : Path) (fs : list Path) (s : State) :
  holds (is_processed f) s = true ->
  eval get_unprocessed_files s = inr fs -> ~ In f fs.
Proof.
  intros Hf. apply holds_is_processed in Hf as (d & b0 & Hd & Hb0 & Hl0).
  unfold get_unprocessed_files.
  assert (Hgen : forall files acc,
             ~ In f acc ->
             eval (get_unprocessed_loop files acc) s = inr fs -> ~ In f fs).
  { induction files as [|g files IH]; intros acc Hacc.
    - unfold eval. simpl. intros Heq. inversion Heq. now subst.
    - unfold eval. simpl. unfold bind. rewrite (is_processed_run g s d Hd).
      destruct (d !! g) as [stored|] eqn:Hl; simpl.
      + destruct (read_bytes g) as [e|b] eqn:Hr; simpl; [discriminate|].
        destruct (eq_str stored (md5_hexdigest b)) eqn:Heq; simpl;
          [now apply IH|].
        apply IH. rewrite in_app_iff. intros [Ha | [-> | []]];
          [now apply Hacc|].
        rewrite Hl0 in Hl. rewrite Hb0 in Hr.
        inversion Hl; inversion Hr; subst.
        simpl in Heq. now rewrite String.eqb_refl in Heq.
      + apply IH. rewrite in_app_iff. intros [Ha | [-> | []]];
          [now apply Hacc|].
        rewrite Hl0 in Hl. discriminate. }
  apply Hgen. intros [].
Qed.

End SweepRun.

Section LedgerOfEntryPoints.
Context `{Hashlib} `{Json} `{Disk} `{PyPDF2} `{Fitz} `{Ollama}.

Lemma holds_is_processed_run (f : Path) (s : State) :
  holds (is_processed f) s = true -> is_processed f s = (inr true, s).
Proof.
  intros Hf. apply holds_is_processed in Hf as (d & b & Hd & Hb & Hl).
  rewrite (is_processed_run f s d Hd), Hl, Hb. simpl.
  now rewrite String.eqb_refl.
Qed.

(** [upload_pdfs] never touches the ledger. *)
Lemma upload_pdfs_ledger (files : list UploadFile) (s : State) :
  processed_files (exec (upload_pdfs files) s) = processed_files s.
Proof.
  rewrite upload_pdfs_exec. generalize (0, 0). revert s.
  induction files as [|file files IH]; intros s cnt; [reflexivity|].
  unfold exec in *. simpl. unfold bind.
  destruct (upload_file_run file) as [[e He] | [b [step Hb]]].
  - now rewrite He.
  - rewrite Hb. now rewrite IH.
Qed.


(** Sweeps never repair a ledger that is not a dictionary, and on one that
    is not iterable they index nothing. *)
Lemma repeated_sweeps_not_dict (k : nat) (s : State) :
  is_dict (processed_files s) = false ->
  processed_files (repeatedly k process_local_pdfs_background s)
  = processed_files s.
Proof.
  revert s; induction k as [|k IH]; intros s Hnd; simpl; [reflexivity|].
  rewrite IH; rewrite sweep_not_dict; auto.
Qed.

Lemma repeated_sweeps_not_iterable (k : nat) (s : State) :
  iterable (processed_files s) = false ->
  collection (repeatedly k process_local_pdfs_background s) = collection s.
Proof.
  revert s; induction k as [|k IH]; intros s Hv; simpl; [reflexivity|].
  unfold exec. rewrite sweep_not_iterable by exact Hv. simpl.
  now rewrite IH.
Qed.

End LedgerOfEntryPoints.

(** C3, as the code has it.  A file that the startup sweep finds and ingests
    ([process_single_pdf] returns) is marked processed: [is_processed] is
    true for it when the sweep ends.  The upload of an explicit file set
    never calls [mark_processed]: it leaves the ledger as it was.  The
    ledger is a dictionary here, as in every state the tracker itself has
    written. *)
Theorem C3_sweep_marks_ingested_files
    `{Hashlib} `{Json} `{Disk} `{PyPDF2} `{Fitz} `{Ollama}
    (s : State) (f : Path) (fs : list Path) (b : bytes) (n : nat)
    (files : list UploadFile) :
  is_dict (processed_files s) = true ->
  eval get_unprocessed_files s = inr fs ->
  In f fs ->
  read_bytes f = inr b ->
  eval (process_single_pdf f (md5_hexdigest b)) s = inr n ->
  (let s' := exec process_local_pdfs_background s in
   is_processed f s' = (inr true, s'))
  /\ processed_files (exec (upload_pdfs files) s) = processed_files s.
Proof.
  intros Hdict Hscan Hin Hread Hrun. split.
  - apply holds_is_processed_run. now apply (sweep_marks f fs b n s).
  - apply upload_pdfs_ledger.
Qed.

Lemma C3_sweep_marks_ingested_files_witness :
  eval (@is_processed length_digest two_pdfs "a.pdf")
       (exec (@process_local_pdfs_background length_digest empty_object_json
                two_pdfs one_page no_images unit_embedder) fresh)
  = inr true.
Proof.
  unfold eval at 1.
  rewrite (proj1 (@C3_sweep_marks_ingested_files length_digest empty_object_json
             two_pdfs one_page no_images unit_embedder
             fresh "a.pdf" ["b.pdf"; "a.pdf"] [Byte.x25] 1 []
             eq_refl eq_refl (or_intror (or_introl eq_refl)) eq_refl eq_refl)).
  reflexivity.
Defined.

(** C3 as stated fails for the upload: a.pdf is uploaded and indexed, one
    chunk is reported, and [is_processed] is still false for it. *)
Lemma C3_upload_does_not_mark :
  eval (@upload_pdfs length_digest one_page no_images unit_embedder [a_pdf_upload])
       fresh
  = inr {| message := "Successfully processed 1 PDF(s)"; total_chunks := 1 |}
  /\ eval (@is_processed length_digest two_pdfs "a.pdf")
          (exec (@upload_pdfs length_digest one_page no_images unit_embedder
                   [a_pdf_upload]) fresh)
     = inr false.
Proof. split; vm_compute; reflexivity. Qed.



(** C9 fails on the code.  The handler of [_load] covers a tracking file
    that cannot be read or is not JSON (see [unparseable_ledger_is_empty]),
    but a file that holds JSON of another shape than an object (null, a
    list, a string, a number) is loaded as it is: [_load] returns that value
    and the tracker keeps it as its ledger, not the empty ledger.  No file
    can then be marked, [mark_processed] raising a [TypeError], and no sweep
    repairs the ledger.  When the value is not iterable (null, a number, a
    boolean), [is_processed] raises for every file, the scan of a directory
    that holds a document raises, and the sweeps, which swallow the error,
    index nothing: there is no re-index at all. *)
Theorem C9_non_dict_ledger_is_kept
    `{Hashlib} `{Json} `{Disk} `{PyPDF2} `{Fitz} `{Ollama}
    (s : State) (t : string) (v : json_value) :
  tracking_file s = Contents t ->
  json_load t = inr v ->
  is_dict v = false ->
  let s' := exec __init__ s in
  let sweeps := fun k => repeatedly k process_local_pdfs_background s' in
  _load s = (inr v, s)
  /\ eval __init__ s = inr tt
  /\ processed_files s' = v
  /\ (forall f b, read_bytes f = inr b ->
        exists msg, mark_processed f s' = (inl (TypeError msg), s'))
  /\ (forall k, processed_files (sweeps k) = v)
  /\ (iterable v = false ->
      (forall f, exists msg, is_processed f s' = (inl (TypeError msg), s'))
      /\ (glob ".pdf" <> [] ->
          exists msg, get_unprocessed_files s' = (inl (TypeError msg), s'))
      /\ forall k, collection (sweeps k) = collection s).
Proof.
  intros Hfile Hjson Hnd s' sweeps.
  assert (Hload : _load s = (inr v, s)).
  { unfold _load, bind, gets, try_except, open_read, lift, ret. simpl.
    rewrite Hfile. simpl. now rewrite Hjson. }
  assert (Hinit : __init__ s = (inr tt, set_processed_files v s)).
  { unfold __init__, bind. now rewrite Hload. }
  assert (Hs' : s' = set_processed_files v s).
  { subst s'. unfold exec. now rewrite Hinit. }
  assert (Hv : processed_files s' = v) by now rewrite Hs'.
  split; [exact Hload|]. split; [unfold eval; now rewrite Hinit|].
  split; [exact Hv|]. split; [|split].
  - intros f b Hb.
    destruct (mark_processed_not_dict f s') as (e & Hrun & Hte);
      [now rewrite Hv|].
    destruct (Hte b Hb) as [msg ->]. now exists msg.
  - intros k. subst sweeps. simpl.
    rewrite repeated_sweeps_not_dict; [exact Hv | now rewrite Hv].
  - intros Hni. rewrite <- Hv in Hni. split; [|split].
    + intros f. now apply is_processed_not_iterable.
    + intros Hne. now apply scan_not_iterable.
    + intros k. subst sweeps. simpl.
      rewrite repeated_sweeps_not_iterable by exact Hni. now rewrite Hs'.
Qed.

(** A tracking file that holds [null], in the directory of two documents:
    the ledger is [None], the scan raises and a sweep indexes nothing,
    whereas from the empty ledger the scan returns both documents and the
    sweep indexes a.pdf. *)
Lemma C9_non_dict_ledger_is_kept_witness :
  let sweep := @process_local_pdfs_background length_digest literal_json
                 two_pdfs one_page no_images unit_embedder in
  let s' := exec (@__init__ literal_json)
                 (set_tracking_file (Contents "null") fresh) in
  processed_files s' = JNull
  /\ (exists msg, @get_unprocessed_files length_digest two_pdfs s'
                  = (inl (TypeError msg), s'))
  /\ size (collection (exec sweep s')) = 0
  /\ eval (@get_unprocessed_files length_digest two_pdfs) fresh
     = inr ["b.pdf"; "a.pdf"]
  /\ size (collection (exec sweep fresh)) = 1.
Proof.
  intros sweep s'.
  destruct (@C9_non_dict_ledger_is_kept length_digest literal_json two_pdfs
              one_page no_images unit_embedder
              (set_tracking_file (Contents "null") fresh) "null" JNull
              eq_refl eq_refl eq_refl)
    as (_ & _ & Hv & _ & _ & Hni).
  destruct (Hni eq_refl) as (_ & Hscan & Hsweeps).
  split; [exact Hv|]. split; [apply Hscan; discriminate|].
  split.
  { pose proof (Hsweeps 1) as Hone. cbn [repeatedly] in Hone.
    subst sweep. fold s' in Hone. rewrite Hone. reflexivity. }
  split; vm_compute; reflexivity.
Defined.

(** ** The retrieval orchestrator *)

Section WebSearchFacts.
Context `{Environ} `{Providers}.

(** With the configured provider [search_web] never raises; it makes at
    most one request to a provider and no call to the language model. *)
Lemma search_web_run (q : string) (n : nat) (s : State) :
  exists w s' l,
    search_web q n None s = (inr w, s')
    /\ calls s' = calls s ++ SearchWeb q n :: l
    /\ List.filter is_generate l = [].
Proof.
  unfold search_web, WEB_SEARCH_PROVIDER.
  destruct (truthy BRAVE_API_KEY) eqn:Hb.
  - simpl. unfold search_brave. rewrite Hb. run.
    destruct (brave_request q n) as [e|data]; simpl.
    + eexists _, _, [ProviderRequest "brave" q n]. split; [reflexivity|].
      split; [|reflexivity]. simpl. now rewrite <- app_assoc.
    + eexists _, _, [ProviderRequest "brave" q n]. split; [reflexivity|].
      split; [|reflexivity]. simpl. now rewrite <- app_assoc.
  - destruct (truthy TAVILY_API_KEY) eqn:Ht.
    + simpl. unfold search_tavily. rewrite Ht. run.
      destruct (tavily_search q n) as [e|data]; simpl.
      * eexists _, _, [ProviderRequest "tavily" q n]. split; [reflexivity|].
        split; [|reflexivity]. simpl. now rewrite <- app_assoc.
      * eexists _, _, [ProviderRequest "tavily" q n]. split; [reflexivity|].
        split; [|reflexivity]. simpl. now rewrite <- app_assoc.
    + run. eexists _, _, []. repeat split; reflexivity.
Qed.

End WebSearchFacts.

Section RetrieveFacts.
Context `{Environ} `{Providers} `{Ollama} `{VectorSearch}.

(** What [retrieve] does once the question is embedded and the store has
    answered. *)
Lemma retrieve_run (request : QueryRequest) (s : State)
    (emb : list float) (res : QueryResult) :
  generate_embedding (question request) = inr emb ->
  collection_query (collection s) emb (top_k request) = inr res ->
  let docs := first_row (qr_documents res) in
  let dists := first_row (qr_distances res) in
  exists r s',
    retrieve request s = (inr r, s')
    /\ pdf_context r = (if nonempty docs then join (nl +:+ nl) docs else "")
    /\ use_web r
       = nonempty dists
         && (should_use_web_search (mean dists) SIMILARITY_THRESHOLD
             || negb (nonempty docs))
    /\ (use_web r = true ->
        exists l, calls s' = calls s ++ SearchWeb (question request) 3 :: l
                  /\ List.filter is_generate l = [])
    /\ (use_web r = false -> s' = s /\ web_context r = "" /\ web_sources r = []).
Proof.
  intros Hemb Hquery docs dists. unfold retrieve. run.
  rewrite Hemb. simpl. rewrite Hquery. simpl.
  fold docs. fold dists. unfold WEB_SEARCH_ENABLED. simpl.
  destruct (nonempty dists) eqn:Hd; simpl.
  - destruct (should_use_web_search (mean dists) SIMILARITY_THRESHOLD
              || negb (nonempty docs)) eqn:Hgate.
    + destruct (search_web_run (question request) 3 s)
        as (w & s1 & l & Hrun & Hcalls & Hgen).
      rewrite Hrun. eexists _, _. split; [reflexivity|]. simpl.
      split; [reflexivity|]. split; [reflexivity|]. split.
      * intros _. now exists l.
      * discriminate.
    + eexists _, _. split; [reflexivity|]. simpl.
      split; [reflexivity|]. split; [reflexivity|]. split.
      * discriminate.
      * intros _. now repeat split.
  - eexists _, _. split; [reflexivity|]. simpl.
    split; [reflexivity|]. split; [reflexivity|]. split.
    + discriminate.
    + intros _. now repeat split.
Qed.

(** [retrieve] never calls the language model. *)
Lemma retrieve_no_generate (request : QueryRequest) (s s' : State)
    (x : result Retrieval) :
  retrieve request s = (x, s') -> generate_calls s' = generate_calls s.
Proof.
  destruct (generate_embedding (question request)) as [e|emb] eqn:Hemb.
  { unfold retrieve. run. rewrite Hemb. simpl. intros Heq.
    inversion Heq. reflexivity. }
  destruct (collection_query (collection s) emb (top_k request))
    as [e|res] eqn:Hquery.
  { unfold retrieve. run. rewrite Hemb. simpl. rewrite Hquery. simpl.
    intros Heq. inversion Heq. reflexivity. }
  destruct (retrieve_run request s emb res Hemb Hquery)
    as (r & s1 & Hrun & _ & _ & Hweb & Hlocal).
  rewrite Hrun. intros Heq. inversion Heq; subst x s1.
  destruct (use_web r).
  - destruct (Hweb eq_refl) as [l [Hcalls Hgen]].
    unfold generate_calls. rewrite Hcalls, List.filter_app. simpl.
    rewrite Hgen. now rewrite app_nil_r.
  - now destruct (Hlocal eq_refl) as [-> _].
Qed.

End RetrieveFacts.

(** C6.  When the local context and the web context are both empty,
    [query_knowledge_base] returns the fixed answer with no sources, and no
    call to the language model is made. *)
Theorem C6_empty_context_short_circuit
    `{Environ} `{Providers} `{Ollama} `{VectorSearch}
    (request : QueryRequest) (r : Retrieval) (s s' : State) :
  retrieve request s = (inr r, s') ->
  pdf_context r = "" ->
  web_context r = "" ->
  query_knowledge_base request s = (inr insufficient_information, s')
  /\ respond request r s' = (inr insufficient_information, s')
  /\ generate_calls s' = generate_calls s.
Proof.
  intros Hrun Hpdf Hweb.
  assert (Hresp : respond request r s' = (inr insufficient_information, s')).
  { unfold respond, combine_contexts. rewrite Hpdf, Hweb. reflexivity. }
  split; [|split; [exact Hresp|]].
  - unfold query_knowledge_base, try_except, bind. rewrite Hrun, Hresp.
    reflexivity.
  - exact (retrieve_no_generate request s s' (inr r) Hrun).
Qed.

Lemma C6_empty_context_short_circuit_witness :
  @query_knowledge_base no_keys one_hit unit_embedder empty_index (ask "q") fresh
  = (inr insufficient_information, fresh).
Proof.
  apply (@C6_empty_context_short_circuit no_keys one_hit unit_embedder
           empty_index (ask "q") nothing_retrieved fresh fresh);
    reflexivity.
Defined.

(** C1 fails on the code.  Whenever the store returns no neighbour (an empty
    row of distances), [retrieve] makes no call at all: [search_web] is not
    invoked, whatever provider is configured, and the web context stays
    empty, so the state is never WEB_ONLY or BLENDED; with no documents
    either it is NO_CONTEXT and the fixed answer is returned. *)
Theorem C1_no_neighbours_no_web_search
    `{Environ} `{Providers} `{Ollama} `{VectorSearch}
    (request : QueryRequest) (s : State) (emb : list float) (res : QueryResult) :
  generate_embedding (question request) = inr emb ->
  collection_query (collection s) emb (top_k request) = inr res ->
  first_row (qr_distances res) = [] ->
  exists r,
    retrieve request s = (inr r, s)
    /\ use_web r = false
    /\ web_context r = ""
    /\ retrieval_state r <> WEB_ONLY
    /\ retrieval_state r <> BLENDED
    /\ (first_row (qr_documents res) = [] ->
        retrieval_state r = NO_CONTEXT
        /\ query_knowledge_base request s = (inr insufficient_information, s)).
Proof.
  intros Hemb Hquery Hnone.
  destruct (retrieve_run request s emb res Hemb Hquery)
    as (r & s' & Hrun & Hpdf & Huse & _ & Hlocal).
  rewrite Hnone in Huse. simpl in Huse.
  destruct (Hlocal Huse) as (-> & Hweb & _).
  exists r. split; [exact Hrun|]. split; [exact Huse|]. split; [exact Hweb|].
  unfold retrieval_state. rewrite Hweb, andb_false_r. simpl.
  split; [now destruct (truthy (pdf_context r))|].
  split; [now destruct (truthy (pdf_context r))|].
  intros Hdocs. rewrite Hdocs in Hpdf. simpl in Hpdf. rewrite Hpdf. simpl.
  split; [reflexivity|].
  unfold query_knowledge_base, try_except, bind. rewrite Hrun.
  unfold respond, combine_contexts. rewrite Hpdf, Hweb. reflexivity.
Qed.

(** With a Brave key configured, a provider that returns a hit and web
    search enabled, a query against a store without entries gets the fixed
    answer and no call is made, although [search_web] on the same question
    returns a context. *)
Lemma C1_no_neighbours_no_web_search_witness :
  WEB_SEARCH_ENABLED = true
  /\ @WEB_SEARCH_PROVIDER brave_key = Some "brave"
  /\ (exists w s', @search_web brave_key one_hit "q" 3 None fresh = (inr w, s')
                   /\ truthy (context w) = true)
  /\ @query_knowledge_base brave_key one_hit unit_embedder empty_index (ask "q") fresh
     = (inr insufficient_information, fresh).
Proof.
  split; [reflexivity|]. split; [reflexivity|]. split.
  { eexists _, _. split; reflexivity. }
  destruct (@C1_no_neighbours_no_web_search brave_key one_hit unit_embedder
              empty_index (ask "q") fresh [1%float]
              {| qr_documents := Some [[]]; qr_metadatas := Some [[]];
                 qr_distances := Some [[]] |}
              eq_refl eq_refl eq_refl)
    as (r & _ & _ & _ & _ & _ & Hfixed).
  exact (proj2 (Hfixed eq_refl)).
Defined.

Section GateFacts.

Lemma truthy_append (a b : string) :
  truthy (a +:+ b) = truthy a || truthy b.
Proof. now destruct a. Qed.


Lemma nonempty_length {A B} (l : list A) (l' : list B) :
  length l = length l' -> nonempty l = nonempty l'.
Proof. now destruct l, l'. Qed.

End GateFacts.




(** The mean is the rounded one.  Two neighbours at the threshold and at the
    next float above it lie, on average, above the threshold; their sum
    rounds to twice the threshold, so the mean that the code compares is the
    threshold itself and the web is not searched. *)
Example mean_rounds_to_threshold :
  let above := PrimFloat.next_up SIMILARITY_THRESHOLD in
  PrimFloat.ltb SIMILARITY_THRESHOLD above = true
  /\ mean [SIMILARITY_THRESHOLD; above] = SIMILARITY_THRESHOLD
  /\ exists r,
       @retrieve brave_key one_hit unit_embedder
         (neighbours_at SIMILARITY_THRESHOLD above) (ask "q") fresh
       = (inr r, fresh)
       /\ use_web r = false.
Proof.
  split; [reflexivity|]. split; [reflexivity|].
  eexists. split; [vm_compute; reflexivity | reflexivity].
Qed.

(** ** The rendered history *)

Section HistoryFacts.

(** The loop [formatted += render(msg)] appends the renderings in order. *)
Lemma fold_left_render (l : list Message) (init : string) :
  fold_left (fun formatted msg => formatted +:+ render_message msg) l init
  = init +:+ str_concat (map render_message l).
Proof.
  revert init; induction l as [|m l IH]; intros init; simpl.
  - now rewrite append_nil_r.
  - rewrite IH. apply append_assoc.
Qed.

(** [l[-n:]] for a positive [n] is the last [min(len(l), n)] elements. *)
Lemma slice_from_negative {A} (n : nat) (l : list A) :
  0 < n ->
  slice_from (- Z.of_nat n) l = last_turns (Nat.min (length l) n) l.
Proof.
  intros Hn. unfold slice_from, last_turns.
  replace (- Z.of_nat n <? 0)%Z with true by (symmetry; apply Z.ltb_lt; lia).
  f_equal. lia.
Qed.

Lemma length_last_turns {A} (k : nat) (l : list A) :
  k <= length l -> length (last_turns k l) = k.
Proof. intros Hk. unfold last_turns. rewrite length_drop. lia. Qed.

End HistoryFacts.

(** The code renders a turn as the prompt shows it. *)
Lemma render_turn_line (msg : Message) : render_message msg = turn_line msg.
Proof.
  unfold render_message, turn_line.
  destruct (String.eqb (role msg) "user"); reflexivity.
Qed.

Lemma last_turns_bound {A} (n : nat) (l : list A) :
  last_turns (Nat.min (length l) n) l = drop (length l - n) l.
Proof. unfold last_turns. f_equal. lia. Qed.

(** C8.  There are an opening and a closing of the prompt, the closing
    depending on the context and the question only, such that for every
    request the prompt sent to the language model is the opening, the
    history block and the closing.  The history block is empty for an empty
    history; otherwise it is the header followed by one line
    "<speaker>: <content>" for each of the last
    min(len(history), MAX_CHAT_HISTORY) turns, oldest first, and for no
    other turn: of ten turns it shows the last six, the history without its
    first four. *)
Theorem C8_history_truncation `{Ollama} :
  exists (opening : string) (closing : string -> string -> string),
    forall (request : QueryRequest) (r : Retrieval) (s : State),
      let history := history_of request in
      let k := Nat.min (length history) (Z.to_nat MAX_CHAT_HISTORY) in
      let kept := last_turns k history in
      let combined := combine_contexts (pdf_context r) (web_context r) in
      length kept = k
      /\ kept = drop (length history - 6) history
      /\ format_chat_history history MAX_CHAT_HISTORY = history_block history kept
      /\ calls (exec (respond request r) s)
         = calls s ++
           (if truthy combined
            then [Generate (opening +:+ history_block history kept
                            +:+ closing combined (question request))]
            else []).
Proof.
  exists ("You are a helpful AI assistant answering questions based on provided information. Use the conversation history to provide contextual answers."
          +:+ nl +:+ nl),
         (fun combined question =>
            nl +:+ nl +:+ "Context:" +:+ nl +:+ combined +:+ nl +:+ nl
            +:+ "Current question: " +:+ question +:+ nl +:+ nl
            +:+ "Instructions:" +:+ nl
            +:+ "- Answer based on the context provided" +:+ nl
            +:+ "- If referring to previous conversation, acknowledge it naturally" +:+ nl
            +:+ "- If the answer isn't in the context, say so" +:+ nl
            +:+ "- Be conversational and helpful" +:+ nl
            +:+ "- Synthesize information from multiple sources when relevant" +:+ nl
            +:+ nl +:+ "Answer:").
  intros request r s history k kept combined.
  assert (Hblock : format_chat_history history MAX_CHAT_HISTORY
                   = history_block history kept).
  { unfold format_chat_history, history_block.
    destruct (nonempty history); [|reflexivity].
    simpl. rewrite fold_left_render. fold history_header.
    change (- MAX_CHAT_HISTORY)%Z with (- Z.of_nat 6)%Z.
    rewrite slice_from_negative by lia.
    f_equal. f_equal. apply map_ext. intros msg. apply render_turn_line. }
  split; [apply length_last_turns; subst k; lia|].
  split; [apply (last_turns_bound 6)|]. split; [exact Hblock|].
  unfold exec, respond. fold (history_of request). fold history. fold combined.
  destruct (truthy combined); simpl; [|now rewrite app_nil_r].
  rewrite Hblock. run.
  destruct (ollama_generate _); simpl; f_equal; f_equal; f_equal;
    unfold build_prompt; now rewrite !append_assoc.
Qed.

(** Ten prior turns: the prompt shows turns 5 to 10, in that order. *)
Example ten_turns_keep_last_six :
  format_chat_history ten_turns MAX_CHAT_HISTORY
  = history_header
    +:+ "Assistant: 5" +:+ nl +:+ "Human: 6" +:+ nl +:+ "Assistant: 7" +:+ nl
    +:+ "Human: 8" +:+ nl +:+ "Assistant: 9" +:+ nl +:+ "Human: 10" +:+ nl.
Proof. vm_compute. reflexivity. Qed.

(** Re-uploading a file leaves one entry in the collection. *)
Example upload_twice_counts_once :
  let upload := @upload_pdfs length_digest one_page no_images unit_embedder
                  [a_pdf_upload] in
  eval collection_count (exec upload fresh) = inr 1
  /\ eval collection_count (exec upload (exec upload fresh)) = inr 1.
Proof. split; vm_compute; reflexivity. Qed.

(** * Further properties of the code *)

(** ** utils/file_tracker.py *)

(** X1.  Marking a readable file returns normally; the file is then
    processed, and after its bytes have been replaced [is_processed] is true
    exactly when the new bytes have the recorded hash.  The entries of the
    other files are not touched.  The ledger is a dictionary. *)
Theorem X1_mark_then_is_processed `{Hashlib} `{Json}
    (before after : Disk) (f : Path) (b b' : bytes) (s : State) :
  is_dict (processed_files s) = true ->
  @read_bytes before f = inr b ->
  @read_bytes after f = inr b' ->
  let s' := exec (@mark_processed _ _ before f) s in
  eval (@mark_processed _ _ before f) s = inr tt
  /\ @is_processed _ before f s' = (inr true, s')
  /\ @is_processed _ after f s'
     = (inr (String.eqb (md5_hexdigest b) (md5_hexdigest b')), s')
  /\ (forall g, g <> f ->
        getitem (processed_files s') g = getitem (processed_files s) g).
Proof.
  intros Hdict Hb Hb' s'. apply is_dict_object in Hdict as [d Hd].
  assert (Hrun := @mark_processed_run _ _ before f s d Hd). rewrite Hb in Hrun.
  assert (Hled : processed_files s'
                 = JObject (<[f := JString (md5_hexdigest b)]> d)).
  { subst s'. unfold exec at 1. rewrite Hrun. simpl.
    now destruct (@save_keeps _ before
                    (set_processed_files
                       (JObject (<[f := JString (md5_hexdigest b)]> d)) s))
      as [-> _]. }
  split; [unfold eval; now rewrite Hrun|]. split; [|split].
  - rewrite (@is_processed_run _ before f s' _ Hled), lookup_insert_eq, Hb.
    simpl. now rewrite String.eqb_refl.
  - now rewrite (@is_processed_run _ after f s' _ Hled), lookup_insert_eq, Hb'.
  - intros g Hg. rewrite Hled, Hd. simpl.
    now rewrite lookup_insert_ne by congruence.
Qed.

Lemma X1_mark_then_is_processed_witness :
  eval (@is_processed length_digest a_pdf_rewritten "a.pdf")
       (exec (@mark_processed length_digest empty_object_json two_pdfs "a.pdf") fresh)
  = inr false.
Proof.
  unfold eval.
  rewrite (proj1 (proj2 (proj2
            (@X1_mark_then_is_processed length_digest empty_object_json
               two_pdfs a_pdf_rewritten "a.pdf" [Byte.x25]
               [Byte.x25; Byte.x50; Byte.x44] fresh eq_refl eq_refl eq_refl)))).
  reflexivity.
Defined.

(** X2.  For a file that cannot be read, [mark_processed] raises the error of
    the read and changes nothing; [is_processed] raises it too when the name
    of the file is in the ledger, and answers [False] without reading when
    it is not. *)
Theorem X2_unreadable_file `{Hashlib} `{Json} `{Disk}
    (f : Path) (e : exn) (s : State) :
  read_bytes f = inl e ->
  mark_processed f s = (inl e, s)
  /\ (contains (processed_files s) f = inr true -> is_processed f s = (inl e, s))
  /\ (contains (processed_files s) f = inr false ->
      is_processed f s = (inr false, s)).
Proof.
  intros He. split; [|split].
  - rewrite mark_processed_effect. now rewrite He.
  - intros Hin. unfold is_processed, name, bind, gets, lift. simpl.
    rewrite Hin. simpl. rewrite calculate_hash_run. now rewrite He.
  - intros Hout. unfold is_processed, name, bind, gets, lift. simpl.
    now rewrite Hout.
Qed.

Lemma X2_unreadable_file_witness :
  @mark_processed length_digest empty_object_json two_pdfs "notes.txt" fresh
  = (inl (OSError "No such file or directory"), fresh).
Proof.
  apply (@X2_unreadable_file length_digest empty_object_json two_pdfs
           "notes.txt" (OSError "No such file or directory") fresh eq_refl).
Defined.

(** X3.  A tracking file that cannot be written does not stop the tracker:
    [mark_processed], on a ledger that is a dictionary, and [clear] return
    normally and update the ledger in memory; only the file on disk keeps
    its old contents. *)
Theorem X3_unwritable_tracking_file `{Hashlib} `{Json} `{Disk}
    (f : Path) (b : bytes) (s : State) (d : gmap string json_value) :
  processed_files s = JObject d ->
  tracking_writable = false ->
  read_bytes f = inr b ->
  mark_processed f s
  = (inr tt,
     set_processed_files (JObject (<[f := JString (md5_hexdigest b)]> d)) s)
  /\ clear s = (inr tt, set_processed_files (JObject ∅) s).
Proof.
  intros Hd Hw Hb. split.
  - rewrite (mark_processed_run f s d Hd), Hb.
    unfold exec, _save, try_except, raise, ret. now rewrite Hw.
  - unfold clear, bind, modify, _save, try_except, raise, ret. now rewrite Hw.
Qed.

Lemma X3_unwritable_tracking_file_witness :
  tracking_file
    (exec (@mark_processed length_digest empty_object_json read_only_ledger "a.pdf")
          fresh) = Missing.
Proof.
  unfold exec.
  rewrite (proj1 (@X3_unwritable_tracking_file length_digest empty_object_json
                    read_only_ledger "a.pdf" [Byte.x25] fresh ∅
                    eq_refl eq_refl eq_refl)).
  reflexivity.
Defined.

(** X4.  With a writable tracking file [mark_processed], on a ledger that is
    a dictionary, writes the whole ledger through to disk; when the codec
    reads back what it wrote, a tracker created later from that file has the
    same ledger and still reports the file as processed. *)
Theorem X4_ledger_survives_restart `{Hashlib} `{Json} `{Disk}
    (f : Path) (b : bytes) (s restarted : State) :
  is_dict (processed_files s) = true ->
  tracking_writable = true ->
  read_bytes f = inr b ->
  let s' := exec (mark_processed f) s in
  json_load (json_dump (processed_files s')) = inr (processed_files s') ->
  tracking_file restarted = tracking_file s' ->
  tracking_file s' = Contents (json_dump (processed_files s'))
  /\ eval __init__ restarted = inr tt
  /\ processed_files (exec __init__ restarted) = processed_files s'
  /\ eval (is_processed f) (exec __init__ restarted) = inr true.
Proof.
  intros Hdict Hw Hb s' Hcodec Hfile. apply is_dict_object in Hdict as [d Hd].
  set (d' := <[f := JString (md5_hexdigest b)]> d) in *.
  assert (Hs' : s' = set_tracking_file (Contents (json_dump (JObject d')))
                       (set_processed_files (JObject d') s)).
  { subst s'. unfold exec. rewrite (mark_processed_run f s d Hd), Hb.
    unfold exec, _save, try_except, bind, gets, modify, raise, ret.
    now rewrite Hw. }
  assert (Htf : tracking_file s' = Contents (json_dump (processed_files s')))
    by now rewrite Hs'.
  assert (Hinit : __init__ restarted
                  = (inr tt, set_processed_files (processed_files s') restarted)).
  { unfold __init__, _load, bind, gets, try_except, open_read, lift, ret, modify.
    simpl. rewrite Hfile, Htf. simpl. now rewrite Hcodec. }
  split; [exact Htf|]. unfold eval, exec. rewrite Hinit. simpl.
  split; [reflexivity|]. split; [reflexivity|].
  rewrite (is_processed_run f _ d'); [|now rewrite Hs'].
  subst d'. rewrite lookup_insert_eq, Hb. simpl. now rewrite String.eqb_refl.
Qed.

Lemma X4_ledger_survives_restart_witness :
  let s' := exec (@mark_processed length_digest two_line_json two_pdfs "a.pdf") fresh in
  eval (@is_processed length_digest two_pdfs "a.pdf")
       (exec (@__init__ two_line_json) (set_tracking_file (tracking_file s') fresh))
  = inr true.
Proof.
  intros s'.
  apply (@X4_ledger_survives_restart length_digest two_line_json two_pdfs
           "a.pdf" [Byte.x25] fresh (set_tracking_file (tracking_file s') fresh)
           eq_refl eq_refl eq_refl).
  - vm_compute. reflexivity.
  - reflexivity.
Defined.

(** ** main.py: the startup sweep *)

Section SweepShape.
Context `{Hashlib} `{Json} `{Disk} `{PyPDF2} `{Fitz} `{Ollama}.

Lemma add_entry_subseteq (c : gmap string DocumentRecord)
    (r : string * DocumentRecord) : c ⊆ add_entry c r.
Proof.
  unfold add_entry. destruct (c !! r.1) eqn:Hr; [reflexivity|].
  now apply insert_subseteq.
Qed.

Lemma add_entries_subseteq (c : gmap string DocumentRecord)
    (b : list (string * DocumentRecord)) : c ⊆ foldl add_entry c b.
Proof.
  revert c; induction b as [|r b IH]; intros c; simpl; [reflexivity|].
  etransitivity; [apply add_entry_subseteq | apply IH].
Qed.

Lemma process_single_pdf_keeps (f : Path) (h : string) (s : State) :
  collection s ⊆ collection (exec (process_single_pdf f h) s)
  /\ calls (exec (process_single_pdf f h) s) = calls s
  /\ tracking_file (exec (process_single_pdf f h) s) = tracking_file s.
Proof.
  unfold exec.
  destruct (process_single_pdf_run f h) as [[e He] | [n [b [_ Hb]]]].
  - now rewrite He.
  - rewrite Hb. simpl. split; [apply add_entries_subseteq | now split].
Qed.

(** One turn of the loop: entries are only added, no call is recorded. *)
Lemma sweep_file_keeps_entries (i : nat) (f : Path) (s : State) :
  collection s ⊆ collection (exec (sweep_file (i, f)) s)
  /\ calls (exec (sweep_file (i, f)) s) = calls s.
Proof.
  unfold exec, sweep_file, set_status. run.
  set (s1 := set_processing_status _ (set_processing_status _ s)).
  rewrite calculate_hash_run.
  destruct (read_bytes f) as [e|b] eqn:Hread; simpl; [now split|].
  destruct (process_single_pdf_keeps f (md5_hexdigest b) s1) as (Hc & Hcalls & _).
  unfold exec in Hc, Hcalls.
  destruct (process_single_pdf f (md5_hexdigest b) s1) as [[e|n] s2];
    simpl in *; [now split|].
  rewrite mark_processed_effect, Hread.
  destruct (setitem (processed_files s2) f (JString (md5_hexdigest b)))
    as [e|v]; simpl; [now split|].
  destruct (save_keeps (set_processed_files v s2)) as (_ & Hsc & Hscalls & _).
  rewrite Hsc, Hscalls. simpl. now split.
Qed.

Lemma sweep_loop_keeps_entries (ips : list (nat * Path)) (s : State) :
  collection s ⊆ collection (exec (for_each ips sweep_file) s)
  /\ calls (exec (for_each ips sweep_file) s) = calls s.
Proof.
  revert s; induction ips as [|[i f] ips IH]; intros s; [now split|].
  destruct (sweep_file_effect i f s) as [Hret _].
  assert (Hstep : for_each ((i, f) :: ips) sweep_file s
                  = for_each ips sweep_file (exec (sweep_file (i, f)) s)).
  { change (for_each ((i, f) :: ips) sweep_file s)
      with (bind (sweep_file (i, f)) (fun _ => for_each ips sweep_file) s).
    unfold bind, eval, exec in *.
    destruct (sweep_file (i, f) s) as [r s1]. simpl in *. now subst r. }
  destruct (sweep_file_keeps_entries i f s) as [Hc Hcalls].
  destruct (IH (exec (sweep_file (i, f)) s)) as [IHc IHcalls].
  unfold exec in *. rewrite Hstep.
  split; [etransitivity; eassumption | congruence].
Qed.

Local Opaque for_each enumerate.

(** The sweep as a whole: it returns, and the state it leaves is that of the
    loop over the files found, with the status reset. *)
Lemma sweep_shape (s : State) :
  exists s2,
    processed_files s2 = processed_files s
    /\ collection s2 = collection s
    /\ calls s2 = calls s
    /\ tracking_file s2 = tracking_file s
    /\ process_local_pdfs_background s
       = (inr tt,
          set_processing_status idle
            (match eval get_unprocessed_files s with
             | inr fs => exec (for_each (enumerate fs) sweep_file) s2
             | inl _ => s2
             end)).
Proof.
  unfold process_local_pdfs_background, set_status. run.
  set (s1 := set_processing_status _ s).
  unfold get_unprocessed_files.
  rewrite (get_unprocessed_loop_frame (glob ".pdf") [] s s1) by reflexivity.
  destruct (eval (get_unprocessed_loop (glob ".pdf") []) s) as [e|fs]; simpl.
  - exists s1. now repeat split.
  - destruct fs as [|f fs]; simpl.
    + eexists (set_processing_status _ s1). repeat split.
    + set (s2 := set_processing_status _ s1).
      exists s2. split; [reflexivity|]. split; [reflexivity|].
      split; [reflexivity|]. split; [reflexivity|].
      destruct (sweep_loop_effect (enumerate (f :: fs)) s2) as [Hret _].
      unfold eval, exec in *.
      destruct (for_each (enumerate (f :: fs)) sweep_file s2) as [r s3].
      simpl in *. now subst r.
Qed.

Local Transparent for_each enumerate.

End SweepShape.

(** X5.  The sweep never raises, whatever the directory, the decoders or the
    models do; it leaves the processing status idle, only adds entries to
    the collection, and makes no web-search or language-model call. *)
Theorem X5_sweep_always_completes
    `{Hashlib} `{Json} `{Disk} `{PyPDF2} `{Fitz} `{Ollama} (s : State) :
  let s' := exec process_local_pdfs_background s in
  eval process_local_pdfs_background s = inr tt
  /\ processing_status s' = idle
  /\ collection s ⊆ collection s'
  /\ calls s' = calls s.
Proof.
  intros s'. subst s'. unfold eval, exec.
  destruct (sweep_shape s) as (s2 & _ & Hc & Hcalls & _ & Hrun).
  rewrite Hrun. simpl. split; [reflexivity|]. split; [reflexivity|].
  destruct (eval get_unprocessed_files s) as [e|fs].
  - rewrite Hc, Hcalls. now split.
  - destruct (sweep_loop_keeps_entries (enumerate fs) s2) as [Hsub Hsame].
    rewrite <- Hc, <- Hcalls. now split.
Qed.

Section SweepAgain.
Context `{Hashlib} `{Json} `{Disk} `{PyPDF2} `{Fitz} `{Ollama}.

Lemma filter_none {A} (f : A -> bool) (l : list A) :
  (forall x, In x l -> f x = false) -> List.filter f l = [].
Proof.
  induction l as [|x l IH]; intros Hl; simpl; [reflexivity|].
  rewrite (Hl x (or_introl eq_refl)). apply IH. intros y Hy. apply Hl. now right.
Qed.

(** What a scan returns is made of listed files. *)
Lemma scan_listed (files acc fs : list Path) (f : Path) (s : State) :
  eval (get_unprocessed_loop files acc) s = inr fs ->
  In f fs -> In f acc \/ In f files.
Proof.
  revert acc; induction files as [|g files IH]; intros acc.
  - unfold eval. simpl. intros Heq. inversion Heq. now left.
  - unfold eval. simpl. unfold bind.
    rewrite (is_processed_frame g s s eq_refl).
    destruct (eval (is_processed g) s) as [e|p]; simpl; [discriminate|].
    intros Hrun Hin. destruct (IH _ Hrun Hin) as [Hacc | Hfiles].
    + destruct p; simpl in Hacc; [now left|].
      apply in_app_iff in Hacc as [Ha | [<- | []]]; [now left | right; now left].
    + right. now right.
Qed.

(** A listed file that is not tracked is in what a scan returns. *)
Lemma scan_finds (files acc fs : list Path) (f : Path) (s : State) :
  eval (get_unprocessed_loop files acc) s = inr fs ->
  In f acc \/ (In f files /\ holds (is_processed f) s = false) ->
  In f fs.
Proof.
  revert acc; induction files as [|g files IH]; intros acc.
  - unfold eval. simpl. intros Heq. inversion Heq. intros [Ha | [[] _]].
    exact Ha.
  - unfold eval. simpl. unfold bind.
    pose proof (is_processed_frame g s s eq_refl) as Hg.
    destruct (is_processed g s) as [[e|p] s1] eqn:Hrun; simpl; [discriminate|].
    assert (s1 = s) by (inversion Hg; reflexivity). subst s1.
    intros Hloop Hf. apply (IH _ Hloop).
    destruct Hf as [Ha | [[<- | Hin] Hun]].
    + left. destruct p; simpl; [exact Ha | apply in_app_iff; now left].
    + left. unfold holds, eval in Hun. rewrite Hrun in Hun. simpl in Hun.
      destruct p; [discriminate|]. simpl. apply in_app_iff. right. now left.
    + right. now split.
Qed.

(** A turn of the loop for a file that cannot be ingested, or for another
    file, leaves the entry of [f] in the ledger as it was. *)
Lemma sweep_file_entry (i : nat) (g f : Path) (s : State) :
  g <> f
  \/ (exists e, read_bytes f = inl e)
  \/ (exists b e, read_bytes f = inr b
                  /\ eval (process_single_pdf f (md5_hexdigest b)) s = inl e) ->
  getitem (processed_files (exec (sweep_file (i, g)) s)) f
  = getitem (processed_files s) f.
Proof.
  intros Hcase. destruct (sweep_file_effect i g s) as [_ Hled].
  destruct (read_bytes g) as [e|b] eqn:Hread; [now rewrite Hled|].
  destruct (eval (process_single_pdf g (md5_hexdigest b)) s) as [e|n] eqn:Hrun;
    [now rewrite Hled|].
  destruct (processed_files s) as [| | | | t|items|d];
    cbn [setitem] in Hled; rewrite Hled; try reflexivity.
  simpl. destruct (decide (g = f)) as [->|Hne];
    [|now rewrite lookup_insert_ne by exact Hne].
  destruct Hcase as [Hne | [[e He] | [b' [e [Hb' He]]]]]; [contradiction| |];
    congruence.
Qed.

Lemma sweep_loop_entry (ips : list (nat * Path)) (f : Path) (s : State) :
  (exists e, read_bytes f = inl e)
  \/ (exists b e, read_bytes f = inr b
                  /\ eval (process_single_pdf f (md5_hexdigest b)) s = inl e) ->
  getitem (processed_files (exec (for_each ips sweep_file) s)) f
  = getitem (processed_files s) f.
Proof.
  revert s; induction ips as [|[i g] ips IH]; intros s Hfail; [reflexivity|].
  destruct (sweep_file_effect i g s) as [Hret _].
  assert (Hstep : for_each ((i, g) :: ips) sweep_file s
                  = for_each ips sweep_file (exec (sweep_file (i, g)) s)).
  { change (for_each ((i, g) :: ips) sweep_file s)
      with (bind (sweep_file (i, g)) (fun _ => for_each ips sweep_file) s).
    unfold bind, eval, exec in *.
    destruct (sweep_file (i, g) s) as [r s1]. simpl in *. now subst r. }
  unfold exec at 1. rewrite Hstep. fold (exec (for_each ips sweep_file)
                                            (exec (sweep_file (i, g)) s)).
  rewrite IH.
  - apply sweep_file_entry. now right.
  - destruct Hfail as [He | [b [e [Hb He]]]]; [now left|].
    right. exists b, e. split; [exact Hb|].
    rewrite <- He. apply process_single_pdf_eval.
Qed.

(** The loop, and with it the sweep, leaves a dictionary a dictionary. *)
Lemma sweep_loop_dict (ips : list (nat * Path)) (s : State) :
  is_dict (processed_files s) = true ->
  is_dict (processed_files (exec (for_each ips sweep_file) s)) = true.
Proof.
  revert s; induction ips as [|[i g] ips IH]; intros s Hd; [exact Hd|].
  destruct (sweep_file_effect i g s) as [Hret _].
  assert (Hstep : for_each ((i, g) :: ips) sweep_file s
                  = for_each ips sweep_file (exec (sweep_file (i, g)) s)).
  { change (for_each ((i, g) :: ips) sweep_file s)
      with (bind (sweep_file (i, g)) (fun _ => for_each ips sweep_file) s).
    unfold bind, eval, exec in *.
    destruct (sweep_file (i, g) s) as [r s1]. simpl in *. now subst r. }
  unfold exec at 1. rewrite Hstep. apply IH. now apply sweep_file_shape.
Qed.

Lemma sweep_dict (s : State) :
  is_dict (processed_files s) = true ->
  is_dict (processed_files (exec process_local_pdfs_background s)) = true.
Proof.
  intros Hd. destruct (sweep_ledger s) as [s2 [Hs2 Hled]]. rewrite Hled.
  destruct (eval get_unprocessed_files s) as [e|fs]; [exact Hd|].
  apply sweep_loop_dict. now rewrite Hs2.
Qed.

(** [v[key]] returns for a dictionary that holds the key only. *)
Lemma getitem_inr (v x : json_value) (key : string) :
  getitem v key = inr x -> exists d, v = JObject d /\ d !! key = Some x.
Proof.
  destruct v; try discriminate. intros Hx. eexists. split; [reflexivity|].
  now apply getitem_object.
Qed.

End SweepAgain.

(** X6.  When every document of the directory can be read and ingested, a
    sweep leaves nothing to do: the next scan returns no file, and a second
    sweep changes neither the collection nor the ledger.  The ledger is a
    dictionary. *)
Theorem X6_second_sweep_finds_nothing
    `{Hashlib} `{Json} `{Disk} `{PyPDF2} `{Fitz} `{Ollama} (s : State) :
  is_dict (processed_files s) = true ->
  (forall f, In f (glob ".pdf") ->
     exists b n, read_bytes f = inr b
                 /\ eval (process_single_pdf f (md5_hexdigest b)) s = inr n) ->
  let s' := exec process_local_pdfs_background s in
  get_unprocessed_files s' = (inr [], s')
  /\ collection (exec process_local_pdfs_background s') = collection s'
  /\ processed_files (exec process_local_pdfs_background s') = processed_files s'.
Proof.
  intros Hdict Hall s'.
  assert (Hdict' : is_dict (processed_files s') = true) by now apply sweep_dict.
  destruct (proj1 (is_dict_object _) Hdict) as [d Hd].
  destruct (proj1 (is_dict_object _) Hdict') as [d' Hd'].
  assert (Hread : forall f, In f (glob ".pdf") -> exists b, read_bytes f = inr b).
  { intros f Hf. destruct (Hall f Hf) as (b & n & Hb & _). now exists b. }
  assert (Hscan : get_unprocessed_files s
                  = (inr (List.filter (fun f => negb (holds (is_processed f) s))
                                      (glob ".pdf")), s)).
  { unfold get_unprocessed_files. now rewrite (get_unprocessed_loop_run s d). }
  assert (Htracked : forall f, In f (glob ".pdf") ->
                       holds (is_processed f) s' = true).
  { intros f Hf. destruct (Hall f Hf) as (b & n & Hb & Hrun).
    destruct (holds (is_processed f) s) eqn:Hh.
    - now apply sweep_keeps.
    - eapply (sweep_marks f _ b n s);
        [exact Hdict | unfold eval; now rewrite Hscan | | exact Hb | exact Hrun].
      apply filter_In. split; [exact Hf | now rewrite Hh]. }
  assert (Hscan' : get_unprocessed_files s' = (inr [], s')).
  { unfold get_unprocessed_files.
    rewrite (get_unprocessed_loop_run s' d') by assumption.
    simpl. rewrite filter_none; [reflexivity|].
    intros f Hf. now rewrite (Htracked f Hf). }
  split; [exact Hscan'|].
  destruct (sweep_shape s') as (s2 & Hl & Hc & _ & _ & Hrun).
  unfold exec at 1 2. rewrite Hrun. unfold eval. rewrite Hscan'. simpl.
  now split.
Qed.

Lemma X6_second_sweep_finds_nothing_witness :
  eval (@get_unprocessed_files length_digest two_pdfs)
       (exec (@process_local_pdfs_background length_digest empty_object_json
                two_pdfs one_page no_images unit_embedder) fresh)
  = inr [].
Proof.
  assert (Hall : forall f, In f (@glob two_pdfs ".pdf") ->
            exists b n,
              @read_bytes two_pdfs f = inr b
              /\ eval (@process_single_pdf two_pdfs one_page no_images
                         unit_embedder f (length_digest b)) fresh = inr n).
  { intros f Hf. unfold glob in Hf. vm_compute in Hf.
    destruct Hf as [<- | [<- | []]]; eexists _, _; split; reflexivity. }
  unfold eval.
  rewrite (proj1 (@X6_second_sweep_finds_nothing length_digest empty_object_json
                    two_pdfs one_page no_images unit_embedder fresh eq_refl Hall)).
  reflexivity.
Defined.

(** X7.  A file that the sweep finds but cannot ingest (it cannot be read, or
    [process_single_pdf] raises) is not marked: its ledger entry is as
    before, [is_processed] stays false, and the next scan returns it
    again. *)
Theorem X7_failed_file_is_retried
    `{Hashlib} `{Json} `{Disk} `{PyPDF2} `{Fitz} `{Ollama}
    (s : State) (f : Path) (fs : list Path) :
  eval get_unprocessed_files s = inr fs ->
  In f fs ->
  (exists e, read_bytes f = inl e)
  \/ (exists b e, read_bytes f = inr b
                  /\ eval (process_single_pdf f (md5_hexdigest b)) s = inl e) ->
  let s' := exec process_local_pdfs_background s in
  getitem (processed_files s') f = getitem (processed_files s) f
  /\ holds (is_processed f) s' = false
  /\ (forall fs', eval get_unprocessed_files s' = inr fs' -> In f fs').
Proof.
  intros Hscan Hin Hfail s'.
  assert (Hentry : getitem (processed_files s') f = getitem (processed_files s) f).
  { subst s'. unfold exec.
    destruct (sweep_shape s) as (s2 & Hl & _ & _ & _ & Hrun).
    rewrite Hrun, Hscan. simpl. rewrite sweep_loop_entry; [now rewrite Hl|].
    destruct Hfail as [He | [b [e [Hb He]]]]; [now left|].
    right. exists b, e. split; [exact Hb|].
    rewrite <- He. apply process_single_pdf_eval. }
  assert (Hun : holds (is_processed f) s = false).
  { destruct (holds (is_processed f) s) eqn:Hh; [|reflexivity].
    exfalso. exact (tracked_not_unprocessed f fs s Hh Hscan Hin). }
  assert (Hun' : holds (is_processed f) s' = false).
  { destruct (holds (is_processed f) s') eqn:Hh; [|reflexivity].
    apply holds_is_processed in Hh as (d' & b & Hd' & Hb & Hl).
    rewrite Hd' in Hentry. simpl in Hentry. rewrite Hl in Hentry.
    symmetry in Hentry. apply getitem_inr in Hentry as (d & Hd & Hl0).
    rewrite <- Hun. symmetry. apply holds_is_processed. now exists d, b. }
  split; [exact Hentry|]. split; [exact Hun'|].
  intros fs' Hscan'. apply (scan_finds (glob ".pdf") [] fs' f s' Hscan').
  right. split; [|exact Hun'].
  destruct (scan_listed (glob ".pdf") [] fs f s Hscan Hin) as [[] | Hl].
  exact Hl.
Qed.

Lemma X7_failed_file_is_retried_witness :
  holds (@is_processed length_digest two_pdfs "a.pdf")
        (exec (@process_local_pdfs_background length_digest empty_object_json
                 two_pdfs broken_reader no_images unit_embedder) fresh)
  = false.
Proof.
  apply (@X7_failed_file_is_retried length_digest empty_object_json two_pdfs
           broken_reader no_images unit_embedder fresh "a.pdf" ["b.pdf"; "a.pdf"]
           eq_refl (or_intror (or_introl eq_refl))).
  right. exists [Byte.x25], (Exception "EOF marker not found").
  split; reflexivity.
Defined.

(** ** main.py: clearing and uploading *)

(** X8.  [clear_database] returns its message and leaves an empty collection
    together with an empty ledger: [count()] is 0, no file is processed, and
    the next scan returns every document of the directory. *)
Theorem X8_clear_database_resets `{Hashlib} `{Json} `{Disk} (s : State) :
  let s' := exec clear_database s in
  eval clear_database s = inr "Database cleared successfully"
  /\ collection s' = ∅
  /\ processed_files s' = JObject ∅
  /\ eval collection_count s' = inr 0
  /\ (forall f, is_processed f s' = (inr false, s'))
  /\ get_unprocessed_files s' = (inr (glob ".pdf"), s').
Proof.
  intros s'.
  assert (Hrun : exists s1, clear_database s = (inr "Database cleared successfully", s1)
                            /\ collection s1 = ∅
                            /\ processed_files s1 = JObject ∅).
  { unfold clear_database, collection_reset, clear, _save. run.
    destruct tracking_writable; simpl; eexists; repeat split. }
  destruct Hrun as (s1 & Hrun & Hc & Hl).
  subst s'. unfold eval, exec. rewrite Hrun. simpl.
  split; [reflexivity|]. split; [exact Hc|]. split; [exact Hl|].
  split; [unfold collection_count, gets; simpl; now rewrite Hc|]. split.
  - intros f. rewrite (is_processed_run f s1 ∅ Hl). now rewrite lookup_empty.
  - unfold get_unprocessed_files. now rewrite get_unprocessed_loop_empty.
Qed.

Section UploadFacts.
Context `{Hashlib} `{PyPDF2} `{Fitz} `{Ollama}.

Lemma length_entries (p : Prepared) :
  balanced p ->
  length (entries (ids p) (documents p) (vectors p) (metadatas p))
  = length (documents p).
Proof.
  intros (Hd & Hv & Hm).
  generalize dependent (metadatas p). generalize dependent (vectors p).
  generalize dependent (documents p).
  induction (ids p) as [|i l IH]; intros [|d ds] Hd [|v vs] Hv [|m ms] Hm;
    simpl in *; try discriminate; try reflexivity.
  f_equal. apply IH; congruence.
Qed.

Lemma size_add_entries (c : gmap string DocumentRecord)
    (b : list (string * DocumentRecord)) :
  size (foldl add_entry c b) <= size c + length b.
Proof.
  revert c; induction b as [|r b IH]; intros c; simpl; [lia|].
  etransitivity; [apply IH|].
  unfold add_entry. destruct (c !! r.1) eqn:Hr; [lia|].
  rewrite map_size_insert_None by exact Hr. lia.
Qed.

(** The three things the body of the loop of [upload_pdfs] can do with a
    file: pass it over, abort the request, or write a batch of [n > 0]
    entries and count the file. *)
Lemma upload_file_cases (file : UploadFile) :
  (forall cnt s, upload_file file cnt s = (inr cnt, s))
  \/ (named_pdf file = true
      /\ exists e, forall cnt s, upload_file file cnt s = (inl e, s))
  \/ (named_pdf file = true
      /\ exists b n,
           0 < n /\ length b = n
           /\ forall cnt s,
                upload_file file cnt s
                = (inr (cnt.1 + n, cnt.2 + 1),
                   set_collection (foldl add_entry (collection s) b) s)).
Proof.
  unfold upload_file, named_pdf.
  destruct (upload_filename file) as [file_name|];
    [|left; now intros [t p] s].
  destruct (truthy file_name); simpl; [|left; now intros [t p] s].
  destruct (endswith file_name ".pdf"); simpl; [|left; now intros [t p] s].
  run.
  destruct (extract_text_from_pdf_bytes (upload_content file)) as [e|tc];
    [right; left; split; [reflexivity|]; exists e; now intros [t p] s|].
  destruct (extract_images_from_pdf_bytes (upload_content file)) as [e|ic];
    [right; left; split; [reflexivity|]; exists e; now intros [t p] s|].
  destruct (nonempty (tc ++ ic)); simpl.
  - set (h := md5_hexdigest (upload_content file)).
    destruct (prepare_invariant h file_name (tc ++ ic)) as [Hbal _].
    set (p := prepare h file_name (tc ++ ic)) in *.
    destruct (nonempty (documents p)) eqn:Hdocs; simpl;
      [|left; now intros [t q] s].
    destruct (nonempty (vectors p)); simpl; [|left; now intros [t q] s].
    right; right. split; [reflexivity|].
    exists (entries (ids p) (documents p) (vectors p) (metadatas p)),
           (length (documents p)).
    split; [destruct (documents p); [discriminate | simpl; lia]|].
    split; [now apply length_entries|].
    intros [t q] s. now rewrite collection_add_run.
  - right; left. split; [reflexivity|]. eexists. now intros [t p] s.
Qed.

Lemma upload_loop_app (l1 l2 : list UploadFile) (cnt : nat * nat) (s : State) :
  upload_loop (l1 ++ l2) cnt s
  = bind (upload_loop l1 cnt) (fun cnt' => upload_loop l2 cnt') s.
Proof.
  revert cnt s; induction l1 as [|file l1 IH]; intros cnt s; [reflexivity|].
  simpl. unfold bind.
  destruct (upload_file file cnt s) as [[e|cnt1] s1]; [reflexivity|].
  rewrite IH. reflexivity.
Qed.

(** What the loop has done when it stops, by returning or by raising. *)
Lemma upload_loop_invariant (files : list UploadFile) (cnt : nat * nat) (s : State) :
  let s' := exec (upload_loop files cnt) s in
  collection s ⊆ collection s'
  /\ processed_files s' = processed_files s
  /\ tracking_file s' = tracking_file s
  /\ processing_status s' = processing_status s
  /\ calls s' = calls s
  /\ forall cnt', eval (upload_loop files cnt) s = inr cnt' ->
       cnt.2 <= cnt'.2 <= cnt.2 + length (List.filter named_pdf files)
       /\ cnt'.2 - cnt.2 <= cnt'.1 - cnt.1
       /\ cnt.1 <= cnt'.1
       /\ size (collection s') + cnt.1 <= size (collection s) + cnt'.1.
Proof.
  revert cnt s; induction files as [|file files IH]; intros cnt s; simpl.
  { unfold exec, eval. simpl. do 5 (split; [reflexivity|]).
    intros cnt' Hret. inversion Hret; subst. repeat split; lia. }
  unfold exec, eval. simpl. unfold bind.
  destruct (upload_file_cases file)
    as [Hskip | [[Hname [e He]] | [Hname (b & n & Hn & Hb & Hadd)]]].
  - rewrite Hskip. specialize (IH cnt s). unfold exec, eval in IH. simpl in IH.
    destruct IH as (Hc & Hl & Ht & Hp & Hcalls & Hcnt).
    repeat (split; [assumption|]). intros cnt' Hret.
    specialize (Hcnt cnt' Hret). destruct (named_pdf file); simpl; lia.
  - rewrite He. simpl. repeat (split; [reflexivity|]). discriminate.
  - rewrite Hadd, Hname.
    specialize (IH (cnt.1 + n, cnt.2 + 1)
                   (set_collection (foldl add_entry (collection s) b) s)).
    unfold exec, eval in IH. simpl in IH.
    destruct IH as (Hc & Hl & Ht & Hp & Hcalls & Hcnt).
    split; [etransitivity; [apply add_entries_subseteq | exact Hc]|].
    repeat (split; [assumption|]). intros cnt' Hret.
    specialize (Hcnt cnt' Hret).
    pose proof (size_add_entries (collection s) b). simpl. lia.
Qed.

Lemma upload_pdfs_run (files : list UploadFile) (s : State) :
  upload_pdfs files s
  = (match eval (upload_loop files (0, 0)) s with
     | inl e => inl (if is_HTTPException e then e
                     else HTTPException 500 (str_exn e))
     | inr (total_chunks, processed_files) =>
         if processed_files =? 0 then inl no_pdf_processed
         else inr {| message := "Successfully processed "
                                +:+ pretty processed_files +:+ " PDF(s)";
                     total_chunks := total_chunks |}
     end, exec (upload_loop files (0, 0)) s).
Proof.
  unfold upload_pdfs, eval, exec. run.
  destruct (upload_loop files (0, 0) s) as [[e|[t p]] s1]; simpl.
  - now destruct e.
  - now destruct (p =? 0).
Qed.

(** The body of the loop on one file: it raises, or it writes the batch of
    the file and counts it. *)
Lemma upload_file_outcome (file : UploadFile) :
  (~ passes file /\ exists e, forall cnt s, upload_file file cnt s = (inl e, s))
  \/ (passes file
      /\ forall cnt s,
           upload_file file cnt s
           = (inr (counted file cnt),
              set_collection (foldl add_entry (collection s) (upload_batch file)) s)).
Proof.
  assert (Hskip : forall cnt s (file' : UploadFile),
            (inr cnt, s)
            = (inr (cnt.1 + length (@nil (string * DocumentRecord)),
                    cnt.2 + (if nonempty (@nil (string * DocumentRecord))
                             then 1 else 0)),
               set_collection (foldl add_entry (collection s) []) s)
              :> result (nat * nat) * State).
  { intros [t p] s _. simpl. now rewrite !Nat.add_0_r, set_collection_same. }
  unfold counted, upload_file, upload_batch, passes, named_pdf, batch_for.
  destruct (upload_filename file) as [file_name|];
    [|right; split; [now left|]; intros [t p] s; apply (Hskip (t, p) s file)].
  destruct (truthy file_name); simpl;
    [|right; split; [now left|]; intros [t p] s; apply (Hskip (t, p) s file)].
  destruct (endswith file_name ".pdf"); simpl;
    [|right; split; [now left|]; intros [t p] s; apply (Hskip (t, p) s file)].
  run.
  destruct (extract_text_from_pdf_bytes (upload_content file)) as [e|tc].
  { left. split; [|exists e; now intros [t p] s].
    intros [Hn | (tc & ic & Ht & _)]; discriminate. }
  destruct (extract_images_from_pdf_bytes (upload_content file)) as [e|ic].
  { left. split; [|exists e; now intros [t p] s].
    intros [Hn | (tc' & ic' & _ & Hi & _)]; discriminate. }
  destruct (nonempty (tc ++ ic)) eqn:Hchunks; simpl.
  2:{ left. split; [|eexists; now intros [t p] s].
      intros [Hn | (tc' & ic' & Ht & Hi & Hne)]; [discriminate|].
      inversion Ht; inversion Hi; subst tc' ic'.
      now destruct (tc ++ ic). }
  right. split.
  { right. exists tc, ic. split; [reflexivity|]. split; [reflexivity|].
    now destruct (tc ++ ic). }
  set (h := md5_hexdigest (upload_content file)).
  destruct (prepare_invariant h file_name (tc ++ ic)) as [Hbal _].
  set (p := prepare h file_name (tc ++ ic)) in *.
  destruct (nonempty (documents p)) eqn:Hdocs; simpl;
    [|intros [t q] s; apply (Hskip (t, q) s file)].
  destruct (nonempty (vectors p)); simpl;
    [|intros [t q] s; apply (Hskip (t, q) s file)].
  intros [t q] s. rewrite collection_add_run by exact Hbal.
  rewrite (length_entries p Hbal). simpl.
  pose proof (length_entries p Hbal) as Hlen.
  destruct (entries (ids p) (documents p) (vectors p) (metadatas p));
    [|reflexivity].
  destruct (documents p); discriminate.
Qed.

(** The loop over files it gets past: the batches are written in order and
    the files with a batch are counted. *)
Lemma upload_loop_passes (files : list UploadFile) (cnt : nat * nat) (s : State) :
  Forall passes files ->
  upload_loop files cnt s
  = (inr (cnt.1 + length (flat_map upload_batch files),
          cnt.2 + length (List.filter (fun file => nonempty (upload_batch file))
                                      files)),
     set_collection (foldl add_entry (collection s) (flat_map upload_batch files)) s).
Proof.
  revert cnt s; induction files as [|file files IH]; intros [t p] s Hall.
  { simpl. unfold ret. now rewrite !Nat.add_0_r, set_collection_same. }
  apply Forall_cons in Hall as [Hfile Hall].
  change (upload_loop (file :: files) (t, p) s)
    with (bind (upload_file file (t, p)) (fun c => upload_loop files c) s).
  unfold bind.
  destruct (upload_file_outcome file) as [[Hno _] | [_ Hrun]]; [contradiction|].
  rewrite Hrun, IH by exact Hall. unfold counted. simpl.
  rewrite length_app, foldl_app.
  destruct (nonempty (upload_batch file)); simpl;
    (f_equal; try reflexivity; f_equal; f_equal; lia).
Qed.

(** A loop that returns has got past every file. *)
Lemma upload_loop_returns (files : list UploadFile) (cnt cnt' : nat * nat)
    (s : State) :
  eval (upload_loop files cnt) s = inr cnt' -> Forall passes files.
Proof.
  revert cnt s; induction files as [|file files IH]; intros cnt s; [constructor|].
  unfold eval.
  change (upload_loop (file :: files) cnt s)
    with (bind (upload_file file cnt) (fun c => upload_loop files c) s).
  unfold bind.
  destruct (upload_file_outcome file) as [[_ [e He]] | [Hfile Hrun]].
  - rewrite He. discriminate.
  - rewrite Hrun. intros Hret. constructor; [exact Hfile|].
    eapply IH. exact Hret.
Qed.

End UploadFacts.

(** X9.  [upload_pdfs] raises nothing but an [HTTPException]; whether it
    returns or raises, it only adds entries to the collection and leaves the
    tracking file, the processing status and the recorded calls alone. *)
Theorem X9_upload_raises_http_only `{Hashlib} `{PyPDF2} `{Fitz} `{Ollama}
    (files : list UploadFile) (s : State) :
  let s' := exec (upload_pdfs files) s in
  (forall e, eval (upload_pdfs files) s = inl e -> is_HTTPException e = true)
  /\ collection s ⊆ collection s'
  /\ tracking_file s' = tracking_file s
  /\ processing_status s' = processing_status s
  /\ calls s' = calls s.
Proof.
  intros s'. subst s'. unfold eval, exec. rewrite upload_pdfs_run. simpl.
  destruct (upload_loop_invariant files (0, 0) s)
    as (Hc & _ & Ht & Hp & Hcalls & _).
  split; [|now repeat split].
  intros e. destruct (eval (upload_loop files (0, 0)) s) as [e0|[t p]].
  - intros Heq. inversion Heq; subst e.
    now destruct (is_HTTPException e0) eqn:He0.
  - destruct (p =? 0); intros Heq; inversion Heq. reflexivity.
Qed.

(** X10.  When [upload_pdfs] returns, its message reports the number of
    files for which it wrote a batch and its chunk total is the number of
    entries of these batches; the collection is the one it started with,
    with the batches of the files added in the order of the request.  At
    least one file was indexed, at most as many as are named as PDFs, each
    with at least one chunk, and the collection has grown by at most the
    chunk total. *)
Theorem X10_upload_response `{Hashlib} `{PyPDF2} `{Fitz} `{Ollama}
    (files : list UploadFile) (s : State) (response : UploadResponse) :
  eval (upload_pdfs files) s = inr response ->
  let indexed := List.filter (fun file => nonempty (upload_batch file)) files in
  let written := flat_map upload_batch files in
  message response
  = "Successfully processed " +:+ pretty (length indexed) +:+ " PDF(s)"
  /\ total_chunks response = length written
  /\ collection (exec (upload_pdfs files) s)
     = foldl add_entry (collection s) written
  /\ 1 <= length indexed <= length (List.filter named_pdf files)
  /\ length indexed <= total_chunks response
  /\ size (collection (exec (upload_pdfs files) s))
     <= size (collection s) + total_chunks response.
Proof.
  unfold eval, exec. rewrite upload_pdfs_run. simpl.
  destruct (upload_loop_invariant files (0, 0) s) as (_ & _ & _ & _ & _ & Hcnt).
  destruct (eval (upload_loop files (0, 0)) s) as [e|[t p]] eqn:Hloop;
    [discriminate|].
  pose proof (upload_loop_returns files (0, 0) (t, p) s Hloop) as Hall.
  pose proof (upload_loop_passes files (0, 0) s Hall) as Hrun.
  unfold eval in Hloop. rewrite Hrun in Hloop. simpl in Hloop.
  inversion Hloop; subst t p. clear Hloop.
  specialize (Hcnt _ eq_refl). unfold exec in *. rewrite Hrun in *.
  simpl in Hcnt. simpl.
  destruct (length (List.filter (fun file => nonempty (upload_batch file)) files)
            =? 0) eqn:Hp; [discriminate|]. apply Nat.eqb_neq in Hp.
  intros Heq. inversion Heq; subst response. simpl.
  split; [reflexivity|]. split; [reflexivity|]. split; [reflexivity|].
  repeat split; lia.
Qed.

Lemma X10_upload_response_witness :
  let upload := @upload_pdfs length_digest one_page no_images unit_embedder
                  [a_pdf_upload; text_upload; copy_pdf_upload] in
  message {| message := "Successfully processed 2 PDF(s)"; total_chunks := 2 |}
  = "Successfully processed 2 PDF(s)"
  /\ size (collection (exec upload fresh)) = 1.
Proof.
  intros upload.
  destruct (@X10_upload_response length_digest one_page no_images unit_embedder
              [a_pdf_upload; text_upload; copy_pdf_upload] fresh
              {| message := "Successfully processed 2 PDF(s)"; total_chunks := 2 |}
              eq_refl)
    as (Hmessage & _ & Hcollection & _).
  split; [exact Hmessage|].
  subst upload. rewrite Hcollection. reflexivity.
Defined.

Section UploadSkips.
Context `{Hashlib} `{PyPDF2} `{Fitz} `{Ollama}.

Lemma upload_file_skips (file : UploadFile) (cnt : nat * nat) (s : State) :
  named_pdf file = false -> upload_file file cnt s = (inr cnt, s).
Proof.
  unfold named_pdf, upload_file. destruct cnt as [t p].
  destruct (upload_filename file) as [file_name|]; [|reflexivity].
  destruct (truthy file_name); simpl; [|reflexivity].
  now destruct (endswith file_name ".pdf").
Qed.

Lemma upload_loop_filter (files : list UploadFile) (cnt : nat * nat) (s : State) :
  upload_loop files cnt s = upload_loop (List.filter named_pdf files) cnt s.
Proof.
  revert cnt s; induction files as [|file files IH]; intros cnt s;
    [reflexivity|].
  simpl. destruct (named_pdf file) eqn:Hname; simpl; unfold bind.
  - destruct (upload_file file cnt s) as [[e|cnt1] s1]; [reflexivity|apply IH].
  - rewrite upload_file_skips by exact Hname. apply IH.
Qed.

End UploadSkips.

(** X11.  Files without a name ending in ".pdf" play no part in an upload:
    the request behaves as if they had not been sent.  A request with no
    such file at all, the empty request included, is answered with status
    400 and changes nothing. *)
Theorem X11_upload_ignores_other_files `{Hashlib} `{PyPDF2} `{Fitz} `{Ollama}
    (files : list UploadFile) (s : State) :
  upload_pdfs files s = upload_pdfs (List.filter named_pdf files) s
  /\ (List.filter named_pdf files = [] ->
      upload_pdfs files s = (inl no_pdf_processed, s)).
Proof.
  assert (Heq : upload_pdfs files s = upload_pdfs (List.filter named_pdf files) s).
  { rewrite !upload_pdfs_run. unfold eval, exec.
    now rewrite <- upload_loop_filter. }
  split; [exact Heq|]. intros Hnone. rewrite Heq, Hnone. reflexivity.
Qed.

(** X12.  A file named as a PDF from which no chunk is extracted aborts the
    request with status 400, and the files after it are not looked at; what
    the files before it wrote to the collection stays.  The files before it
    are any that the loop gets past, none included: the file may be the
    first or the only one of the request. *)
Theorem X12_upload_abort_keeps_earlier_files
    `{Hashlib} `{PyPDF2} `{Fitz} `{Ollama}
    (good rest : list UploadFile) (bad : UploadFile) (file_name : string)
    (s : State) :
  Forall passes good ->
  upload_filename bad = Some file_name ->
  named_pdf bad = true ->
  extract_text_from_pdf_bytes (upload_content bad) = inr [] ->
  extract_images_from_pdf_bytes (upload_content bad) = inr [] ->
  upload_pdfs (good ++ bad :: rest) s
  = (inl (HTTPException 400 ("No content extracted from " +:+ file_name)),
     set_collection (foldl add_entry (collection s) (flat_map upload_batch good)) s).
Proof.
  intros Hgood Hname Hpdf Htext Himages.
  assert (Hbad : forall cnt s1,
            upload_file bad cnt s1
            = (inl (HTTPException 400
                      ("No content extracted from " +:+ file_name)), s1)).
  { intros [t p] s1. unfold upload_file, named_pdf in *. rewrite Hname in *.
    destruct (truthy file_name); [|discriminate].
    destruct (endswith file_name ".pdf"); [|discriminate]. simpl.
    unfold bind, lift. now rewrite Htext, Himages. }
  assert (Hloop : forall cnt s1,
            upload_loop (bad :: rest) cnt s1
            = (inl (HTTPException 400
                      ("No content extracted from " +:+ file_name)), s1)).
  { intros cnt s1.
    change (upload_loop (bad :: rest) cnt s1)
      with (bind (upload_file bad cnt) (fun c => upload_loop rest c) s1).
    unfold bind. now rewrite Hbad. }
  rewrite upload_pdfs_run. unfold eval, exec.
  rewrite upload_loop_app. unfold bind.
  rewrite (upload_loop_passes good (0, 0) s Hgood), Hloop. reflexivity.
Qed.

Lemma X12_upload_abort_keeps_earlier_files_witness :
  let upload := @upload_pdfs length_digest one_page no_images unit_embedder in
  upload [blank_pdf_upload; a_pdf_upload] fresh
  = (inl (HTTPException 400 "No content extracted from blank.pdf"), fresh)
  /\ eval collection_count
          (exec (upload [a_pdf_upload; blank_pdf_upload; a_pdf_upload]) fresh)
     = inr 1.
Proof.
  intros upload. subst upload. split.
  - apply (@X12_upload_abort_keeps_earlier_files length_digest one_page
             no_images unit_embedder [] [a_pdf_upload]
             blank_pdf_upload "blank.pdf" fresh
             ltac:(constructor) eq_refl eq_refl eq_refl eq_refl).
  - unfold exec.
    change [a_pdf_upload; blank_pdf_upload; a_pdf_upload]
      with ([a_pdf_upload] ++ blank_pdf_upload :: [a_pdf_upload]).
    rewrite (@X12_upload_abort_keeps_earlier_files length_digest one_page
               no_images unit_embedder [a_pdf_upload] [a_pdf_upload]
               blank_pdf_upload "blank.pdf" fresh).
    + reflexivity.
    + constructor; [|constructor]. right. eexists _, _.
      split; [reflexivity|]. split; [reflexivity | discriminate].
    + reflexivity.
    + reflexivity.
    + reflexivity.
    + reflexivity.
Defined.

(** ** main.py: the batch prepared for a file *)

Section StripFacts.

Lemma lstrip_idem (s : string) : lstrip (lstrip s) = lstrip s.
Proof.
  induction s as [|c s IH]; simpl; [reflexivity|].
  destruct (isspace c) eqn:Hc; simpl; [exact IH | now rewrite Hc].
Qed.

Lemma rstrip_idem (s : string) : rstrip (rstrip s) = rstrip s.
Proof.
  induction s as [|c s IH]; simpl; [reflexivity|].
  destruct (rstrip s) as [|d r] eqn:Hr.
  - destruct (isspace c) eqn:Hc; simpl; [reflexivity | now rewrite Hc].
  - change (rstrip (String c (String d r))) with
      (match rstrip (String d r) with
       | EmptyString => if isspace c then EmptyString else String c EmptyString
       | String x y => String c (String x y)
       end).
    now rewrite IH.
Qed.

Lemma lstrip_rstrip (s : string) : rstrip (lstrip s) = lstrip (rstrip s).
Proof.
  induction s as [|c s IH]; simpl; [reflexivity|].
  destruct (isspace c) eqn:Hc.
  - rewrite IH. destruct (rstrip s) as [|d r]; simpl; now rewrite ?Hc.
  - simpl. destruct (rstrip s) as [|d r]; simpl; now rewrite ?Hc.
Qed.

(** Trimming twice is trimming once. *)
Lemma strip_idem (s : string) : strip (strip s) = strip s.
Proof.
  unfold strip. now rewrite lstrip_rstrip, lstrip_idem, rstrip_idem.
Qed.

Lemma append_inj_l (a x y : string) : a +:+ x = a +:+ y -> x = y.
Proof.
  induction a as [|c a IH]; [trivial|].
  rewrite !append_cons. intros Heq. inversion Heq. now apply IH.
Qed.

Lemma NoDup_snoc {A} (l : list A) (x : A) :
  NoDup l -> ~ In x l -> NoDup (l ++ [x]).
Proof.
  induction 1 as [|y l Hy Hl IH]; intros Hx; simpl.
  - constructor; [intros Hin; inversion Hin | constructor].
  - constructor.
    + rewrite elem_of_app. intros [Hin | Hin]; [contradiction|].
      apply list_elem_of_singleton in Hin. subst y. apply Hx. now left.
    + apply IH. intros Hin. apply Hx. now right.
Qed.

End StripFacts.

Section BatchFacts.
Context `{Ollama}.

(** The loop over the chunks, started at ordinal [a] with the lists [acc]:
    what holds of the lists when every id in them has an ordinal below
    [a]. *)
Lemma prepare_chunk_step (file_hash file_name : string) (a : nat)
    (acc : Prepared) (chunk : Chunk) :
  let good (n : nat) (p : Prepared) :=
    (forall id, In id (ids p) ->
       exists j, j < n /\ id = file_hash +:+ "_" +:+ pretty j)
    /\ NoDup (ids p)
    /\ length (ids p) <= n
    /\ Forall (fun d => truthy d = true /\ strip d = d) (documents p)
    /\ Forall (fun v => v <> []) (vectors p)
    /\ Forall (fun m => filename m = file_name) (metadatas p) in
  good a acc -> good (S a) (prepare_chunk file_hash file_name acc (a, chunk)).
Proof.
  intros good (Hnamed & Hnodup & Hlen & Hdocs & Hvecs & Hmeta).
  assert (Hweak : good (S a) acc).
  { repeat split; try assumption; [|lia].
    intros id Hid. destruct (Hnamed id Hid) as [j [Hj Heq]].
    exists j. split; [lia | exact Heq]. }
  unfold prepare_chunk.
  destruct (truthy (strip (text chunk))) eqn:Htext; simpl; [|exact Hweak].
  destruct (generate_embedding (strip (text chunk))) as [e|v]; [exact Hweak|].
  destruct v as [|x v]; simpl; [exact Hweak|].
  unfold good. simpl. split; [|split; [|split; [|split; [|split]]]].
  - intros id Hid. apply in_app_iff in Hid as [Hid | [<- | []]].
    + destruct (Hnamed id Hid) as [j [Hj Heq]]. exists j. split; [lia | exact Heq].
    + exists a. split; [lia | reflexivity].
  - apply NoDup_snoc; [exact Hnodup|]. intros Hin.
    destruct (Hnamed _ Hin) as [j [Hj Heq]].
    apply append_inj_l, append_inj_l in Heq.
    apply (inj pretty) in Heq. lia.
  - rewrite length_app. simpl. lia.
  - apply Forall_app. split; [exact Hdocs|].
    constructor; [|constructor]. split; [exact Htext | apply strip_idem].
  - apply Forall_app. split; [exact Hvecs|].
    constructor; [discriminate | constructor].
  - apply Forall_app. split; [exact Hmeta|]. now repeat constructor.
Qed.

End BatchFacts.

(** X13.  The batch prepared for a file has four lists of equal length, at
    most one entry per chunk, and pairwise distinct ids; every document in
    it is non-empty and already trimmed, every embedding is non-empty, and
    every entry carries the name of the file. *)
Theorem X13_prepared_batch_is_well_formed `{Ollama}
    (file_hash file_name : string) (all_chunks : list Chunk) :
  let p := prepare file_hash file_name all_chunks in
  balanced p
  /\ length (ids p) <= length all_chunks
  /\ NoDup (ids p)
  /\ Forall (fun d => truthy d = true /\ strip d = d) (documents p)
  /\ Forall (fun v => v <> []) (vectors p)
  /\ Forall (fun m => filename m = file_name) (metadatas p).
Proof.
  intros p. split; [apply prepare_invariant|].
  assert (Hgen : forall (l : list Chunk) (a : nat) (acc : Prepared),
    ((forall id, In id (ids acc) ->
        exists j, j < a /\ id = file_hash +:+ "_" +:+ pretty j)
     /\ NoDup (ids acc)
     /\ length (ids acc) <= a
     /\ Forall (fun d => truthy d = true /\ strip d = d) (documents acc)
     /\ Forall (fun v => v <> []) (vectors acc)
     /\ Forall (fun m => filename m = file_name) (metadatas acc)) ->
    let q := fold_left (prepare_chunk file_hash file_name)
                       (zip (seq a (length l)) l) acc in
    NoDup (ids q)
    /\ length (ids q) <= a + length l
    /\ Forall (fun d => truthy d = true /\ strip d = d) (documents q)
    /\ Forall (fun v => v <> []) (vectors q)
    /\ Forall (fun m => filename m = file_name) (metadatas q)).
  { induction l as [|c l IH]; intros a acc Hacc; simpl.
    - destruct Hacc as (_ & Hn & Hl & Hrest). split; [exact Hn|].
      split; [lia | exact Hrest].
    - pose proof (prepare_chunk_step file_hash file_name a acc c Hacc) as Hstep.
      specialize (IH (S a) _ Hstep). simpl in IH.
      replace (a + S (length l)) with (S a + length l) by lia. exact IH. }
  destruct (Hgen all_chunks 0 nothing_prepared) as (Hn & Hl & Hrest).
  { repeat split; simpl; try constructor; try lia; intros id []. }
  split; [exact Hl|]. split; [exact Hn | exact Hrest].
Qed.

Section ProcessCases.
Context `{Disk} `{PyPDF2} `{Fitz} `{Ollama}.

(** The three outcomes of [process_single_pdf], none of which depends on
    the state it starts in. *)
Lemma process_single_pdf_cases (f : Path) (h : string) :
  (exists e, ingestion_error f e
             /\ forall s, process_single_pdf f h s = (inl e, s))
  \/ ((forall e, ~ ingestion_error f e)
      /\ forall s, process_single_pdf f h s = (inr 0, s))
  \/ ((forall e, ~ ingestion_error f e)
      /\ exists n b,
           0 < n /\ length b = n
           /\ forall s, process_single_pdf f h s
                        = (inr n, set_collection (foldl add_entry (collection s) b) s)).
Proof.
  unfold process_single_pdf. run.
  destruct (read_bytes f) as [e|content] eqn:Hread.
  { left. exists e. split; [now left | now intros s]. }
  destruct (extract_text_from_pdf_bytes content) as [e|tc] eqn:Htext.
  { left. exists e. split; [|now intros s].
    right. exists content. split; [exact Hread | now left]. }
  destruct (extract_images_from_pdf_bytes content) as [e|ic] eqn:Himages.
  { left. exists e. split; [|now intros s].
    right. exists content. split; [exact Hread|]. right. now exists tc. }
  assert (Hfine : forall e, ~ ingestion_error f e).
  { intros e [Hr | [b [Hb [Ht | [tc0 [_ Hi]]]]]]; try congruence;
      rewrite Hread in Hb; inversion Hb; subst b; congruence. }
  right.
  destruct (nonempty (tc ++ ic)); simpl; [|left; split; [exact Hfine | now intros s]].
  destruct (prepare_invariant h (name f) (tc ++ ic)) as [Hbal _].
  set (p := prepare h (name f) (tc ++ ic)) in *.
  destruct (nonempty (documents p)) eqn:Hdocs; simpl;
    [|left; split; [exact Hfine | now intros s]].
  destruct (nonempty (vectors p)); simpl;
    [|left; split; [exact Hfine | now intros s]].
  right. split; [exact Hfine|].
  exists (length (documents p)),
         (entries (ids p) (documents p) (vectors p) (metadatas p)).
  split; [destruct (documents p); [discriminate | simpl; lia]|].
  split; [now apply length_entries|].
  intros s. now rewrite collection_add_run.
Qed.

End ProcessCases.

(** X14.  [process_single_pdf] raises the error of the read, or that of the
    first decoder that rejects the document, and then changes nothing.  Once
    the file is read and both decoders have returned, no chunk makes it
    raise, blank or failing to embed as it may be: with nothing to write it
    returns 0 and changes nothing, and otherwise it does what the write of
    the batch does, returning the number of documents written or raising
    the error of the write again.  When it returns [n], the collection has
    only grown, by at most [n] entries. *)
Theorem X14_process_single_pdf_outcomes `{Disk} `{PyPDF2} `{Fitz} `{Ollama}
    (f : Path) (h : string) (s : State) :
  let s' := exec (process_single_pdf f h) s in
  (forall e, ingestion_error f e -> process_single_pdf f h s = (inl e, s))
  /\ (forall content text_chunks image_chunks,
        read_bytes f = inr content ->
        extract_text_from_pdf_bytes content = inr text_chunks ->
        extract_images_from_pdf_bytes content = inr image_chunks ->
        let p := prepare h (name f) (text_chunks ++ image_chunks) in
        process_single_pdf f h s
        = if nonempty (documents p)
          then (collection_add (documents p) (vectors p) (ids p) (metadatas p) ;;;
                ret (length (documents p))) s
          else (inr 0, s))
  /\ (forall n, eval (process_single_pdf f h) s = inr n ->
        collection s ⊆ collection s'
        /\ size (collection s') <= size (collection s) + n
        /\ (n = 0 -> s' = s)).
Proof.
  intros s'. split; [|split].
  - intros e He. unfold process_single_pdf. run.
    destruct He as [Hr | (b & Hb & [Ht | (tc & Ht & Hi)])].
    + now rewrite Hr.
    + rewrite Hb. simpl. now rewrite Ht.
    + rewrite Hb. simpl. rewrite Ht. simpl. now rewrite Hi.
  - intros content tc ic Hread Htext Himages p.
    unfold process_single_pdf. run. rewrite Hread. simpl.
    rewrite Htext. simpl. rewrite Himages. simpl.
    destruct (nonempty (tc ++ ic)) eqn:Hchunks; simpl.
    + fold p. destruct (prepare_invariant h (name f) (tc ++ ic)) as [Hbal _].
      fold p in Hbal.
      assert (Hv : nonempty (vectors p) = nonempty (documents p)).
      { destruct Hbal as (Hd & Hv & _).
        apply nonempty_length. congruence. }
      rewrite Hv, andb_diag.
      destruct (nonempty (documents p)); [|reflexivity].
      now destruct (collection_add (documents p) (vectors p) (ids p)
                      (metadatas p) s) as [[e|u] s1].
    + assert (Hnil : tc ++ ic = []) by (now destruct (tc ++ ic)).
      subst p. rewrite Hnil. reflexivity.
  - subst s'. unfold eval, exec.
    destruct (process_single_pdf_cases f h)
      as [[e0 [Herr Hrun]] | [[Hfine Hrun] | [Hfine (n0 & b & Hn & Hb & Hrun)]]];
      rewrite Hrun; simpl.
    + discriminate.
    + intros n Heq. inversion Heq; subst n.
      split; [reflexivity|]. split; [lia | reflexivity].
    + intros n Heq. assert (Hnn : n = n0) by congruence. subst n.
      split; [apply add_entries_subseteq|].
      split; [rewrite <- Hb; apply size_add_entries | lia].
Qed.

Lemma X14_process_single_pdf_outcomes_witness :
  @process_single_pdf two_pdfs broken_reader no_images unit_embedder
    "a.pdf" "1" fresh
  = (inl (Exception "EOF marker not found"), fresh).
Proof.
  apply (@X14_process_single_pdf_outcomes two_pdfs broken_reader no_images
           unit_embedder "a.pdf" "1" fresh).
  right. exists [Byte.x25]. split; [reflexivity | now left].
Defined.

(** ** utils/embeddings.py *)

Lemma generate_embedding_nonempty `{Ollama} (text : string) (v : list float) :
  generate_embedding text = inr v -> v <> [].
Proof.
  revert v. unfold generate_embedding.
  destruct (negb (truthy text) || negb (truthy (strip text))); [discriminate|].
  destruct (ollama_embeddings text) as [e0|[[|x v]|]]; simpl; try discriminate.
  intros v0 Hv. inversion Hv. discriminate.
Qed.

Lemma generate_embedding_blank `{Ollama} (text : string) :
  truthy (strip text) = false ->
  generate_embedding text
  = inl (embedding_error "Cannot generate embedding for empty text").
Proof.
  intros Hblank. unfold generate_embedding. rewrite Hblank.
  now rewrite orb_true_r.
Qed.

(** X15.  [generate_embedding] returns only what the model returned, and only
    a non-empty vector for a text that is not blank.  Every failure is a
    [ValueError] whose message starts with "Error generating embedding: ";
    a blank text, a missing field and an empty vector each have their own
    message. *)
Theorem X15_generate_embedding_outcomes `{Ollama} (text : string) :
  (forall v, generate_embedding text = inr v ->
     v <> [] /\ truthy (strip text) = true
     /\ ollama_embeddings text = inr (Some v))
  /\ (forall e, generate_embedding text = inl e ->
        exists msg, e = embedding_error msg)
  /\ (truthy (strip text) = false ->
      generate_embedding text
      = inl (embedding_error "Cannot generate embedding for empty text"))
  /\ (truthy (strip text) = true ->
      (ollama_embeddings text = inr None ->
       generate_embedding text
       = inl (embedding_error "Ollama response missing 'embedding' field"))
      /\ (ollama_embeddings text = inr (Some []) ->
          generate_embedding text
          = inl (embedding_error "Ollama returned empty embedding"))
      /\ (forall e, ollama_embeddings text = inl e ->
            generate_embedding text = inl (embedding_error (str_exn e)))).
Proof.
  assert (Hblank : truthy text = false -> truthy (strip text) = false).
  { destruct text; [reflexivity | discriminate]. }
  unfold generate_embedding, embedding_error.
  destruct (truthy text) eqn:Ht; simpl.
  2:{ rewrite (Hblank eq_refl). simpl.
      split; [discriminate|]. split; [intros e He; inversion He; eauto|].
      split; [reflexivity | discriminate]. }
  destruct (truthy (strip text)) eqn:Hs; simpl.
  2:{ split; [discriminate|]. split; [intros e He; inversion He; eauto|].
      split; [reflexivity | discriminate]. }
  destruct (ollama_embeddings text) as [e0|[[|x v]|]] eqn:Hcall; simpl.
  - split; [discriminate|]. split; [intros e He; inversion He; eauto|].
    split; [discriminate|]. intros _.
    split; [discriminate|]. split; [discriminate|].
    intros e He. inversion He. reflexivity.
  - split; [discriminate|]. split; [intros e He; inversion He; eauto|].
    split; [discriminate|]. intros _.
    split; [discriminate|]. split; [reflexivity | discriminate].
  - split; [intros v0 Hv; inversion Hv; subst; now repeat split|].
    split; [discriminate|]. split; [discriminate|]. intros _.
    split; [discriminate|]. split; discriminate.
  - split; [discriminate|]. split; [intros e He; inversion He; eauto|].
    split; [discriminate|]. intros _.
    split; [reflexivity|]. split; discriminate.
Qed.

(** X16.  [generate_embeddings_batch] returns the embeddings of the texts
    that could be embedded, in the order of the texts; the texts that could
    not are passed over, so the result can be shorter than the input, and it
    never holds an empty vector. *)
Theorem X16_embeddings_batch_skips_failures `{Ollama} (texts : list string) :
  generate_embeddings_batch texts = flat_map embedded texts
  /\ length (generate_embeddings_batch texts) <= length texts
  /\ Forall (fun v => v <> []) (generate_embeddings_batch texts)
  /\ (length (generate_embeddings_batch texts) = length texts <->
      Forall (fun t => exists v, generate_embedding t = inr v) texts).
Proof.
  assert (Hfold : forall l acc,
            fold_left
              (fun embeddings text =>
                 match generate_embedding text with
                 | inr embedding => embeddings ++ [embedding]
                 | inl _ => embeddings
                 end) l acc
            = acc ++ flat_map embedded l).
  { induction l as [|t l IH]; intros acc; simpl; [now rewrite app_nil_r|].
    rewrite IH. unfold embedded at 2.
    destruct (generate_embedding t); simpl; [reflexivity|].
    now rewrite <- app_assoc. }
  assert (Heq : generate_embeddings_batch texts = flat_map embedded texts).
  { unfold generate_embeddings_batch. now rewrite Hfold. }
  rewrite Heq. split; [reflexivity|].
  assert (Hlen : forall l, length (flat_map embedded l) <= length l).
  { induction l as [|t l IH]; simpl; [lia|]. rewrite length_app.
    unfold embedded at 1. destruct (generate_embedding t); simpl; lia. }
  split; [apply Hlen|]. split.
  - induction texts as [|t l IH]; simpl; [constructor|].
    apply Forall_app. split; [|apply IH; unfold generate_embeddings_batch;
                                now rewrite Hfold].
    unfold embedded. destruct (generate_embedding t) as [e|v] eqn:Hv;
      [constructor|].
    constructor; [|constructor].
    exact (generate_embedding_nonempty t v Hv).
  - clear Heq. induction texts as [|t l IH]; simpl.
    + split; [constructor | reflexivity].
    + rewrite length_app. unfold embedded at 1.
      destruct (generate_embedding t) as [e|v] eqn:Hv; simpl.
      * split.
        -- intros Hl. pose proof (Hlen l). lia.
        -- intros Hall. inversion Hall as [|? ? [v Hv'] ?]. congruence.
      * rewrite Nat.succ_inj_wd, IH. split.
        -- intros Hall. constructor; [now exists v | exact Hall].
        -- intros Hall. now inversion Hall.
Qed.

(** ** utils/pdf_processor.py and utils/image_extractor.py *)

Section ExtractorFacts.

Lemma in_zip_seq {A} (l : list A) (a i : nat) (x : A) :
  In (i, x) (zip (seq a (length l)) l) -> a <= i < a + length l /\ In x l.
Proof.
  revert a; induction l as [|y l IH]; intros a; simpl; [tauto|].
  intros [Heq | Hin].
  - inversion Heq; subst. split; [lia | now left].
  - destruct (IH (S a) Hin) as [Hi Hx]. split; [lia | now right].
Qed.

Lemma split_page_ok (n page_num : nat) (page : string) (c : Chunk) :
  page_num < n ->
  In c (split_page CHUNK_SIZE page_num page) -> text_chunk_ok n c.
Proof.
  intros Hn. unfold split_page. rewrite in_flat_map.
  intros (w & Hw & Hc).
  destruct (truthy (strip w)) eqn:Hkeep; [|destruct Hc].
  destruct Hc as [<- | []]. unfold text_chunk_ok. simpl.
  split; [exact Hkeep|]. split; [apply strip_idem|]. split.
  - pose proof (windows_bounded CHUNK_SIZE page) as Hb.
    rewrite List.Forall_forall in Hb. specialize (Hb w Hw).
    pose proof (length_strip w). lia.
  - repeat split; lia.
Qed.

Lemma page_chunks_ok (n page_num : nat) (p : page_text) (c : Chunk) :
  page_num < n -> In c (page_chunks CHUNK_SIZE page_num p) -> text_chunk_ok n c.
Proof.
  intros Hn. unfold page_chunks. destruct p as [e|page]; [intros []|].
  destruct (negb (truthy page) || negb (truthy (strip page))); [intros []|].
  now apply split_page_ok.
Qed.

Lemma lookup_zip_seq {A} (l : list A) (a i : nat) (x : A) :
  l !! i = Some x -> In (a + i, x) (zip (seq a (length l)) l).
Proof.
  revert a i; induction l as [|y l IH]; intros a [|i]; simpl; try discriminate.
  - intros Heq. inversion Heq. left. f_equal. lia.
  - intros Hi. right. replace (a + S i) with (S a + i) by lia. now apply IH.
Qed.

Lemma kept_window_exists (ws : list string) :
  all_space (str_concat ws) = false -> exists w, In w ws /\ keeps w = true.
Proof.
  induction ws as [|w ws IH]; simpl; [discriminate|].
  rewrite all_space_append. destruct (all_space w) eqn:Hw; simpl.
  - intros Hrest. destruct (IH Hrest) as [w' [Hin Hk]].
    exists w'. split; [now right | exact Hk].
  - intros _. exists w. split; [now left|].
    unfold keeps. destruct (truthy (strip w)) eqn:Hs; [reflexivity|].
    apply strip_empty in Hs. congruence.
Qed.

(** A page that is not blank yields at least one chunk. *)
Lemma split_page_present (page_num : nat) (page : string) :
  truthy (strip page) = true ->
  exists c, In c (split_page CHUNK_SIZE page_num page)
            /\ chunk_page c = page_num + 1.
Proof.
  intros Hpage.
  assert (Hns : all_space page = false).
  { destruct (all_space page) eqn:Ha; [|reflexivity].
    apply strip_empty in Ha. congruence. }
  rewrite <- (windows_concat CHUNK_SIZE CHUNK_SIZE_pos page) in Hns.
  destruct (kept_window_exists _ Hns) as [w [Hin Hk]].
  eexists. split.
  - unfold split_page. apply in_flat_map. exists w. split; [exact Hin|].
    unfold keeps in Hk. rewrite Hk. now left.
  - reflexivity.
Qed.

Lemma describe_truthy `{Ollama} (image_bytes : bytes) :
  truthy (describe_image_with_llava image_bytes) = true
  /\ (describe_image_with_llava image_bytes = placeholder_description
      \/ exists description,
           describe_image_with_llava image_bytes
           = "[IMAGE DESCRIPTION] " +:+ description).
Proof.
  unfold describe_image_with_llava.
  destruct (ollama_chat image_bytes) as [e|d].
  - split; [reflexivity | now left].
  - split; [reflexivity | right; now exists d].
Qed.

(** An image yields one chunk when it is decoded and large enough, and none
    otherwise, whether or not the vision model answers. *)
Lemma image_chunk_count `{Ollama} (page_num img_index : nat) (img : result RawImage) :
  length (image_chunk page_num img_index img)
  = if large_enough img then 1 else 0.
Proof.
  unfold image_chunk, large_enough. destruct img as [e|im]; [reflexivity|].
  rewrite !Nat.ltb_antisym.
  destruct (MIN_IMAGE_SIZE <=? width im), (MIN_IMAGE_SIZE <=? height im);
    try reflexivity.
  cbn [negb orb andb].
  now destruct (describe_truthy (image im)) as [-> _].
Qed.

Lemma image_chunk_ok_in `{Ollama} (n page_num img_index : nat)
    (img : result RawImage) (c : Chunk) :
  page_num < n -> In c (image_chunk page_num img_index img) -> image_chunk_ok n c.
Proof.
  intros Hn. unfold image_chunk. destruct img as [e|im]; [intros []|].
  destruct ((width im <? MIN_IMAGE_SIZE) || (height im <? MIN_IMAGE_SIZE));
    [intros []|].
  destruct (describe_truthy (image im)) as [Ht Hform]. rewrite Ht.
  intros [<- | []]. unfold image_chunk_ok. simpl.
  split; [exact Ht|]. split; [exact Hform|]. split; [reflexivity|].
  split; [lia|]. split; eauto.
Qed.

Lemma page_images_count `{Ollama} (page_num a : nat)
    (image_list : list (result RawImage)) :
  length (flat_map (fun '(img_index, img) => image_chunk page_num img_index img)
                   (zip (seq a (length image_list)) image_list))
  = length (List.filter large_enough image_list).
Proof.
  revert a; induction image_list as [|img l IH]; intros a; simpl; [reflexivity|].
  rewrite length_app, image_chunk_count, IH.
  now destruct (large_enough img).
Qed.

Lemma document_images_count `{Ollama} (a : nat)
    (pdf_document : list (list (result RawImage))) :
  length (flat_map
            (fun '(page_num, image_list) =>
               flat_map (fun '(img_index, img) => image_chunk page_num img_index img)
                        (enumerate image_list))
            (zip (seq a (length pdf_document)) pdf_document))
  = length (List.filter large_enough (concat pdf_document)).
Proof.
  revert a; induction pdf_document as [|image_list l IH]; intros a; simpl;
    [reflexivity|].
  rewrite length_app, List.filter_app, length_app, IH.
  f_equal. apply page_images_count.
Qed.

End ExtractorFacts.

(** X17.  When the document opens, the text pass returns chunks that are
    non-empty, trimmed, of at most CHUNK_SIZE characters, of type "text",
    and on a page between 1 and the number of pages; a page whose extraction
    raises does not stop the pass.  When the reader rejects the document the
    pass raises its error.  [extract_text_from_pdf] does the same on the
    bytes of a file of the directory. *)
Theorem X17_text_pass_chunks `{Disk} `{PyPDF2}
    (pdf_bytes : bytes) (pages : list page_text) :
  PdfReader_pages pdf_bytes = inr pages ->
  exists chunks,
    extract_text_from_pdf_bytes pdf_bytes = inr chunks
    /\ Forall (text_chunk_ok (length pages)) chunks
    /\ chunks = flat_map (fun '(page_num, p) => page_chunks CHUNK_SIZE page_num p)
                         (enumerate pages)
    /\ (forall i page,
          pages !! i = Some (Extracted page) -> truthy (strip page) = true ->
          exists c, In c chunks /\ chunk_page c = i + 1)
    /\ (forall f, read_bytes f = inr pdf_bytes ->
          extract_text_from_pdf f = inr chunks).
Proof.
  intros Hpages. unfold extract_text_from_pdf_bytes, extract_text_from_pdf.
  rewrite Hpages. eexists. split; [reflexivity|]. split; [|split; [reflexivity|split]].
  - apply List.Forall_forall. intros c Hc. apply in_flat_map in Hc.
    destruct Hc as ([page_num p] & Hin & Hc).
    apply in_zip_seq in Hin as [Hi _]. apply (page_chunks_ok _ page_num p); [lia|].
    exact Hc.
  - intros i page Hi Hpage.
    destruct (split_page_present i page Hpage) as [c [Hc Hnum]].
    exists c. split; [|exact Hnum]. apply in_flat_map.
    exists (i, Extracted page). split.
    + apply (lookup_zip_seq pages 0 i). exact Hi.
    + unfold page_chunks. destruct page as [|x page]; [discriminate|].
      simpl. now rewrite Hpage.
  - intros f Hf. now rewrite Hf, Hpages.
Qed.

Lemma X17_text_pass_chunks_witness :
  exists chunks,
    @extract_text_from_pdf_bytes second_page_broken [Byte.x25] = inr chunks
    /\ map text chunks = ["first page"; "third page"]
    /\ map chunk_page chunks = [1; 3].
Proof.
  destruct (@X17_text_pass_chunks two_pdfs second_page_broken [Byte.x25]
              [Extracted "first page"; ExtractRaises (Exception "bad stream");
               Extracted "third page"] eq_refl)
    as (chunks & Hrun & _ & Heq & _).
  exists chunks. split; [exact Hrun|]. rewrite Heq. split; reflexivity.
Defined.

(** X18.  When the document opens, the image pass returns one chunk for each
    image that is decoded and at least MIN_IMAGE_SIZE wide and high, and
    none for the others; a failure of the vision model does not drop the
    image, it gives the chunk the placeholder description.  Every chunk has
    a non-empty text, the type "image", a page between 1 and the number of
    pages, an image index and dimensions.  [extract_images_from_pdf] does
    the same on the bytes of a file of the directory. *)
Theorem X18_image_pass_chunks `{Disk} `{Fitz} `{Ollama}
    (pdf_bytes : bytes) (pdf_document : list (list (result RawImage))) :
  fitz_page_images pdf_bytes = inr pdf_document ->
  exists chunks,
    extract_images_from_pdf_bytes pdf_bytes = inr chunks
    /\ length chunks = length (List.filter large_enough (concat pdf_document))
    /\ Forall (image_chunk_ok (length pdf_document)) chunks
    /\ (forall f, read_bytes f = inr pdf_bytes ->
          extract_images_from_pdf f = inr chunks).
Proof.
  intros Hdoc. unfold extract_images_from_pdf_bytes, extract_images_from_pdf.
  rewrite Hdoc. eexists. split; [reflexivity|]. split; [|split].
  - apply (document_images_count 0).
  - apply List.Forall_forall. intros c Hc. apply in_flat_map in Hc.
    destruct Hc as ([page_num image_list] & Hin & Hc).
    apply in_zip_seq in Hin as [Hi _]. apply in_flat_map in Hc.
    destruct Hc as ([img_index img] & _ & Hc).
    apply (image_chunk_ok_in _ page_num img_index img); [lia | exact Hc].
  - intros f Hf. now rewrite Hf, Hdoc.
Qed.

Lemma X18_image_pass_chunks_witness :
  exists chunks,
    @extract_images_from_pdf_bytes icon_and_screenshot failing_embedder [Byte.x25]
    = inr chunks
    /\ map text chunks = [placeholder_description]
    /\ map dimensions chunks = [Some "800x600"].
Proof.
  destruct (@X18_image_pass_chunks two_pdfs icon_and_screenshot failing_embedder
              [Byte.x25]
              [ [ inr {| image := [Byte.x01]; width := 32; height := 32 |};
                  inr {| image := [Byte.x02]; width := 800; height := 600 |} ];
                [ inl (Exception "cannot identify image file") ] ] eq_refl)
    as (chunks & Hrun & _).
  exists chunks. split; [exact Hrun|].
  vm_compute in Hrun. inversion Hrun; subst chunks. split; reflexivity.
Defined.

(** ** utils/web_search.py *)

Section SearchFacts.
Context `{Environ} `{Providers}.

Lemma truthy_join_cons (sep x : string) (l : list string) :
  truthy x = true -> truthy (join sep (x :: l)) = true.
Proof.
  intros Hx. unfold join. simpl. destruct l; [exact Hx|].
  now rewrite truthy_append, Hx.
Qed.

(** The dictionary built from the hits of a provider. *)
Lemma hits_dictionary (label : string) (n : nat) (hits : list SearchHit) :
  let found := take n hits in
  let w := {| context := join (nl +:+ nl) (map (format_hit label) found);
              web_search.sources := map url found; results := found |} in
  length (results w) <= n
  /\ web_search.sources w = map url (results w)
  /\ (truthy (context w) = true <-> results w <> []).
Proof.
  simpl. split; [rewrite length_take; lia|]. split; [reflexivity|].
  destruct (take n hits) as [|r found]; simpl.
  - split; [discriminate | congruence].
  - split; [discriminate|]. intros _. now apply truthy_join_cons.
Qed.

End SearchFacts.

(** X19.  With a provider configured, [search_web] never raises: it makes one
    request to that provider and returns the first [num_results] hits of the
    answer, their URLs as sources in the same order, and as context their
    renderings joined by blank lines, which is non-empty exactly when there
    is a hit.  A request that fails gives the empty result. *)
Theorem X19_configured_search `{Environ} `{Providers}
    (p query : string) (num_results : nat) (s : State) :
  WEB_SEARCH_PROVIDER = Some p ->
  exists w s',
    search_web query num_results None s = (inr w, s')
    /\ only_calls_added s s'
    /\ calls s' = calls s ++ [SearchWeb query num_results;
                              ProviderRequest p query num_results]
    /\ match provider_response p query num_results with
       | inl _ => w = no_results
       | inr hits => results w = take num_results hits
       end
    /\ web_search.sources w = map url (results w)
    /\ context w
       = join (nl +:+ nl) (map (format_hit (snippet_label p)) (results w))
    /\ length (results w) <= num_results
    /\ (truthy (context w) = true <-> results w <> []).
Proof.
  unfold WEB_SEARCH_PROVIDER, search_web, WEB_SEARCH_PROVIDER.
  assert (Hempty : forall label,
            web_search.sources no_results = map url (results no_results)
            /\ context no_results
               = join (nl +:+ nl) (map (format_hit label) (results no_results))
            /\ length (results no_results) <= num_results
            /\ (truthy (context no_results) = true <-> results no_results <> [])).
  { intros label. simpl. split; [reflexivity|]. split; [reflexivity|].
    split; [lia|]. split; [discriminate | congruence]. }
  assert (Hhits : forall label hits,
            let found := take num_results hits in
            let w := {| context := join (nl +:+ nl) (map (format_hit label) found);
                        web_search.sources := map url found; results := found |} in
            web_search.sources w = map url (results w)
            /\ context w = join (nl +:+ nl) (map (format_hit label) (results w))
            /\ length (results w) <= num_results
            /\ (truthy (context w) = true <-> results w <> [])).
  { intros label hits found w.
    destruct (hits_dictionary label num_results hits) as (Hl & Hs & Hc).
    split; [exact Hs|]. split; [reflexivity|]. now split. }
  assert (Hframe : forall c1 c2,
            only_calls_added s
              (set_calls (calls (set_calls (calls s ++ [c1]) s) ++ [c2])
                         (set_calls (calls s ++ [c1]) s))
            /\ calls (set_calls (calls (set_calls (calls s ++ [c1]) s) ++ [c2])
                                (set_calls (calls s ++ [c1]) s))
               = calls s ++ [c1; c2]).
  { intros c1 c2. unfold only_calls_added. simpl. rewrite <- app_assoc. simpl.
    repeat split. now exists [c1; c2]. }
  unfold provider_response, snippet_label.
  destruct (truthy BRAVE_API_KEY) eqn:Hb.
  - intros Hp. inversion Hp; subst p. simpl. unfold search_brave. rewrite Hb. run.
    destruct (brave_request query num_results) as [e|data]; simpl;
      eexists _, _; (split; [reflexivity|]);
      (split; [apply Hframe|]); (split; [apply Hframe|]).
    + split; [reflexivity | apply Hempty].
    + destruct data as [items|].
      * split; [reflexivity | apply Hhits].
      * split; [now destruct num_results | apply Hempty].
  - destruct (truthy TAVILY_API_KEY) eqn:Ht; [|discriminate].
    intros Hp. inversion Hp; subst p. simpl. unfold search_tavily. rewrite Ht. run.
    destruct (tavily_search query num_results) as [e|data]; simpl;
      eexists _, _; (split; [reflexivity|]);
      (split; [apply Hframe|]); (split; [apply Hframe|]).
    + split; [reflexivity | apply Hempty].
    + split; [reflexivity | apply Hhits].
Qed.

Lemma X19_configured_search_witness :
  (exists w s',
     @search_web tavily_key five_hits "q" 3 None fresh = (inr w, s')
     /\ map title (results w) = ["Title 1"; "Title 2"; "Title 3"]
     /\ web_search.sources w = map url (results w))
  /\ (exists s',
        @search_web brave_key timing_out "q" 3 None fresh = (inr no_results, s')).
Proof.
  split.
  - destruct (@X19_configured_search tavily_key five_hits "tavily" "q" 3 fresh eq_refl)
      as (w & s' & Hrun & _ & _ & Hfound & Hsources & _).
    exists w, s'. split; [exact Hrun|]. split; [|exact Hsources].
    simpl in Hfound. now rewrite Hfound.
  - destruct (@X19_configured_search brave_key timing_out "brave" "q" 3 fresh eq_refl)
      as (w & s' & Hrun & _ & _ & Hfailed & _).
    simpl in Hfailed. subst w. now exists s'.
Defined.

(** X20.  Without an API key no provider is configured: [search_web] returns
    the empty result without any request, also for a provider name it does
    not know.  Asked for Brave or Tavily by name it raises the [ValueError]
    of the missing key, again without any request. *)
Theorem X20_unconfigured_search `{Environ} `{Providers}
    (query : string) (num_results : nat) (s : State) :
  truthy BRAVE_API_KEY = false ->
  truthy TAVILY_API_KEY = false ->
  let searched := set_calls (calls s ++ [SearchWeb query num_results]) s in
  WEB_SEARCH_PROVIDER = None
  /\ search_web query num_results None s = (inr no_results, searched)
  /\ search_web query num_results (Some "brave") s = (inl brave_key_missing, searched)
  /\ search_web query num_results (Some "tavily") s = (inl tavily_key_missing, searched)
  /\ search_brave query num_results s = (inl brave_key_missing, s)
  /\ search_tavily query num_results s = (inl tavily_key_missing, s)
  /\ (forall p, truthy p = true -> p <> "brave" -> p <> "tavily" ->
        search_web query num_results (Some p) s = (inr no_results, searched)).
Proof.
  intros Hb Ht searched.
  unfold search_web, search_brave, search_tavily, WEB_SEARCH_PROVIDER.
  rewrite Hb, Ht. run.
  repeat (split; [reflexivity|]).
  intros p Hp Hnb Hnt. rewrite Hp.
  apply String.eqb_neq in Hnb, Hnt. now rewrite Hnb, Hnt.
Qed.

Lemma X20_unconfigured_search_witness :
  @search_web no_keys one_hit "q" 3 (Some "tavily") fresh
  = (inl tavily_key_missing, set_calls [SearchWeb "q" 3] fresh).
Proof.
  apply (@X20_unconfigured_search no_keys one_hit "q" 3 fresh eq_refl eq_refl).
Defined.

(** ** main.py: answering a query *)

Section QueryFrame.
Context `{Environ} `{Providers} `{Ollama} `{VectorSearch}.

Lemma only_calls_added_refl (s : State) : only_calls_added s s.
Proof. unfold only_calls_added. repeat split. exists []. now rewrite app_nil_r. Qed.

Lemma only_calls_added_trans (s1 s2 s3 : State) :
  only_calls_added s1 s2 -> only_calls_added s2 s3 -> only_calls_added s1 s3.
Proof.
  intros (Hc & Hl & Ht & Hp & l & Hcalls) (Hc' & Hl' & Ht' & Hp' & l' & Hcalls').
  unfold only_calls_added. repeat split; try congruence.
  exists (l ++ l'). now rewrite Hcalls', Hcalls, app_assoc.
Qed.

Lemma only_calls_added_record (c : call) (s : State) :
  only_calls_added s (set_calls (calls s ++ [c]) s).
Proof. unfold only_calls_added. simpl. repeat split. now exists [c]. Qed.

Lemma search_web_frame (query : string) (num_results : nat)
    (provider : option string) (s : State) :
  only_calls_added s (exec (search_web query num_results provider) s).
Proof.
  unfold exec, search_web. run.
  set (s1 := set_calls (calls s ++ [SearchWeb query num_results]) s).
  assert (Hs1 : only_calls_added s s1) by apply only_calls_added_record.
  assert (Hbrave : only_calls_added s (search_brave query num_results s1).2).
  { unfold search_brave. destruct (truthy BRAVE_API_KEY); simpl; [|exact Hs1].
    run. eapply only_calls_added_trans; [exact Hs1|].
    destruct (brave_request query num_results) as [e|data]; simpl;
      apply only_calls_added_record. }
  assert (Htavily : only_calls_added s (search_tavily query num_results s1).2).
  { unfold search_tavily. destruct (truthy TAVILY_API_KEY); simpl; [|exact Hs1].
    run. eapply only_calls_added_trans; [exact Hs1|].
    destruct (tavily_search query num_results) as [e|data]; simpl;
      apply only_calls_added_record. }
  destruct (match provider with
            | Some p => if truthy p then Some p else WEB_SEARCH_PROVIDER
            | None => WEB_SEARCH_PROVIDER
            end) as [p|]; [|exact Hs1].
  destruct (String.eqb p "brave"); [exact Hbrave|].
  destruct (String.eqb p "tavily"); [exact Htavily | exact Hs1].
Qed.

Lemma retrieve_frame (request : QueryRequest) (s : State) :
  only_calls_added s (exec (retrieve request) s).
Proof.
  unfold exec, retrieve. run.
  destruct (generate_embedding (question request)) as [e|emb]; simpl;
    [apply only_calls_added_refl|].
  destruct (collection_query (collection s) emb (top_k request)) as [e|res];
    simpl; [apply only_calls_added_refl|].
  unfold WEB_SEARCH_ENABLED. simpl.
  destruct (nonempty (first_row (qr_distances res))); simpl;
    [|apply only_calls_added_refl].
  destruct (should_use_web_search _ _ || negb (nonempty _)); simpl;
    [|apply only_calls_added_refl].
  pose proof (search_web_frame (question request) 3 None s) as Hweb.
  unfold exec in Hweb.
  destruct (search_web (question request) 3 None s) as [[e|w] s1]; exact Hweb.
Qed.

Lemma respond_frame (request : QueryRequest) (r : Retrieval) (s : State) :
  only_calls_added s (exec (respond request r) s).
Proof.
  unfold exec, respond.
  destruct (negb (truthy (combine_contexts (pdf_context r) (web_context r))));
    [apply only_calls_added_refl|].
  run. destruct (ollama_generate _); apply only_calls_added_record.
Qed.

End QueryFrame.

(** X21.  [query_knowledge_base] raises nothing but an [HTTPException] with
    status 500, and it only reads: the collection, the ledger, the tracking
    file and the processing status are as before, and the calls it makes are
    recorded after the earlier ones. *)
Theorem X21_query_is_read_only `{Environ} `{Providers} `{Ollama} `{VectorSearch}
    (request : QueryRequest) (s : State) :
  (forall e, eval (query_knowledge_base request) s = inl e ->
     exists detail, e = HTTPException 500 detail)
  /\ only_calls_added s (exec (query_knowledge_base request) s).
Proof.
  unfold eval, exec, query_knowledge_base, try_except, bind.
  pose proof (retrieve_frame request s) as Hr. unfold exec in Hr.
  destruct (retrieve request s) as [[e0|r] s1]; simpl.
  - split; [|exact Hr]. intros e He. inversion He. eauto.
  - pose proof (respond_frame request r s1) as Hp. unfold exec in Hp.
    destruct (respond request r s1) as [[e0|resp] s2]; simpl.
    + split; [|eapply only_calls_added_trans; eassumption].
      intros e He. inversion He. eauto.
    + split; [discriminate | eapply only_calls_added_trans; eassumption].
Qed.

(** X22.  A question that is empty or white space is rejected before anything
    is looked up: the query raises status 500 with the message of the
    embedding error, and no web-search or language-model call is made. *)
Theorem X22_blank_question `{Environ} `{Providers} `{Ollama} `{VectorSearch}
    (request : QueryRequest) (s : State) :
  truthy (strip (question request)) = false ->
  query_knowledge_base request s
  = (inl (HTTPException 500
            "Error generating embedding: Cannot generate embedding for empty text"),
     s).
Proof.
  intros Hblank.
  unfold query_knowledge_base, retrieve, try_except, bind, lift.
  now rewrite (generate_embedding_blank (question request) Hblank).
Qed.

Lemma X22_blank_question_witness :
  @query_knowledge_base brave_key one_hit unit_embedder (neighbours_at 0.9 0.95)
    (ask "   ") fresh
  = (inl (HTTPException 500
            "Error generating embedding: Cannot generate embedding for empty text"),
     fresh).
Proof.
  apply (@X22_blank_question brave_key one_hit unit_embedder
           (neighbours_at 0.9 0.95) (ask "   ") fresh eq_refl).
Defined.

(** X23.  When retrieval ends with a context that is not empty, exactly one
    call to the language model is made, with the prompt built from the
    history, the combined context and the question.  If the model answers,
    the response carries its answer and the local sources followed by the
    web sources; if the call fails, the query raises status 500 with the
    message of that failure. *)
Theorem X23_answer_from_context `{Environ} `{Providers} `{Ollama} `{VectorSearch}
    (request : QueryRequest) (r : Retrieval) (s s1 : State) :
  retrieve request s = (inr r, s1) ->
  truthy (pdf_context r) || truthy (web_context r) = true ->
  let prompt := prompt_of request (combine_contexts (pdf_context r) (web_context r)) in
  query_knowledge_base request s
  = (match ollama_generate prompt with
     | inr response =>
         inr {| answer := response; sources := pdf_sources r ++ web_sources r |}
     | inl e => inl (HTTPException 500 (str_exn e))
     end,
     set_calls (calls s1 ++ [Generate prompt]) s1).
Proof.
  intros Hrun Hctx prompt.
  assert (Hcombined : truthy (combine_contexts (pdf_context r) (web_context r)) = true).
  { unfold combine_contexts.
    destruct (truthy (pdf_context r)) eqn:Hp, (truthy (web_context r)) eqn:Hw;
      simpl; try reflexivity; try exact Hp. discriminate. }
  unfold query_knowledge_base, try_except, bind. rewrite Hrun.
  unfold respond. rewrite Hcombined. simpl. run.
  fold (history_of request). fold (prompt_of request
    (combine_contexts (pdf_context r) (web_context r))). fold prompt.
  now destruct (ollama_generate prompt).
Qed.

Lemma X23_answer_from_context_witness :
  eval (@query_knowledge_base no_keys one_hit unit_embedder (neighbours_at 0.1 0.2)
          (ask "q")) fresh
  = inr {| answer := "generated answer";
           sources := ["a.pdf (Page 1, text)"; "a.pdf (Page 1, text)"] |}.
Proof.
  unfold eval.
  rewrite (@X23_answer_from_context no_keys one_hit unit_embedder
             (neighbours_at 0.1 0.2) (ask "q")
             {| pdf_context := "first passage" +:+ nl +:+ nl +:+ "second passage";
                pdf_sources := ["a.pdf (Page 1, text)"; "a.pdf (Page 1, text)"];
                use_web := false; web_context := ""; web_sources := [] |}
             fresh fresh eq_refl eq_refl).
  reflexivity.
Defined.

(** X24.  For every [max_messages] the rendered history is the header
    followed by the turns of [chat_history[-max_messages:]]: the last
    [max_messages] turns when that number is positive, the whole history when
    it is 0, and the history without its first [-max_messages] turns when it
    is negative. *)
Theorem X24_history_for_any_bound (history : list Message) (max_messages : Z) :
  let kept :=
    if (0 <? max_messages)%Z
    then last_turns (Nat.min (length history) (Z.to_nat max_messages)) history
    else drop (Z.to_nat (- max_messages)) history in
  format_chat_history history max_messages
  = (if nonempty history
     then history_header +:+ str_concat (map render_message kept)
     else "")
  /\ (max_messages = 0%Z -> kept = history).
Proof.
  intros kept. split.
  - unfold format_chat_history. destruct (nonempty history); [|reflexivity].
    simpl. rewrite fold_left_render. fold history_header. do 2 f_equal.
    subst kept. unfold slice_from, last_turns.
    destruct (0 <? max_messages)%Z eqn:Hpos.
    + apply Z.ltb_lt in Hpos.
      replace (- max_messages <? 0)%Z with true by (symmetry; apply Z.ltb_lt; lia).
      do 2 f_equal. lia.
    + apply Z.ltb_ge in Hpos.
      replace (- max_messages <? 0)%Z with false by (symmetry; apply Z.ltb_ge; lia).
      destruct (Z.le_gt_cases (- max_messages) (Z.of_nat (length history))).
      * do 2 f_equal. lia.
      * rewrite !drop_ge by lia. reflexivity.
  - intros ->. reflexivity.
Qed.

(** ** main.py: the same bytes through both entry points *)

Section SameBytes.
Context `{Hashlib} `{Disk} `{PyPDF2} `{Fitz} `{Ollama}.

Lemma process_single_pdf_batch (f : Path) (h : string) (content : bytes) (s : State) :
  read_bytes f = inr content ->
  collection (exec (process_single_pdf f h) s)
  = foldl add_entry (collection s) (batch_for h (name f) content).
Proof.
  intros Hread. unfold exec, process_single_pdf, batch_for. run. rewrite Hread.
  simpl.
  destruct (extract_text_from_pdf_bytes content) as [e|tc]; [reflexivity|].
  destruct (extract_images_from_pdf_bytes content) as [e|ic]; [reflexivity|].
  simpl. destruct (nonempty (tc ++ ic)); simpl; [|reflexivity].
  destruct (prepare_invariant h (name f) (tc ++ ic)) as [Hbal _].
  set (p := prepare h (name f) (tc ++ ic)) in *.
  destruct (nonempty (documents p) && nonempty (vectors p)); [|reflexivity].
  now rewrite collection_add_run.
Qed.

Lemma upload_pdfs_one_batch (file : UploadFile) (file_name : string) (s : State) :
  upload_filename file = Some file_name ->
  named_pdf file = true ->
  collection (exec (upload_pdfs [file]) s)
  = foldl add_entry (collection s)
          (batch_for (md5_hexdigest (upload_content file)) file_name
                     (upload_content file)).
Proof.
  intros Hname Hpdf. rewrite upload_pdfs_exec.
  unfold exec, upload_loop, bind, upload_file, batch_for.
  unfold named_pdf in Hpdf. rewrite Hname in *.
  destruct (truthy file_name); [|discriminate].
  destruct (endswith file_name ".pdf"); [|discriminate]. run.
  destruct (extract_text_from_pdf_bytes (upload_content file)) as [e|tc];
    [reflexivity|].
  destruct (extract_images_from_pdf_bytes (upload_content file)) as [e|ic];
    [reflexivity|].
  simpl. destruct (nonempty (tc ++ ic)); simpl; [|reflexivity].
  set (h := md5_hexdigest (upload_content file)).
  destruct (prepare_invariant h file_name (tc ++ ic)) as [Hbal _].
  set (p := prepare h file_name (tc ++ ic)) in *.
  destruct (nonempty (documents p) && nonempty (vectors p)); [|reflexivity].
  now rewrite collection_add_run.
Qed.

(** The name of the file only reaches the metadata of the batch. *)
Lemma prepare_name_irrelevant (h n1 n2 : string) (all_chunks : list Chunk) :
  let p1 := prepare h n1 all_chunks in
  let p2 := prepare h n2 all_chunks in
  ids p1 = ids p2 /\ documents p1 = documents p2 /\ vectors p1 = vectors p2.
Proof.
  unfold prepare. generalize (enumerate all_chunks) as l.
  assert (Hgen : forall (l : list (nat * Chunk)) (a1 a2 : Prepared),
            ids a1 = ids a2 /\ documents a1 = documents a2
            /\ vectors a1 = vectors a2 ->
            ids (fold_left (prepare_chunk h n1) l a1)
            = ids (fold_left (prepare_chunk h n2) l a2)
            /\ documents (fold_left (prepare_chunk h n1) l a1)
               = documents (fold_left (prepare_chunk h n2) l a2)
            /\ vectors (fold_left (prepare_chunk h n1) l a1)
               = vectors (fold_left (prepare_chunk h n2) l a2)).
  { induction l as [|[idx c] l IH]; intros a1 a2 Ha; [exact Ha|].
    simpl. apply IH. destruct Ha as (Hi & Hd & Hv).
    destruct (truthy (strip (text c))); simpl; [|now repeat split].
    destruct (generate_embedding (strip (text c))) as [e|v]; [now repeat split|].
    destruct (negb (nonempty v)); simpl; [now repeat split|].
    now rewrite Hi, Hd, Hv. }
  intros l. apply Hgen. now repeat split.
Qed.

Lemma entries_keys (p : Prepared) :
  balanced p ->
  map fst (entries (ids p) (documents p) (vectors p) (metadatas p)) = ids p.
Proof.
  intros (Hd & Hv & Hm).
  generalize dependent (metadatas p). generalize dependent (vectors p).
  generalize dependent (documents p).
  induction (ids p) as [|i l IH]; intros [|d ds] Hd [|v vs] Hv [|m ms] Hm;
    simpl in *; try discriminate; try reflexivity.
  f_equal. apply IH; congruence.
Qed.

(** The ids of the entries written for some bytes do not depend on the name
    under which they are ingested. *)
Lemma batch_for_keys (h n1 n2 : string) (content : bytes) :
  map fst (batch_for h n1 content) = map fst (batch_for h n2 content).
Proof.
  unfold batch_for.
  destruct (extract_text_from_pdf_bytes content) as [e|tc]; [reflexivity|].
  destruct (extract_images_from_pdf_bytes content) as [e|ic]; [reflexivity|].
  destruct (prepare_name_irrelevant h n1 n2 (tc ++ ic)) as (Hi & Hd & Hv).
  destruct (prepare_invariant h n1 (tc ++ ic)) as [Hb1 _].
  destruct (prepare_invariant h n2 (tc ++ ic)) as [Hb2 _].
  cbv zeta. rewrite Hd, Hv.
  destruct (nonempty (tc ++ ic) && nonempty (documents (prepare h n2 (tc ++ ic)))
            && nonempty (vectors (prepare h n2 (tc ++ ic)))); [|reflexivity].
  rewrite (entries_keys _ Hb2).
  rewrite <- Hd, <- Hv, (entries_keys _ Hb1). exact Hi.
Qed.

Lemma add_entries_same_keys (c : gmap string DocumentRecord)
    (b1 b2 : list (string * DocumentRecord)) :
  map fst b1 = map fst b2 ->
  foldl add_entry (foldl add_entry c b1) b2 = foldl add_entry c b1.
Proof.
  intros Hkeys. apply add_entries_absorbed. intros r Hr.
  assert (Hin : In r.1 (map fst b1)) by (rewrite Hkeys; now apply in_map).
  apply in_map_iff in Hin as [r1 [Heq Hin]]. rewrite <- Heq.
  now apply add_entries_keys.
Qed.

End SameBytes.

(** X25.  The ids of the entries of a document depend on its bytes only, not
    on its name or on the entry point.  So uploading, under any name, bytes
    that the sweep's [process_single_pdf] or an earlier upload has already
    indexed leaves the collection as it is. *)
Theorem X25_same_bytes_add_nothing `{Hashlib} `{Disk} `{PyPDF2} `{Fitz} `{Ollama}
    (f : Path) (content : bytes) (first again : UploadFile)
    (name1 name2 : string) (s : State) :
  read_bytes f = inr content ->
  upload_content first = content -> upload_filename first = Some name1 ->
  named_pdf first = true ->
  upload_content again = content -> upload_filename again = Some name2 ->
  named_pdf again = true ->
  (let swept := exec (process_single_pdf f (md5_hexdigest content)) s in
   collection (exec (upload_pdfs [again]) swept) = collection swept)
  /\ (let uploaded := exec (upload_pdfs [first]) s in
      collection (exec (upload_pdfs [again]) uploaded) = collection uploaded).
Proof.
  intros Hread Hc1 Hn1 Hp1 Hc2 Hn2 Hp2. split.
  - intros swept. subst swept.
    rewrite (upload_pdfs_one_batch again name2 _ Hn2 Hp2), Hc2.
    rewrite (process_single_pdf_batch f _ content s Hread).
    apply add_entries_same_keys, batch_for_keys.
  - intros uploaded. subst uploaded.
    rewrite (upload_pdfs_one_batch again name2 _ Hn2 Hp2), Hc2.
    rewrite (upload_pdfs_one_batch first name1 s Hn1 Hp1), Hc1.
    apply add_entries_same_keys, batch_for_keys.
Qed.

Lemma X25_same_bytes_add_nothing_witness :
  let uploaded := exec (@upload_pdfs length_digest one_page no_images unit_embedder
                          [a_pdf_upload]) fresh in
  eval collection_count uploaded = inr 1
  /\ collection (exec (@upload_pdfs length_digest one_page no_images unit_embedder
                         [copy_pdf_upload]) uploaded)
     = collection uploaded.
Proof.
  intros uploaded. split; [reflexivity|].
  apply (@X25_same_bytes_add_nothing length_digest two_pdfs one_page no_images
           unit_embedder "a.pdf" [Byte.x25] a_pdf_upload copy_pdf_upload
           "a.pdf" "copy of a.pdf" fresh
           eq_refl eq_refl eq_refl eq_refl eq_refl eq_refl eq_refl).
Defined.

(** A chunk that cannot be embedded is passed over: with a model that always
    fails, [process_single_pdf] returns 0 and writes nothing. *)
Example failing_embedder_indexes_nothing :
  @process_single_pdf two_pdfs one_page no_images failing_embedder "a.pdf" "1" fresh
  = (inr 0, fresh).
Proof. reflexivity. Qed.
